(** * JourneyPanel: session lifecycle, heartbeat and drift detection

    A shallow embedding of the stateful core of the [JourneyPanel] React
    component (media handling, frame capture, heartbeat scheduling, the
    drift state machine, session end and the realtime [session_ended]
    handler), and the properties of it that the specification states.

    Modelling conventions.

    - The [useState] cells of the component form the record [State].  A
      function of the component is a closure created by one render: it
      READS the state cells of that render (its snapshot, the argument
      [snap]) and WRITES through the setters, which update the cells of the
      live component ([st] of the [World]).  A callback handed to
      [setTimeout] / [setInterval] keeps its snapshot for good.
    - [useRef] cells, the media streams, the timer queue and the clock are
      fields of the [World]; refs are read and written in place.
    - Media streams are objects: state cells and refs hold a handle
      ([StreamId]) into the store [streams], so that stopping the tracks of
      a stream is seen through every alias.
    - An [async] function is run in one piece; what the browser or the
      backend answers at each [await] is an argument of the function.
    - Exceptions are the [Throw] outcome of the monad [M]; state written
      before a throw stays written.  What the code of the [World] throws
      is an [Error]; around it, what [auth.startSession] rejects with may
      be any value ([Raised]).

    The development has four parts, each with its definitions here and
    its properties further down: the session core (media, frame capture,
    heartbeat, drift, the end of a session); the microphone
    and the unmount cleanup; the task list (module [TaskList], with cells
    of its own); and what starts a session, the permission panel, screen
    sharing and [startSailingSession] (a [Panel] around the [World]).  The
    edge function [spline-webhook] is the module [SplineWebhook].

    Not modelled: the rendering, apart from the conditions under which the
    task list and its handlers exist; the [deep_drift_detected] handler;
    the inside of the permission panel, of [usePassiveListening], of
    [auth] and of the supabase client, whose answers are arguments. *)

From Stdlib Require Import QArith.
From stdpp Require Import base option list gmap strings pretty.
From coqutil Require Import Datatypes.RecordSetters.
Import TriangleBracketNotations.

Open Scope string_scope.
Open Scope list_scope.

(** ** Data model *)

Record JsError := { err_name : string; err_message : string }.

(** [new Error(msg)] *)
Definition mkError (msg : string) : JsError :=
  {| err_name := "Error"; err_message := msg |}.

Inductive TrackKind := VideoTrack | AudioTrack.
Inductive ReadyState := Live | Ended.

Record Track := {
  kind : TrackKind;
  label : string;
  readyState : ReadyState;
  enabled : bool
}.

(** A [MediaStream] is its list of tracks; a handle names it in the store. *)
Abbreviation MediaStream := (list Track) (only parsing).
Abbreviation StreamId := nat (only parsing).

Definition isVideo (t : Track) : bool :=
  match kind t with VideoTrack => true | AudioTrack => false end.

Definition isLive (t : Track) : bool :=
  match readyState t with Live => true | Ended => false end.

(** [track.stop()] *)
Definition stop (t : Track) : Track := t <| readyState := Ended |>.

Definition getVideoTracks (s : MediaStream) : list Track := filter (λ t, isVideo t = true) s.

(** [stream.active]: some track has not ended. *)
Definition active (s : MediaStream) : bool := existsb isLive s.

Record Task := {
  task_id : string;
  task_title : string;
  task_priority : nat
}.

Abbreviation Blob := string (only parsing).

(** The constraint argument of [getUserMedia], tier by tier. *)
Record Range := { ideal : nat; max : nat }.
Inductive Constraints :=
| VideoSized (width height : Range) (frameRate : option Range)
| VideoTrue
| AudioTrue.

Definition constraintSets : list Constraints :=
  [ VideoSized {| ideal := 1280; max := 1920 |} {| ideal := 720; max := 1080 |}
               (Some {| ideal := 30; max := 60 |});
    VideoSized {| ideal := 640; max := 1280 |} {| ideal := 480; max := 720 |}
               (Some {| ideal := 15; max := 30 |});
    VideoSized {| ideal := 320; max := 640 |} {| ideal := 240; max := 480 |} None;
    VideoTrue ].

(** Server-side statistics of an ended session. *)
Record Stats := {
  totalDuration : N;
  sailingDuration : N;
  driftingDuration : N;
  distractionCount : N;
  focusPercentage : N
}.

Record SessionEndData := {
  stats : option Stats;          (* [None]: the field is missing *)
  ai_analysis : option string
}.

(** What [setSummaryData] is given.  The three shapes the code builds are
    kept apart; the text of each is rendered from these fields. *)
Inductive SailingSummaryData :=
| SummaryEnhanced (imageUrl summaryText : string) (s : Stats)
| SummaryFallbackStats (s : Stats) (analysis : string)
| SummaryUnavailable.

(** Requests sent to the backend. *)
Inductive Request :=
| ReqHeartbeat (sessionId : string) (cameraImage screenImage : option string)
| ReqSessionEnd (sessionId : string)
| ReqSplineProxy (webhookUrl : string) (numbaer2 : nat)
| ReqJourneyWebhook (user_id webhookUrl payloadKey : string)
| ReqSailingSummary (taskId : option string) (sessionId : string) (s : Stats).

(** Everything the component does to the outside, in order. *)
Inductive Event :=
| EvRequest (r : Request)
| EvGetUserMedia (c : Constraints)
| EvSleep (ms : N)
| EvRemoveChannel (name : string)
| EvSubscribe (name : string)
| EvStopPassiveListening.

Definition isNetwork (e : Event) : bool :=
  match e with EvRequest _ => true | _ => false end.

Definition isDeviceRequest (e : Event) : bool :=
  match e with EvGetUserMedia _ => true | _ => false end.

(** The [useState] cells. *)
Record State := {
  selectedTask : option Task;
  showControlPanel : bool;
  showSummaryPanel : bool;
  summaryData : option SailingSummaryData;
  isLoadingSummary : bool;
  currentSessionId : option string;
  isSessionActive : bool;
  sessionStartTime : option N;
  sessionError : option string;
  isStartingSession : bool;
  isVideoOn : bool;
  isScreenSharing : bool;
  isMicMuted : bool;
  videoStream : option StreamId;
  screenStream : option StreamId;
  micStream : option StreamId;
  isHeartbeatActive : bool;
  isDrifting : bool;
  driftReason : string;
  isDriftAcknowledged : bool
}.

(** What a timer runs when it fires.  A heartbeat callback is the closure
    [() => sendHeartbeat(sessionId, isActive)]: it holds the [sendHeartbeat]
    of the render that scheduled it and the two arguments by value. *)
Inductive Callback :=
| CbHeartbeat (snap : State) (sessionId : string) (isActive : bool)
| CbRearmAcknowledgment.

Record Timer := {
  timer_id : nat;
  recurring : option N;      (* [Some p]: a [setInterval] of period [p] *)
  due : N;                   (* in ms on the clock [now] *)
  callback : Callback
}.

Record World := {
  st : State;
  (* useRef cells *)
  realtimeChannelRef : option string;
  videoStreamRef : option StreamId;
  screenStreamRef : option StreamId;
  videoRef : option (option StreamId);     (* the element, and its srcObject *)
  screenRef : option (option StreamId);
  heartbeatIntervalRef : option nat;
  (* browser *)
  streams : gmap StreamId MediaStream;
  next_stream : StreamId;
  timers : list Timer;
  next_timer : nat;
  now : N;
  currentUser : option string;             (* [auth.getCurrentUser()?.id] *)
  trace : list Event
}.

Definition initialState : State :=
  {| selectedTask := None; showControlPanel := false; showSummaryPanel := false;
     summaryData := None; isLoadingSummary := false;
     currentSessionId := None; isSessionActive := false; sessionStartTime := None;
     sessionError := None; isStartingSession := false;
     isVideoOn := false; isScreenSharing := false; isMicMuted := false;
     videoStream := None; screenStream := None; micStream := None;
     isHeartbeatActive := false;
     isDrifting := false; driftReason := ""; isDriftAcknowledged := false |}.

Definition initialWorld (user : option string) : World :=
  {| st := initialState;
     realtimeChannelRef := None; videoStreamRef := None; screenStreamRef := None;
     videoRef := None; screenRef := None; heartbeatIntervalRef := None;
     streams := ∅; next_stream := 0; timers := []; next_timer := 1; now := 0%N;
     currentUser := user; trace := [] |}.

(** ** The monad of component code: state plus exceptions *)

Inductive Res (A : Type) :=
| Ok (a : A)
| Throw (e : JsError).
Arguments Ok {A} a.
Arguments Throw {A} e.

Definition M (A : Type) : Type := World → Res A * World.

#[global] Instance M_ret : MRet M := λ A a w, (Ok a, w).
#[global] Instance M_bind : MBind M := λ A B f m w,
  match m w with
  | (Ok a, w') => f a w'
  | (Throw e, w') => (Throw e, w')
  end.

Definition throw {A} (e : JsError) : M A := λ w, (Throw e, w).
Definition get : M World := λ w, (Ok w, w).
Definition modify (f : World → World) : M unit := λ w, (Ok (), f w).

(** [try { m } catch (e) { h e }] *)
Definition try_catch {A} (m : M A) (h : JsError → M A) : M A := λ w,
  match m w with
  | (Ok a, w') => (Ok a, w')
  | (Throw e, w') => h e w'
  end.

(** [try { m } finally { f }] *)
Definition try_finally {A} (m : M A) (f : M unit) : M A := λ w,
  match m w with
  | (r, w') => match f w' with
               | (Ok _, w'') => (r, w'')
               | (Throw e, w'') => (Throw e, w'')
               end
  end.

Definition exec {A} (m : M A) (w : World) : World := (m w).2.
Definition outcome {A} (m : M A) (w : World) : Res A := (m w).1.

(** The trace grows at its end. *)
Definition say (evs : list Event) (w : World) : World :=
  w <| trace ::= (λ t, t ++ evs) |>.

Definition emit (e : Event) : M unit := modify (say [e]).

(** [await new Promise(resolve => setTimeout(resolve, ms))] *)
Definition sleep (ms : N) : M unit := emit (EvSleep ms).

(** State setters write the live cells. *)
Definition setState (f : State → State) : M unit := modify (λ w, w <| st ::= f |>).

(** ** Streams and timers *)

Definition tracksOf (w : World) (s : StreamId) : MediaStream := default [] (streams w !! s).

(** [stream.getTracks().forEach(track => track.stop())] *)
Definition stopTracks (s : StreamId) : M unit :=
  modify (λ w, w <| streams ::= alter (map stop) s |>).

(** [stream.getVideoTracks().forEach(track => track.stop())] *)
Definition stopVideoTracks (s : StreamId) : M unit :=
  modify (λ w, w <| streams ::= alter (map (λ t, if isVideo t then stop t else t)) s |>).

(** [if (ref.current) ref.current.srcObject = v] *)
Definition setSrcObject (v : option StreamId) (el : option (option StreamId))
  : option (option StreamId) :=
  match el with Some _ => Some v | None => None end.

(** [setTimeout(cb, ms)] *)
Definition setTimeout (cb : Callback) (ms : N) : M nat := λ w,
  let id := next_timer w in
  (Ok id, w <| timers ::= (λ l, l ++ [ {| timer_id := id; recurring := None;
                                           due := (now w + ms)%N; callback := cb |} ]) |>
            <| next_timer := S id |>).

(** [setInterval(cb, ms)] *)
Definition setInterval (cb : Callback) (ms : N) : M nat := λ w,
  let id := next_timer w in
  (Ok id, w <| timers ::= (λ l, l ++ [ {| timer_id := id; recurring := Some ms;
                                           due := (now w + ms)%N; callback := cb |} ]) |>
            <| next_timer := S id |>).

(** [clearInterval(id)] *)
Definition clearInterval (id : nat) : M unit :=
  modify (λ w, w <| timers ::= filter (λ t, timer_id t ≠ id) |>).

(** ** Media handling *)

(** What the browser answers to one [getUserMedia] call. *)
Inductive GumOutcome :=
| GumStream (tracks : list Track)
| GumReject (e : JsError).

(** [await navigator.mediaDevices.getUserMedia(c)]: a granted request
    creates a new stream object. *)
Definition newStream (ts : list Track) : M StreamId := λ w,
  let id := next_stream w in
  (Ok id, w <| streams ::= insert id ts |> <| next_stream := S id |>).

Definition getUserMedia (c : Constraints) (o : GumOutcome) : M StreamId :=
  emit (EvGetUserMedia c);;
  match o with
  | GumStream ts => newStream ts
  | GumReject e => throw e
  end.

Definition isPermissionError (e : JsError) : bool :=
  String.eqb (err_name e) "NotAllowedError" || String.eqb (err_name e) "PermissionDeniedError".

Definition newline : string := String (Ascii.ascii_of_nat 10) "".

(** The message [toggleVideo] shows for a failed acquisition. *)
Definition cameraErrorMessage (err : JsError) : string :=
  "Failed to access camera. " +:+
  (if isPermissionError err then
     "Please allow camera access in your browser settings."
   else if String.eqb (err_name err) "NotFoundError" then
     "No camera found on this device."
   else if String.eqb (err_name err) "NotReadableError" then
     "Camera is unavailable. This usually means:" +:+ newline +:+
     "• Another application is using the camera (close other video apps)" +:+ newline +:+
     "• Camera hardware issue (try restarting your browser)" +:+ newline +:+
     "• OS-level camera restrictions" +:+ newline +:+
     "The session will continue without camera monitoring."
   else if String.eqb (err_name err) "OverconstrainedError" then
     "Camera does not support the required settings."
   else
     "Please check your camera settings. Error: " +:+ err_message err).

(** The [for] loop of [toggleVideo] over the constraint sets, from index
    [i] on; [gum i] is the browser's answer to attempt [i].  The result is
    the pair of locals [(stream, lastError)] when the loop is left. *)
Fixpoint tryConstraintSets (gum : nat → GumOutcome) (i : nat) (cs : list Constraints)
    (lastError : option JsError) : M (option StreamId * option JsError) :=
  match cs with
  | [] => mret (None, lastError)
  | c :: rest =>
      r ← try_catch
            ((if (0 <? i)%nat then sleep 200 else mret ());;
             stream ← getUserMedia c (gum i);
             mret (inl stream))
            (λ err,
               (* a permission error is thrown on, out of the loop *)
               if isPermissionError err then throw err else mret (inr err));
      match r with
      | inl stream => mret (Some stream, lastError)            (* break *)
      | inr err => tryConstraintSets gum (S i) rest (Some err)
      end
  end.

(** [toggleVideo], first branch: turn off video. *)
Definition turnOffVideo (vs : StreamId) : M unit :=
  stopTracks vs;;
  setState (λ s, s <| videoStream := None |>);;
  modify (λ w, w <| videoStreamRef := None |>);;
  setState (λ s, s <| isVideoOn := false |>);;
  modify (λ w, w <| videoRef ::= setSrcObject None |>).

(** [toggleVideo], the rest of the [try] block: start the camera. *)
Definition startCamera (snap : State) (gum : nat → GumOutcome) : M unit :=
  w ← get;
  (* Guard against duplicate requests *)
  if match videoStream snap with
     | Some vs => active (tracksOf w vs)
     | None => false
     end
  then mret ()
  else
    try_catch
      (match videoStream snap with
       | Some vs => stopVideoTracks vs
       | None => mret ()
       end;;
       (* Small delay to allow hardware cleanup *)
       sleep 100)
      (λ _, mret ());;
    r ← tryConstraintSets gum 0 constraintSets None;
    match r with
    | (None, lastError) =>
        throw (default (mkError "Failed to start camera with all constraint sets")
                       lastError)
    | (Some stream, _) =>
        w ← get;
        (* Verify stream is actually working *)
        if match getVideoTracks (tracksOf w stream) with
           | videoTrack :: _ => isLive videoTrack
           | [] => false
           end
        then
          setState (λ s, s <| videoStream := Some stream |>);;
          modify (λ w, w <| videoStreamRef := Some stream |>);;
          setState (λ s, s <| isVideoOn := true |>);;
          modify (λ w, w <| videoRef ::= setSrcObject (Some stream) |>)
        else
          stopTracks stream;;
          throw (mkError "Camera stream is not live")
    end.

(** The [try] block of [toggleVideo]. *)
Definition toggleVideoTry (snap : State) (gum : nat → GumOutcome) : M unit :=
  match isVideoOn snap, videoStream snap with
  | true, Some vs => turnOffVideo vs
  | _, _ => startCamera snap gum
  end.

(** The [catch] block of [toggleVideo]: the failure is surfaced. *)
Definition toggleVideoCatch (err : JsError) : M unit :=
  setState (λ s, s <| sessionError := Some (cameraErrorMessage err) |>);;
  (* Reset video state on error *)
  setState (λ s, s <| isVideoOn := false |>);;
  setState (λ s, s <| videoStream := None |>);;
  modify (λ w, w <| videoStreamRef := None |>);;
  modify (λ w, w <| videoRef ::= setSrcObject None |>).

Definition toggleVideo (snap : State) (gum : nat → GumOutcome) : M unit :=
  try_catch (toggleVideoTry snap gum) toggleVideoCatch.

(** [cleanupMediaStreams]: releases the streams of its snapshot. *)
Definition cleanupMediaStreams (snap : State) : M unit :=
  match videoStream snap with
  | Some vs =>
      stopTracks vs;;
      setState (λ s, s <| videoStream := None |>);;
      modify (λ w, w <| videoStreamRef := None |>);;
      setState (λ s, s <| isVideoOn := false |>)
  | None => mret ()
  end;;
  match screenStream snap with
  | Some ss =>
      stopTracks ss;;
      setState (λ s, s <| screenStream := None |>);;
      modify (λ w, w <| screenStreamRef := None |>);;
      setState (λ s, s <| isScreenSharing := false |>)
  | None => mret ()
  end;;
  match micStream snap with
  | Some ms =>
      stopTracks ms;;
      setState (λ s, s <| micStream := None |>);;
      setState (λ s, s <| isMicMuted := false |>)
  | None => mret ()
  end;;
  (* Stop passive listening *)
  emit EvStopPassiveListening.

(** ** Frame capture *)

(** What the browser does during one capture: the answers at each step of
    [captureCameraFrame] / [captureScreenFrame]. *)
Record CaptureEnv := {
  cap_play : option JsError;         (* [video.play()] rejects with this *)
  cap_videoWidth : N;                (* after [loadedmetadata] or the 1s timeout *)
  cap_videoHeight : N;
  cap_context2d : bool;              (* [canvas.getContext('2d')] is not null *)
  cap_drawImage : option JsError;    (* [ctx.drawImage] throws this *)
  cap_toBlob : Q → Q → option Blob   (* what [canvas.toBlob] hands to its callback,
                                        for the width and height that were assigned
                                        to the canvas (which truncates them) *)
}.

(** [videoWidth || fallback] *)
Definition orElse (n fallback : N) : N := if (n =? 0)%N then fallback else n.

(** Aspect-ratio preserving size inside the target box.  The source
    computes in doubles; exact rationals stand for them here, so that a
    quotient is not rounded.  No property below reads the two numbers:
    they are only handed to [cap_toBlob]. *)
Definition finalSize (targetWidth targetHeight sourceWidth sourceHeight : N) : Q * Q :=
  let tw := inject_Z (Z.of_N targetWidth) in
  let th := inject_Z (Z.of_N targetHeight) in
  let aspectRatio := (inject_Z (Z.of_N sourceWidth) / inject_Z (Z.of_N sourceHeight))%Q in
  if negb (Qle_bool aspectRatio (tw / th)%Q)
  then (tw, (tw / aspectRatio)%Q)
  else ((th * aspectRatio)%Q, th).

(** The [try] block that the two capture functions share, up to the target
    box and the fallback source size. *)
Definition captureStream (targetWidth targetHeight fallbackWidth fallbackHeight : N)
    (env : CaptureEnv) : M (option Blob) :=
  (* await video.play() *)
  match cap_play env with Some playErr => throw playErr | None => mret () end;;
  (* the wait for metadata always resolves, by the event or after 1s *)
  let sourceWidth := orElse (cap_videoWidth env) fallbackWidth in
  let sourceHeight := orElse (cap_videoHeight env) fallbackHeight in
  let '(finalWidth, finalHeight) :=
    finalSize targetWidth targetHeight sourceWidth sourceHeight in
  if cap_context2d env then
    match cap_drawImage env with Some e => throw e | None => mret () end;;
    mret (cap_toBlob env finalWidth finalHeight)
  else throw (mkError "Could not get canvas context").

Definition captureCameraFrame (env : CaptureEnv) : M (option Blob) :=
  w ← get;
  match videoStreamRef w with
  | None => mret None
  | Some stream => try_catch (captureStream 640 360 640 480 env) (λ _, mret None)
  end.

Definition captureScreenFrame (env : CaptureEnv) : M (option Blob) :=
  w ← get;
  match screenStreamRef w with
  | None => mret None
  | Some stream => try_catch (captureStream 1008 567 1280 720 env) (λ _, mret None)
  end.

(** ** Scene-change webhooks *)

Record Response (A : Type) := {
  ok : bool;
  status : nat;
  statusText : string;
  json : option A            (* [None]: [response.json()] rejects *)
}.
Arguments ok {A} r.
Arguments status {A} r.
Arguments statusText {A} r.
Arguments json {A} r.

Inductive FetchOutcome (A : Type) :=
| FetchThrows (e : JsError)
| FetchResponds (r : Response A).
Arguments FetchThrows {A} e.
Arguments FetchResponds {A} r.

(** [await fetch(...)] once the request has been sent. *)
Definition fetched {A} (o : FetchOutcome A) : M (Response A) :=
  match o with
  | FetchThrows e => throw e
  | FetchResponds r => mret r
  end.

Definition typeError (msg : string) : JsError :=
  {| err_name := "TypeError"; err_message := msg |}.

(** [await response.json()] *)
Definition readJson {A} (r : Response A) : M A :=
  match json r with
  | Some a => mret a
  | None => throw {| err_name := "SyntaxError"; err_message := "Unexpected end of JSON input" |}
  end.

Inductive SessionAnimation := AnimStart | AnimEnd.

Definition triggerSplineSessionAnimation (event : SessionAnimation)
    (answer : FetchOutcome unit) : M unit :=
  try_catch
    (emit (EvRequest (ReqSplineProxy "https://hooks.spline.design/vS-vioZuERs"
                        match event with AnimStart => 0 | AnimEnd => 1 end));;
     _ ← fetched answer;
     mret ())
    (λ _, mret ()).

(** [triggerSplineDriftScene(isDriftingScene, retries)]; [answer r] is what
    the webhook proxy answers to the attempt made with [r] retries left. *)
Fixpoint triggerSplineDriftScene (answer : nat → FetchOutcome unit)
    (isDriftingScene : bool) (retries : nat) : M unit :=
  try_catch
    (w ← get;
     match currentUser w with
     | None => mret ()
     | Some uid =>
         emit (EvRequest
                 (if isDriftingScene
                  then ReqJourneyWebhook uid "https://hooks.spline.design/6wyPobVwpQk" "numbaer3"
                  else ReqJourneyWebhook uid "https://hooks.spline.design/xyN_bGAd8LY" "numbaer4"));;
         response ← fetched (answer retries);
         if ok response then mret ()
         else throw (mkError ("HTTP " +:+ pretty (status response)))
     end)
    (λ _,
       match retries with
       | S r =>
           match r with
           | S _ =>
               (* Wait 1 second before retry *)
               sleep 1000;;
               triggerSplineDriftScene answer isDriftingScene r
           | O => mret ()
           end
       | O => mret ()
       end).

(** ** Heartbeat *)

Record HeartbeatData := {
  is_drifting : bool;
  drift_reason : option string;
  actual_task : option string
}.

(** What [supabase.functions.invoke] gives back: it rejects, or resolves
    to [{ data, error }]. *)
Inductive InvokeOutcome :=
| InvokeThrows (e : JsError)
| InvokeResult (data : option HeartbeatData) (error : option JsError).

(** What the outside answers during one heartbeat. *)
Record HeartbeatEnv := {
  hb_camera : CaptureEnv;
  hb_screen : CaptureEnv;
  hb_readAsDataURL : Blob → option string;   (* [None]: the reader fails *)
  hb_invoke : InvokeOutcome;
  hb_webhook : nat → FetchOutcome unit
}.

Definition blobToBase64 (reader : Blob → option string) (blob : Blob) : M string :=
  match reader blob with
  | Some s => mret s
  | None => throw {| err_name := "ProgressEvent"; err_message := "error" |}
  end.

(** [blob ? await blobToBase64(blob) : null] *)
Definition blobToBase64Opt (reader : Blob → option string) (blob : option Blob)
  : M (option string) :=
  match blob with
  | Some b => s ← blobToBase64 reader b; mret (Some s)
  | None => mret None
  end.

Definition isNull {A} (o : option A) : bool :=
  match o with Some _ => false | None => true end.

(** [s || d] on strings that may be missing. *)
Definition orDefault (s : option string) (d : string) : string :=
  match s with
  | Some x => if String.eqb x "" then d else x
  | None => d
  end.

Definition sendHeartbeat (snap : State) (sessionId : string) (isActive : bool)
    (env : HeartbeatEnv) : M unit :=
  if String.eqb sessionId "" || negb isActive then mret ()
  else
    try_catch
      (cameraBlob ← captureCameraFrame (hb_camera env);
       screenBlob ← captureScreenFrame (hb_screen env);
       if isNull cameraBlob && isNull screenBlob then
         mret ()     (* Skip heartbeat if no images captured *)
       else
           cameraImageBase64 ← blobToBase64Opt (hb_readAsDataURL env) cameraBlob;
           screenImageBase64 ← blobToBase64Opt (hb_readAsDataURL env) screenBlob;
           emit (EvRequest (ReqHeartbeat sessionId cameraImageBase64 screenImageBase64));;
           match hb_invoke env with
           | InvokeThrows e => throw e
           | InvokeResult _ (Some error) => mret ()
           | InvokeResult None None => throw (typeError "data is null")
           | InvokeResult (Some data) None =>
               let newDriftState := is_drifting data in
               (* Only allow transitions TO drift state automatically *)
               if newDriftState && negb (isDrifting snap) then
                 setState (λ s, s <| isDrifting := true |>);;
                 setState (λ s, s <| driftReason :=
                                       orDefault (drift_reason data)
                                                 "Focus has drifted from the task" |>);;
                 setState (λ s, s <| isDriftAcknowledged := false |>);;
                 triggerSplineDriftScene (hb_webhook env) true 3
               else
                 (* [!newDriftState && isDrifting]: logged, nothing else *)
                 mret ()
           end)
      (λ _, mret ()).

Definition startHeartbeat (snap : State) (sessionId : string) (isActive : bool) : M unit :=
  w ← get;
  match heartbeatIntervalRef w with
  | Some _ => mret ()       (* Heartbeat already active *)
  | None =>
      setState (λ s, s <| isHeartbeatActive := true |>);;
      _ ← setTimeout (CbHeartbeat snap sessionId isActive) 8000;
      id ← setInterval (CbHeartbeat snap sessionId isActive) 60000;
      modify (λ w, w <| heartbeatIntervalRef := Some id |>)
  end.

Definition stopHeartbeat : M unit :=
  w ← get;
  match heartbeatIntervalRef w with
  | Some id =>
      clearInterval id;;
      modify (λ w, w <| heartbeatIntervalRef := None |>);;
      setState (λ s, s <| isHeartbeatActive := false |>)
  | None => mret ()
  end.

(** ** Drift recovery *)

Definition handleContinueWorking (answer : nat → FetchOutcome unit) : M unit :=
  setState (λ s, s <| isDriftAcknowledged := true |>);;
  setState (λ s, s <| isDrifting := false |>);;
  triggerSplineDriftScene answer false 3;;
  _ ← setTimeout CbRearmAcknowledgment 60000;
  mret ().

(** ** Timers firing *)

(** The callback of a timer runs. *)
Definition runCallback (cb : Callback) (env : HeartbeatEnv) : M unit :=
  match cb with
  | CbHeartbeat snap sessionId isActive => sendHeartbeat snap sessionId isActive env
  | CbRearmAcknowledgment => setState (λ s, s <| isDriftAcknowledged := false |>)
  end.

Definition findTimer (id : nat) (l : list Timer) : option Timer :=
  List.find (λ t, (timer_id t =? id)%nat) l.

(** After a timer has fired: a timeout is gone, an interval is due again
    one period later. *)
Definition reschedule (id : nat) (l : list Timer) : list Timer :=
  omap (λ t, if (timer_id t =? id)%nat
             then match recurring t with
                  | Some p => Some (t <| due ::= (λ d, d + p)%N |>)
                  | None => None
                  end
             else Some t) l.

(** The event loop runs timer [id], if it is pending and due. *)
Definition fireTimer (id : nat) (env : HeartbeatEnv) : M unit :=
  w ← get;
  match findTimer id (timers w) with
  | Some t =>
      if (due t <=? now w)%N then
        modify (λ w, w <| timers ::= reschedule id |>);;
        runCallback (callback t) env
      else mret ()
  | None => mret ()
  end.

(** Time passes. *)
Definition advance (dt : N) : M unit := modify (λ w, w <| now ::= (λ t, t + dt)%N |>).

(** ** Realtime channel *)

Definition setupRealtimeChannel (sessionId : string) : M unit :=
  w ← get;
  match realtimeChannelRef w with
  | Some c => emit (EvRemoveChannel c)
  | None => mret ()
  end;;
  let channel := "session:" +:+ sessionId in
  emit (EvSubscribe channel);;
  modify (λ w, w <| realtimeChannelRef := Some channel |>).

(** The handler of the [session_event] broadcast only logs. *)
Definition on_session_event : M unit := mret ().

(** The handler of the [session_ended] broadcast. *)
Definition on_session_ended : M unit :=
  setState (λ s, s <| isSessionActive := false |>);;
  setState (λ s, s <| currentSessionId := None |>).

Definition cleanupRealtimeChannel : M unit :=
  w ← get;
  match realtimeChannelRef w with
  | Some c =>
      emit (EvRemoveChannel c);;
      modify (λ w, w <| realtimeChannelRef := None |>)
  | None => mret ()
  end.

(** ** Ending a session *)

Record SummaryResponse := { sum_imageUrl : string; sum_summaryText : string }.

(** What the backend answers during [handleEndVoyage]. *)
Record EndEnv := {
  end_sessionEnd : FetchOutcome SessionEndData;
  end_animation : FetchOutcome unit;
  end_summary : FetchOutcome SummaryResponse
}.

(** [!currentSessionId]: [null] and the empty string are falsy. *)
Definition truthyId (id : option string) : option string :=
  match id with
  | Some s => if String.eqb s "" then None else Some s
  | None => None
  end.

(** [sessionEndData.stats.<field>]: a [TypeError] when [stats] is missing;
    the first field read is [totalDuration]. *)
Definition statsOf (d : SessionEndData) : M Stats :=
  match stats d with
  | Some s => mret s
  | None => throw (typeError "Cannot read properties of undefined (reading 'totalDuration')")
  end.

(** [sessionEndData.ai_analysis.<field>]; the first field read is
    [overall_comment]. *)
Definition analysisOf (d : SessionEndData) : M string :=
  match ai_analysis d with
  | Some a => mret a
  | None => throw (typeError "Cannot read properties of undefined (reading 'overall_comment')")
  end.

(** [handleEndVoyage], steps 4 and 5 of the [try] block: the summary. *)
Definition endVoyageSummary (snap : State) (sessionIdToEnd : string)
    (sessionEndData : SessionEndData) (answer : FetchOutcome SummaryResponse) : M unit :=
  (* Step 4: Call sailing-summary with the detailed session data *)
  s ← statsOf sessionEndData;
  emit (EvRequest (ReqSailingSummary (task_id <$> selectedTask snap) sessionIdToEnd s));;
  summaryResponse ← fetched answer;
  (if ok summaryResponse then
     summary ← readJson summaryResponse;
     setState (λ st, st <| summaryData :=
       Some (SummaryEnhanced (sum_imageUrl summary) (sum_summaryText summary) s) |>)
   else
     (* Show fallback summary with session data *)
     analysis ← analysisOf sessionEndData;
     setState (λ st, st <| summaryData := Some (SummaryFallbackStats s analysis) |>));;
  (* Step 5: Reset additional session state *)
  setState (λ st, st <| sessionStartTime := None |>).

(** The [try] block of [handleEndVoyage]. *)
Definition endVoyageTry (snap : State) (sessionIdToEnd : string) (env : EndEnv) : M unit :=
  (* Step 1: Call the new session-end function *)
  emit (EvRequest (ReqSessionEnd sessionIdToEnd));;
  response ← fetched (end_sessionEnd env);
  if negb (ok response) then
    throw (mkError ("Session end failed: " +:+ pretty (status response)
                    +:+ " " +:+ statusText response))
  else
    sessionEndData ← readJson response;
    (* Step 2: Trigger Spline animation *)
    triggerSplineSessionAnimation AnimEnd (end_animation env);;
    (* Step 3: Clean up Realtime channel, media streams, and heartbeat *)
    cleanupRealtimeChannel;;
    cleanupMediaStreams snap;;
    stopHeartbeat;;
    endVoyageSummary snap sessionIdToEnd sessionEndData (end_summary env).

(** The [catch] block of [handleEndVoyage].  What its [try] block throws
    comes from [fetch], [response.json()], [new Error] or a property read:
    an [Error] each time, so [error instanceof Error] holds and the
    message is shown. *)
Definition endVoyageCatch (error : JsError) : M unit :=
  setState (λ s, s <| sessionError := Some (err_message error) |>);;
  (* Show error state or fallback summary *)
  setState (λ s, s <| summaryData := Some SummaryUnavailable |>);;
  (* Reset additional session state on error *)
  setState (λ s, s <| sessionStartTime := None |>).

Definition handleEndVoyage (snap : State) (env : EndEnv) : M unit :=
  match truthyId (currentSessionId snap) with
  | None =>
      setState (λ s, s <| sessionError := Some "No active session found" |>)
  | Some sessionIdToEnd =>
      setState (λ s, s <| sessionError := None |>);;
      (* Immediately reset session state to prevent race conditions *)
      setState (λ s, s <| currentSessionId := None |>);;
      setState (λ s, s <| isSessionActive := false |>);;
      setState (λ s, s <| isStartingSession := false |>);;
      (* Hide control panel and show loading state *)
      setState (λ s, s <| showControlPanel := false |>);;
      setState (λ s, s <| showSummaryPanel := true |>);;
      setState (λ s, s <| isLoadingSummary := true |>);;
      try_finally
        (try_catch (endVoyageTry snap sessionIdToEnd env) endVoyageCatch)
        (setState (λ s, s <| isLoadingSummary := false |>))
  end.

(** The [onContinueWorking] handler given to the drift notification. *)
Definition acknowledgeDrift : M unit :=
  setState (λ s, s <| isDriftAcknowledged := true |>).

(** ** Histories of the panel

    Everything modelled that can happen to a panel, one entry per call of
    a function of the component or turn of the event loop, each with the
    snapshot it closes over and the answers it gets. *)
Inductive Action :=
| ActToggleVideo (snap : State) (gum : nat → GumOutcome)
| ActCleanupMediaStreams (snap : State)
| ActSendHeartbeat (snap : State) (sessionId : string) (isActive : bool) (env : HeartbeatEnv)
| ActStartHeartbeat (snap : State) (sessionId : string) (isActive : bool)
| ActStopHeartbeat
| ActContinueWorking (answer : nat → FetchOutcome unit)
| ActEndVoyage (snap : State) (env : EndEnv)
| ActSetupRealtimeChannel (sessionId : string)
| ActSessionEvent
| ActSessionEnded
| ActCleanupRealtimeChannel
| ActAcknowledgeDrift
| ActFireTimer (id : nat) (env : HeartbeatEnv)
| ActAdvance (dt : N).

Definition perform (a : Action) : M unit :=
  match a with
  | ActToggleVideo snap gum => toggleVideo snap gum
  | ActCleanupMediaStreams snap => cleanupMediaStreams snap
  | ActSendHeartbeat snap sid act env => sendHeartbeat snap sid act env
  | ActStartHeartbeat snap sid act => startHeartbeat snap sid act
  | ActStopHeartbeat => stopHeartbeat
  | ActContinueWorking answer => handleContinueWorking answer
  | ActEndVoyage snap env => handleEndVoyage snap env
  | ActSetupRealtimeChannel sid => setupRealtimeChannel sid
  | ActSessionEvent => on_session_event
  | ActSessionEnded => on_session_ended
  | ActCleanupRealtimeChannel => cleanupRealtimeChannel
  | ActAcknowledgeDrift => acknowledgeDrift
  | ActFireTimer id env => fireTimer id env
  | ActAdvance dt => advance dt
  end.

Definition step (w : World) (a : Action) : World := exec (perform a) w.

Definition run (l : list Action) (w : World) : World := foldl step w l.

Definition isContinueWorking (a : Action) : bool :=
  match a with ActContinueWorking _ => true | _ => false end.

(** ** The microphone *)

Definition getAudioTracks (s : MediaStream) : list Track := filter (λ t, isVideo t = false) s.

(** [stream.getAudioTracks()[0].enabled = v], seen through the stream. *)
Fixpoint setFirstAudioEnabled (v : bool) (ts : MediaStream) : MediaStream :=
  match ts with
  | [] => []
  | t :: rest =>
      if isVideo t then t :: setFirstAudioEnabled v rest
      else (t <| enabled := v |>) :: rest
  end.

Definition toggleMic (snap : State) (answer : GumOutcome) : M unit :=
  try_catch
    (match micStream snap with
     | None =>
         (* Request microphone access if not already available *)
         stream ← getUserMedia AudioTrue answer;
         setState (λ s, s <| micStream := Some stream |>);;
         setState (λ s, s <| isMicMuted := false |>)
     | Some ms =>
         (* Toggle mute state *)
         w ← get;
         match getAudioTracks (tracksOf w ms) with
         | audioTrack :: _ =>
             modify (λ w, w <| streams ::= alter (setFirstAudioEnabled (isMicMuted snap)) ms |>);;
             setState (λ s, s <| isMicMuted := negb (isMicMuted snap) |>)
         | [] => mret ()
         end
     end)
    (λ _, setState (λ s, s <| sessionError :=
                               Some "Failed to access microphone. Please check permissions." |>)).

(** ** Unmounting

    The cleanup of the mount effect, [useEffect(() => () => {...}, [])]:
    the effect runs once, after the first render, so the three functions
    it calls are those of the first render.  [cleanupRealtimeChannel] and
    [stopHeartbeat] read refs; [cleanupMediaStreams] reads the stream cells
    of its render, which are the initial ones. *)
Definition unmount : M unit :=
  cleanupRealtimeChannel;;
  cleanupMediaStreams initialState;;
  stopHeartbeat.

(** * The task list of the panel

    The cells [tasks], [selectedTask], [isLoading], [error], [draggedTask]
    and [dragOverIndex] of [JourneyPanel] and the functions that write
    them.  As in the rest of the development a function reads the cells of
    its render (the argument [snap]) and writes the live ones; what
    Supabase answers to a query is an argument.  The queries sent are
    logged in order. *)

Module TaskList.

Inductive Status := Pending | InProgress | Completed | Archived.

(** A row of the table [tasks], as [select('*')] returns it. *)
Record TaskRow := {
  row_id : string;
  row_title : string;
  row_description : option string;        (* [None]: [null] *)
  row_priority : nat;
  row_status : Status;
  row_created_at : string;
  row_updated_at : string;
  row_source_thought_id : option string
}.

Record Task := {
  id : string;
  title : string;
  description : string;
  completed : bool;
  priority : nat;
  status : Status;
  created_at : string;
  updated_at : string;
  source_thought_id : option string
}.

Record Cells := {
  tasks : list Task;
  selectedTask : option Task;
  isLoading : bool;
  error : option string;
  draggedTask : option Task;
  dragOverIndex : option nat
}.

Definition initialCells : Cells :=
  {| tasks := []; selectedTask := None; isLoading := true; error := None;
     draggedTask := None; dragOverIndex := None |}.

(** What is sent to Supabase. *)
Inductive Query :=
| SelectTasks (user_id : string)
    (* [.select('*').eq('user_id', ..)], by priority, then newest first *)
| UpdateTask (taskId : string) (newStatus : Status) (completed_at : option string)
| DeleteTask (taskId : string).

(** A thrown value, as far as the handlers look at it. *)
Record Thrown := { instanceofError : bool; message : string }.

(** [new Error(msg)] *)
Definition newError (msg : string) : Thrown := {| instanceofError := true; message := msg |}.

(** What a query resolves to: [{ data, error }] without or with an
    [error]; or the promise rejects. *)
Inductive Answer (A : Type) :=
| Data (data : A)
| Failed (error : Thrown)
| Rejected (reason : Thrown).
Arguments Data {A} data.
Arguments Failed {A} error.
Arguments Rejected {A} reason.

Record Store := {
  cells : Cells;
  currentUser : option string;            (* [auth.getCurrentUser()?.id] *)
  queries : list Query;
  holes : bool      (* the [tasks] cell holds an [undefined] entry, see [handleDrop] *)
}.

Definition initialStore (user : option string) : Store :=
  {| cells := initialCells; currentUser := user; queries := []; holes := false |}.

Inductive Res (A : Type) :=
| Ok (a : A)
| Throw (e : Thrown).
Arguments Ok {A} a.
Arguments Throw {A} e.

(** State and exceptions, as for the panel. *)
Definition T (A : Type) : Type := Store → Res A * Store.

#[global] Instance T_ret : MRet T := λ A a s, (Ok a, s).
#[global] Instance T_bind : MBind T := λ A B f m s,
  match m s with
  | (Ok a, s') => f a s'
  | (Throw e, s') => (Throw e, s')
  end.

Definition throw {A} (e : Thrown) : T A := λ s, (Throw e, s).
Definition get : T Store := λ s, (Ok s, s).
Definition setCells (f : Cells → Cells) : T unit := λ s, (Ok (), s <| cells ::= f |>).
Definition send (q : Query) : T unit := λ s, (Ok (), s <| queries ::= (λ l, l ++ [q]) |>).

Definition try_catch {A} (m : T A) (h : Thrown → T A) : T A := λ s,
  match m s with
  | (Ok a, s') => (Ok a, s')
  | (Throw e, s') => h e s'
  end.

Definition try_finally {A} (m : T A) (f : T unit) : T A := λ s,
  match m s with
  | (r, s') => match f s' with
               | (Ok _, s'') => (r, s'')
               | (Throw e, s'') => (Throw e, s'')
               end
  end.

Definition exec {A} (m : T A) (s : Store) : Store := (m s).2.
Definition outcome {A} (m : T A) (s : Store) : Res A := (m s).1.

(** [await query]: the [{ data, error }] it resolves to. *)
Definition awaited {A} (answer : Answer A) : T (option A * option Thrown) :=
  match answer with
  | Data data => mret (Some data, None)
  | Failed error => mret (None, Some error)
  | Rejected reason => throw reason
  end.

Definition isCompleted (s : Status) : bool :=
  match s with Completed => true | _ => false end.

(** Transform database tasks to match our interface *)
Definition transform (task : TaskRow) : Task :=
  {| id := row_id task;
     title := row_title task;
     description := match row_description task with
                    | Some d => d            (* [d || ''] is [d], also for [''] *)
                    | None => ""
                    end;
     completed := isCompleted (row_status task);
     priority := row_priority task;
     status := row_status task;
     created_at := row_created_at task;
     updated_at := row_updated_at task;
     source_thought_id := row_source_thought_id task |}.

Definition fetchTasks (answer : Answer (list TaskRow)) : T unit :=
  try_finally
    (try_catch
       (setCells (λ c, c <| isLoading := true |>);;
        setCells (λ c, c <| error := None |>);;
        s ← get;
        match currentUser s with
        | None => throw (newError "User not authenticated")
        | Some uid =>
            send (SelectTasks uid);;
            r ← awaited answer;
            match r with
            | (_, Some tasksError) => throw tasksError
            | (None, None) =>
                throw (newError "Cannot read properties of null (reading 'map')")
            | (Some tasksData, None) =>
                let transformedTasks := map transform tasksData in
                setCells (λ c, c <| tasks := transformedTasks |>);;
                (* Select the first task if available *)
                match transformedTasks with
                | first :: _ => setCells (λ c, c <| selectedTask := Some first |>)
                | [] => mret ()
                end
            end
        end)
       (λ e,
          let errorMessage :=
            if instanceofError e then message e else "Unknown error occurred" in
          setCells (λ c, c <| error := Some errorMessage |>)))
    (setCells (λ c, c <| isLoading := false |>)).

(** [t.id === taskId] *)
Definition hasId (taskId : string) (t : Task) : bool := String.eqb (id t) taskId.

Definition toggleTaskCompletion (snap : Cells) (taskId : string) (now : string)
    (answer : Answer unit) : T unit :=
  try_catch
    (match List.find (hasId taskId) (tasks snap) with
     | None => mret ()
     | Some task =>
         let newStatus := if completed task then Pending else Completed in
         send (UpdateTask taskId newStatus
                 (if isCompleted newStatus then Some now else None));;
         r ← awaited answer;
         match r with
         | (_, Some error) => throw error
         | (_, None) =>
             (* Update local state *)
             setCells (λ c, c <| tasks ::=
               map (λ t, if hasId taskId t
                         then t <| completed := negb (completed t) |>
                                <| status := newStatus |>
                         else t) |>)
         end
     end)
    (λ _, mret ()).

(** [selectedTask?.id === taskId] *)
Definition isSelected (taskId : string) (sel : option Task) : bool :=
  match sel with Some t => hasId taskId t | None => false end.

Definition deleteTask (snap : Cells) (taskId : string) (answer : Answer unit) : T unit :=
  try_catch
    (send (DeleteTask taskId);;
     r ← awaited answer;
     match r with
     | (_, Some error) => mret ()
     | (_, None) =>
         (* Update local state *)
         let updatedTasks := filter (λ task, hasId taskId task = false) (tasks snap) in
         setCells (λ c, c <| tasks := updatedTasks |>);;
         (* If deleted task was selected, select the first remaining task *)
         if isSelected taskId (selectedTask snap)
         then setCells (λ c, c <| selectedTask := head updatedTasks |>)
         else mret ()
     end)
    (λ _, mret ()).

(** ** Drag and drop *)

Definition handleDragStart (task : Task) : T unit :=
  setCells (λ c, c <| draggedTask := Some task |>).

Definition handleDragOver (index : nat) : T unit :=
  setCells (λ c, c <| dragOverIndex := Some index |>).

Definition handleDragLeave : T unit :=
  setCells (λ c, c <| dragOverIndex := None |>).

Definition handleDragEnd : T unit :=
  setCells (λ c, c <| draggedTask := None |>);;
  setCells (λ c, c <| dragOverIndex := None |>).

(** [l.findIndex(p)], [-1] when there is none. *)
Fixpoint findIndex {A} (p : A → bool) (l : list A) : Z :=
  match l with
  | [] => -1
  | x :: rest =>
      if p x then 0
      else match findIndex p rest with
           | Z.neg _ => -1
           | i => i + 1
           end
  end%Z.

(** Where [splice(start, ..)] starts in a list of length [len]. *)
Definition actualStart (start : Z) (len : nat) : nat :=
  if (start <? 0)%Z then Z.to_nat (Z.max (Z.of_nat len + start) 0)
  else Nat.min (Z.to_nat start) len.

(** [const [x] = l.splice(start, 1)]: the element taken out, [None] for
    [undefined], and what is left of [l]. *)
Definition spliceOut {A} (start : Z) (l : list A) : option A * list A :=
  let i := actualStart start (length l) in
  (l !! i, delete i l).

(** [l.splice(start, 0, x)] *)
Definition spliceIn {A} (start : Z) (x : A) (l : list A) : list A :=
  let i := actualStart start (length l) in
  take i l ++ x :: drop i l.

(** An [undefined] entry gets into the [tasks] cell. *)
Definition spliceUndefined : T unit := λ s, (Ok (), s <| holes := true |>).

Definition handleDrop (snap : Cells) (dropIndex : nat) : T unit :=
  match draggedTask snap with
  | None => mret ()
  | Some dragged =>
      let dragIndex := findIndex (hasId (id dragged)) (tasks snap) in
      if (dragIndex =? Z.of_nat dropIndex)%Z then mret ()
      else
        (* Reorder tasks *)
        match spliceOut dragIndex (tasks snap) with
        | (Some draggedItem, newTasks) =>
            setCells (λ c, c <| tasks := spliceIn (Z.of_nat dropIndex) draggedItem newTasks |>)
        | (None, newTasks) =>
            (* [undefined] is spliced in *)
            setCells (λ c, c <| tasks := newTasks |>);;
            spliceUndefined
        end;;
        setCells (λ c, c <| draggedTask := None |>);;
        setCells (λ c, c <| dragOverIndex := None |>)
  end.

(** The [onClick] of a task of the list. *)
Definition selectTask (task : Task) : T unit :=
  setCells (λ c, c <| selectedTask := Some task |>).

(** ** Histories of the list

    What a user does with the list, one entry per gesture, each handled by
    the closures of the render that shows the list as it is.  The tasks
    and the drop zones are those the render shows: a gesture on a task
    names its index, and there is something to drop on only when the list
    is not empty. *)
Inductive Gesture :=
| Fetch (answer : Answer (list TaskRow))      (* the panel opens, or [Retry] *)
| Select (index : nat)
| Toggle (index : nat) (now : string) (answer : Answer unit)
| Delete (index : nat) (answer : Answer unit)
| DragStart (index : nat)
| DragOver (index : nat)
| DragLeave
| Drop (index : nat)
| DragEnd.

(** A handler of the task shown at [index]. *)
Definition onTask (index : nat) (handler : Cells → Task → T unit) : T unit :=
  s ← get;
  match tasks (cells s) !! index with
  | Some task => handler (cells s) task
  | None => mret ()
  end.

Definition gesture (g : Gesture) : T unit :=
  match g with
  | Fetch answer => fetchTasks answer
  | Select index => onTask index (λ _ task, selectTask task)
  | Toggle index now answer =>
      onTask index (λ snap task, toggleTaskCompletion snap (id task) now answer)
  | Delete index answer => onTask index (λ snap task, deleteTask snap (id task) answer)
  | DragStart index => onTask index (λ _ task, handleDragStart task)
  | DragOver index => handleDragOver index
  | DragLeave => handleDragLeave
  | Drop index =>
      s ← get;
      match tasks (cells s) with
      | [] => mret ()
      | _ :: _ => handleDrop (cells s) index
      end
  | DragEnd => handleDragEnd
  end.

Definition gestures (l : list Gesture) (s : Store) : Store :=
  foldl (λ s g, exec (gesture g) s) s l.

End TaskList.

(** * Around the session: permissions, screen sharing and the start

    The functions of the component that start a session.  They call
    outside what the trace of [World] has no event for, install a listener
    and schedule timeouts of their own; a [Panel] is a [World] with these
    and with the two cells of the permission panel. *)

(** Calls to the outside besides those of [Event], in order. *)
Inductive Call :=
| CallStartSession (taskId : string)            (* [auth.startSession(selectedTask.id)] *)
| CallGetDisplayMedia                           (* [getDisplayMedia({ video: true, audio: true })] *)
| CallStartPassiveListening (sessionId : string)
| CallOnClose.                                  (* the [onClose] prop, when given *)

(** What a timeout other than the heartbeat's and the recovery's runs. *)
Inductive Deferred :=
| DeferPassiveListening (sessionId : string)    (* [() => startPassiveListening(sessionId)] *)
| DeferStartSailingSession (snap : State).      (* [() => startSailingSession()] *)

Record Panel := {
  core : World;
  hasPermissions : bool;
  showPermissionPanel : bool;
  calls : list Call;
  endedListeners : list StreamId;   (* streams whose first video track has the
                                       [ended] listener of [toggleScreenShare] *)
  deferred : list (N * Deferred)    (* due time and callback *)
}.

Definition initialPanel (user : option string) : Panel :=
  {| core := initialWorld user; hasPermissions := false; showPermissionPanel := false;
     calls := []; endedListeners := []; deferred := [] |}.

(** What a [catch] of this part can be handed.  The code of the [World]
    throws [Error]s; what [auth.startSession] rejects with is decided
    outside the component, and need not be one. *)
Inductive Raised :=
| RaisedError (e : JsError)      (* [error instanceof Error] *)
| RaisedOther.                   (* any other value *)

Inductive Outcome (A : Type) :=
| Returned (a : A)
| Raises (error : Raised).
Arguments Returned {A} a.
Arguments Raises {A} error.

Definition fromRes {A} (r : Res A) : Outcome A :=
  match r with
  | Ok a => Returned a
  | Throw e => Raises (RaisedError e)
  end.

Definition P (A : Type) : Type := Panel → Outcome A * Panel.

#[global] Instance P_ret : MRet P := λ A a p, (Returned a, p).
#[global] Instance P_bind : MBind P := λ A B f m p,
  match m p with
  | (Returned a, p') => f a p'
  | (Raises error, p') => (Raises error, p')
  end.

(** Code of the component that only needs the [World]. *)
Definition lift {A} (m : M A) : P A := λ p,
  match m (core p) with
  | (r, w') => (fromRes r, p <| core := w' |>)
  end.

Definition raise {A} (error : Raised) : P A := λ p, (Raises error, p).

Definition panel_try_catch {A} (m : P A) (h : Raised → P A) : P A := λ p,
  match m p with
  | (Returned a, p') => (Returned a, p')
  | (Raises error, p') => h error p'
  end.

Definition panel_try_finally {A} (m : P A) (f : P unit) : P A := λ p,
  match m p with
  | (r, p') => match f p' with
               | (Returned _, p'') => (r, p'')
               | (Raises error, p'') => (Raises error, p'')
               end
  end.

Definition panel_exec {A} (m : P A) (p : Panel) : Panel := (m p).2.
Definition panel_outcome {A} (m : P A) (p : Panel) : Outcome A := (m p).1.

Definition setHasPermissions (b : bool) : P unit := λ p,
  (Returned (), p <| hasPermissions := b |>).

Definition setShowPermissionPanel (b : bool) : P unit := λ p,
  (Returned (), p <| showPermissionPanel := b |>).

Definition call (c : Call) : P unit := λ p, (Returned (), p <| calls ::= (λ l, l ++ [c]) |>).

(** [setTimeout(d, ms)] for the callbacks of [Deferred]. *)
Definition defer (d : Deferred) (ms : N) : P unit := λ p,
  (Returned (), p <| deferred ::= (λ l, l ++ [((now (core p) + ms)%N, d)]) |>).

(** ** Screen sharing *)

(** [toggleScreenShare], first branch: stop screen sharing. *)
Definition stopScreenShare (ss : StreamId) : M unit :=
  stopTracks ss;;
  setState (λ s, s <| screenStream := None |>);;
  modify (λ w, w <| screenStreamRef := None |>);;
  setState (λ s, s <| isScreenSharing := false |>);;
  modify (λ w, w <| screenRef ::= setSrcObject None |>).

(** The listener of [ended]: the user stopped sharing via the browser. *)
Definition onScreenEnded : M unit :=
  setState (λ s, s <| screenStream := None |>);;
  modify (λ w, w <| screenStreamRef := None |>);;
  setState (λ s, s <| isScreenSharing := false |>);;
  modify (λ w, w <| screenRef ::= setSrcObject None |>).

(** [stream.getVideoTracks()[0].addEventListener('ended', ..)] *)
Definition addEndedListener (stream : StreamId) : P unit := λ p,
  match getVideoTracks (tracksOf (core p) stream) with
  | _ :: _ => (Returned (), p <| endedListeners ::= (λ l, l ++ [stream]) |>)
  | [] => raise (RaisedError (typeError
                   "Cannot read properties of undefined (reading 'addEventListener')")) p
  end.

(** The four writes that put a stream in the screen places, the same in
    [toggleScreenShare] and in [handlePermissionsGranted]. *)
Definition showScreen (stream : StreamId) : M unit :=
  setState (λ s, s <| screenStream := Some stream |>);;
  modify (λ w, w <| screenStreamRef := Some stream |>);;
  setState (λ s, s <| isScreenSharing := true |>);;
  modify (λ w, w <| screenRef ::= setSrcObject (Some stream) |>).

(** [toggleScreenShare], second branch: start screen sharing. *)
Definition startScreenShare (answer : GumOutcome) : P unit :=
  call CallGetDisplayMedia;;
  stream ← lift match answer with
                | GumStream ts => newStream ts
                | GumReject e => throw e
                end;
  lift (showScreen stream);;
  (* Handle when user stops sharing via browser UI *)
  addEndedListener stream.

Definition toggleScreenShare (snap : State) (answer : GumOutcome) : P unit :=
  panel_try_catch
    (match isScreenSharing snap, screenStream snap with
     | true, Some ss => lift (stopScreenShare ss)
     | _, _ => startScreenShare answer
     end)
    (λ _, lift (setState (λ s, s <| sessionError :=
                    Some "Failed to start screen sharing. Please check permissions." |>))).

(** The user stops sharing the stream via the browser: its tracks end, and
    the listeners of [ended] run. *)
Definition browserStopsSharing (stream : StreamId) : P unit := λ p,
  (if bool_decide (stream ∈ endedListeners p)
   then lift (stopTracks stream;; onScreenEnded)
   else lift (stopTracks stream)) p.

(** ** The permission panel *)

(** What [navigator.permissions.query] answers. *)
Inductive PermissionAnswer :=
| PermissionState (granted : bool)
| PermissionQueryFails.

Definition isGranted (a : PermissionAnswer) : bool :=
  match a with PermissionState g => g | PermissionQueryFails => false end.

Definition checkInitialPermissions (microphone camera : PermissionAnswer) : P unit :=
  let hasMic := isGranted microphone in
  let hasCamera := isGranted camera in
  (* Only set hasPermissions to true if we have microphone (required) *)
  setHasPermissions hasMic.

(** [handlePermissionsGranted]; the stream of the permission panel, when
    it hands one over, is in the store already. *)
Definition handlePermissionsGranted (snap : State) (hasEssentialPermissions : bool)
    (incomingScreenStream : option StreamId) : P unit :=
  setHasPermissions hasEssentialPermissions;;
  match incomingScreenStream, screenStream snap with
  | Some incoming, None =>
      (* reuse it immediately *)
      lift (showScreen incoming)
  | _, _ => mret ()
  end;;
  if hasEssentialPermissions
  then lift (setState (λ s, s <| sessionError := None |>))
  else mret ().

Definition handleStartJourney (snap : State) : P unit :=
  match selectedTask snap with
  | None => mret ()
  | Some _ => setShowPermissionPanel true
  end.

(** The [onClose] given to the permission panel, as created by a render
    with the cells [snap] and [hasPermissions]. *)
Definition permissionPanelClosed (snap : State) (hasPermissionsSnap : bool) : P unit :=
  setShowPermissionPanel false;;
  (* Auto-start session if essential permissions are granted *)
  if hasPermissionsSnap && negb (isSessionActive snap) && negb (isStartingSession snap)
  then defer (DeferStartSailingSession snap) 500
  else mret ().

(** ** Starting a session *)

(** What [auth.startSession] answers: the id of the session, or a
    rejection with some value. *)
Inductive SessionStart :=
| SessionStarted (sessionId : string)
| SessionRejected (error : Raised).

(** What the outside answers during [startSailingSession]. *)
Record StartEnv := {
  start_session : SessionStart;
  start_microphone : GumOutcome;
  start_camera : nat → GumOutcome;
  start_screen : GumOutcome;
  start_animation : FetchOutcome unit
}.

(** Step 3: Initialize microphone stream for session *)
Definition initMicrophone (env : StartEnv) : P unit :=
  panel_try_catch
    (lift (microphoneStream ← getUserMedia AudioTrue (start_microphone env);
           setState (λ s, s <| micStream := Some microphoneStream |>);;
           setState (λ s, s <| isMicMuted := false |>)))
    (* Continue with session even if microphone fails *)
    (λ _, mret ()).

(** Step 3.5: Initialize camera stream for heartbeat monitoring (only if
    not already on) *)
Definition initCamera (snap : State) (env : StartEnv) : P unit :=
  if negb (isVideoOn snap) && isNull (videoStream snap) then
    panel_try_catch
      (lift (toggleVideo snap (start_camera env)))
      (* Clear any error state since camera is optional *)
      (λ _, lift (setState (λ s, s <| sessionError := None |>)))
  else mret ().

(** Step 4: Initialize screen sharing if granted in PermissionPanel *)
Definition initScreenShare (snap : State) (env : StartEnv) : P unit :=
  if negb (isNull (screenStream snap)) && negb (isScreenSharing snap) then
    panel_try_catch (toggleScreenShare snap (start_screen env)) (λ _, mret ())
  else mret ().

(** Step 5: Update session state *)
Definition updateSessionState (sessionId : string) : M unit :=
  setState (λ s, s <| currentSessionId := Some sessionId |>);;
  setState (λ s, s <| isSessionActive := true |>);;
  w ← get;
  setState (λ s, s <| sessionStartTime := Some (now w) |>).

(** Steps 2 to 8 of [startSailingSession]. *)
Definition sessionSteps (snap : State) (env : StartEnv) (sessionId : string) : P unit :=
  (* Step 2: Setup Realtime channel *)
  lift (setupRealtimeChannel sessionId);;
  initMicrophone env;;
  initCamera snap env;;
  initScreenShare snap env;;
  (* Step 4: Trigger Spline animation *)
  lift (triggerSplineSessionAnimation AnimStart (start_animation env));;
  lift (updateSessionState sessionId);;
  (* Step 6: Start heartbeat monitoring for distraction detection *)
  lift (startHeartbeat snap sessionId true);;
  (* Step 7: Start passive listening, after 2 seconds *)
  defer (DeferPassiveListening sessionId) 2000;;
  (* Step 8: Show control panel and hide journey panel *)
  lift (setState (λ s, s <| showControlPanel := true |>));;
  call CallOnClose.

(** The guard of [startSailingSession] lets the call through. *)
Definition mayStart (snap : State) : bool :=
  negb (isStartingSession snap || isSessionActive snap
        || negb (isNull (truthyId (currentSessionId snap)))).

Definition startSailingSession (snap : State) (env : StartEnv) : P unit :=
  match selectedTask snap with
  | None => mret ()
  | Some task =>
      (* Guard: Prevent multiple calls if already starting or active *)
      if mayStart snap then
        lift (setState (λ s, s <| isStartingSession := true |>);;
              setState (λ s, s <| sessionError := None |>));;
        panel_try_finally
          (panel_try_catch
             ((* Step 1: Start sailing session in database *)
              call (CallStartSession (task_id task));;
              sessionId ← match start_session env with
                          | SessionStarted sessionId => mret sessionId
                          | SessionRejected error => raise error
                          end;
              sessionSteps snap env sessionId)
             (λ error,
                lift (setState (λ s, s <| sessionError :=
                                  Some match error with
                                       | RaisedError e => err_message e
                                       | RaisedOther => "Failed to start sailing session"
                                       end |>);;
                      setState (λ s, s <| isSessionActive := false |>);;
                      setState (λ s, s <| currentSessionId := None |>))))
          (lift (setState (λ s, s <| isStartingSession := false |>)))
      else mret ()
  end.

Definition handleCloseSummary : P unit :=
  lift (setState (λ s, s <| showSummaryPanel := false |>);;
        setState (λ s, s <| summaryData := None |>);;
        (* Reset any remaining session state when closing summary *)
        setState (λ s, s <| sessionStartTime := None |>));;
  call CallOnClose.

(** A deferred callback runs, if it is due; it is a timeout, and gone
    afterwards. *)
Definition fireDeferred (i : nat) (env : StartEnv) : P unit := λ p,
  match deferred p !! i with
  | Some (due, d) =>
      if (due <=? now (core p))%N then
        match d with
        | DeferPassiveListening sessionId => call (CallStartPassiveListening sessionId)
        | DeferStartSailingSession snap => startSailingSession snap env
        end (p <| deferred ::= delete i |>)
      else (Returned (), p)
  | None => (Returned (), p)
  end.

(** ** Histories of the panel, with the session start

    The actions of [Action], and those of this part. *)
Inductive PanelAction :=
| ActCore (a : Action)
| ActToggleMic (snap : State) (answer : GumOutcome)
| ActUnmount
| ActToggleScreenShare (snap : State) (answer : GumOutcome)
| ActBrowserStopsSharing (stream : StreamId)
| ActCheckInitialPermissions (microphone camera : PermissionAnswer)
| ActPermissionsGranted (snap : State) (hasEssentialPermissions : bool)
    (incoming : option (list Track))
| ActStartJourney (snap : State)
| ActPermissionPanelClosed (snap : State) (hasPermissionsSnap : bool)
| ActStartSailingSession (snap : State) (env : StartEnv)
| ActCloseSummary
| ActFireDeferred (i : nat) (env : StartEnv).

Definition panel_perform (a : PanelAction) : P unit :=
  match a with
  | ActCore a => lift (perform a)
  | ActToggleMic snap answer => lift (toggleMic snap answer)
  | ActUnmount => lift unmount
  | ActToggleScreenShare snap answer => toggleScreenShare snap answer
  | ActBrowserStopsSharing stream => browserStopsSharing stream
  | ActCheckInitialPermissions microphone camera => checkInitialPermissions microphone camera
  | ActPermissionsGranted snap b incoming =>
      match incoming with
      | Some ts =>
          (* the permission panel got the stream from [getDisplayMedia] *)
          stream ← lift (newStream ts);
          handlePermissionsGranted snap b (Some stream)
      | None => handlePermissionsGranted snap b None
      end
  | ActStartJourney snap => handleStartJourney snap
  | ActPermissionPanelClosed snap b => permissionPanelClosed snap b
  | ActStartSailingSession snap env => startSailingSession snap env
  | ActCloseSummary => handleCloseSummary
  | ActFireDeferred i env => fireDeferred i env
  end.

Definition panel_step (p : Panel) (a : PanelAction) : Panel := panel_exec (panel_perform a) p.

Definition panel_run (l : list PanelAction) (p : Panel) : Panel := foldl panel_step p l.

(** * The Spline webhook (edge function [spline-webhook])

    The request handler given to [Deno.serve].  JSON values are a data
    type; [undefined] is [None] of [option Json].  What the environment
    answers (the two environment variables, [createClient] of the
    supabase library, the insert into [frontend_events], [JSON.parse] on
    the rich-text string and the clock) is the record [Env]. *)

Module SplineWebhook.

#[local] Set Warnings "-register-all".

Inductive Json :=
| JNull
| JBool (b : bool)
| JNum (q : Q)
| JStr (s : string)
| JArr (items : list Json)
| JObj (members : list (string * Json)).

(** A value used as a condition. *)
Definition truthy (v : option Json) : bool :=
  match v with
  | None | Some JNull => false
  | Some (JBool b) => b
  | Some (JNum q) => negb (Qeq_bool q 0)
  | Some (JStr s) => negb (String.eqb s "")
  | Some (JArr _) | Some (JObj _) => true
  end.

(** The member [k] of an object, in the order of the text: as in
    [JSON.parse], the last one wins. *)
Fixpoint member (k : string) (ms : list (string * Json)) : option Json :=
  match ms with
  | [] => None
  | (k', v) :: rest =>
      match member k rest with
      | Some v' => Some v'
      | None => if String.eqb k k' then Some v else None
      end
  end.

(** [v.k] for the names the handler reads ([children], [text], [user_id],
    [number], [action]): only objects have them. *)
Definition prop (k : string) (v : Json) : option Json :=
  match v with
  | JObj ms => member k ms
  | _ => None
  end.

(** [v[0]] *)
Definition first (v : Json) : option Json :=
  match v with
  | JArr items => head items
  | JStr (String c _) => Some (JStr (String c ""))
  | JObj ms => member "0" ms
  | _ => None
  end.

(** [o?.f]: [undefined] when [o] is [null] or [undefined]. *)
Definition chain (o : option Json) (f : Json → option Json) : option Json :=
  match o with
  | None | Some JNull => None
  | Some v => f v
  end.

(** [rawPayload[0]?.children?.[0]?.text] for an array [rawPayload]. *)
Definition richText (items : list Json) : option Json :=
  chain (chain (chain (head items) (prop "children")) first) (prop "text").

Inductive Body :=
| BodyJson (v : Json)
| BodyInvalid (message : string).     (* [req.json()] rejects *)

Record Request := { method : string; body : Body }.

Inductive InsertAnswer :=
| Inserted
| InsertError (message : string).

(** What [createClient(supabaseUrl, supabaseServiceKey)] does: it hands
    over the client, or throws (a URL that does not parse). *)
Inductive ClientAnswer :=
| Client
| ClientThrows (message : string).

Record Env := {
  SUPABASE_URL : option string;
  SUPABASE_SERVICE_ROLE_KEY : option string;
  createClient : string → string → ClientAnswer;
  JSON_parse : Json → option Json;      (* [None]: it throws *)
  timestamp : string;                   (* [new Date().toISOString()] *)
  insert : InsertAnswer
}.

(** A row given to [supabase.from('frontend_events').insert]. *)
Record EventRow := {
  event_name : string;
  event_data : Json;
  user_id : option Json                 (* [None]: [null] *)
}.

Record Response := {
  status : nat;
  headers : list (string * string);
  content : option Json                 (* the body; [None]: no body *)
}.

Definition corsHeaders : list (string * string) :=
  [ ("Access-Control-Allow-Origin", "*");
    ("Access-Control-Allow-Headers", "authorization, x-client-info, apikey, content-type");
    ("Access-Control-Allow-Methods", "POST, OPTIONS") ].

Definition jsonHeaders : list (string * string) :=
  corsHeaders ++ [ ("Content-Type", "application/json") ].

(** [!s] for an environment variable. *)
Definition unset (s : option string) : bool :=
  match s with
  | Some x => String.eqb x ""
  | None => true
  end.

(** [{ number: 1 }], the default payload. *)
Definition defaultPayload : Json := JObj [ ("number", JNum 1) ].

(** The payload the handler goes on with. *)
Definition extractPayload (env : Env) (rawPayload : Json) : Json :=
  match rawPayload with
  | JArr items =>
      if truthy (richText items) then
        (* rich text: the text is parsed; what cannot be parsed is the default *)
        match richText items with
        | Some jsonString => default defaultPayload (JSON_parse env jsonString)
        | None => defaultPayload
        end
      else JArr items                   (* Normal JSON format *)
  | JObj ms => JObj ms                  (* Normal JSON format *)
  | _ => defaultPayload                 (* Unknown payload format *)
  end.

Definition isNumber (n : Q) (v : option Json) : bool :=
  match v with Some (JNum q) => Qeq_bool q n | _ => false end.

Definition isString (s : string) (v : option Json) : bool :=
  match v with Some (JStr x) => String.eqb x s | _ => false end.

Record Decision := { eventName : string; modalType : string; message : string }.

(** Which modal to show. *)
Definition decide_modal (payload : Json) : Decision :=
  if isNumber 1 (prop "number" payload) || isString "goals" (prop "action" payload) then
    {| eventName := "show_goals_modal"; modalType := "goals";
       message := "是时候设定你的人生目标了。" |}
  else if isNumber 2 (prop "number" payload) || isString "welcome" (prop "action" payload) then
    {| eventName := "show_welcome_modal"; modalType := "welcome";
       message := "欢迎来到这个世界！" |}
  else
    {| eventName := "show_modal_default"; modalType := "goals";
       message := "人生目标设定" |}.

Definition eventRow (env : Env) (payload : Json) (uid : option Json) : EventRow :=
  let d := decide_modal payload in
  {| event_name := eventName d;
     event_data := JObj [ ("message", JStr (message d));
                          ("modalType", JStr (modalType d));
                          ("timestamp", JStr (timestamp env));
                          ("source", JStr "spline-webhook");
                          ("originalPayload", payload) ];
     user_id := uid |}.

Definition internalError (details : string) : Response :=
  {| status := 500; headers := jsonHeaders;
     content := Some (JObj [ ("success", JBool false);
                             ("error", JStr "Internal Server Error");
                             ("details", JStr details) ]) |}.

(** The handler: the response, and the rows it gave to [insert]. *)
Definition handler (env : Env) (req : Request) : Response * list EventRow :=
  if String.eqb (method req) "OPTIONS" then
    (* Handle CORS preflight requests *)
    ({| status := 200; headers := corsHeaders; content := None |}, [])
  else if unset (SUPABASE_URL env) || unset (SUPABASE_SERVICE_ROLE_KEY env) then
    (internalError "Supabase environment variables are not set!", [])
  else
    match createClient env (default "" (SUPABASE_URL env))
                           (default "" (SUPABASE_SERVICE_ROLE_KEY env)) with
    | ClientThrows msg => (internalError msg, [])
    | Client =>
        match body req with
        | BodyInvalid msg => (internalError msg, [])
        | BodyJson rawPayload =>
            match extractPayload env rawPayload with
            | JNull =>
                (* [payload.user_id] on [null] *)
                (internalError "Cannot read properties of null (reading 'user_id')", [])
            | payload =>
                let uid := if truthy (prop "user_id" payload)
                           then prop "user_id" payload else None in
                let row := eventRow env payload uid in
                let d := decide_modal payload in
                match insert env with
                | InsertError msg =>
                    ({| status := 500; headers := jsonHeaders;
                        content := Some (JObj [ ("success", JBool false);
                                                ("error", JStr msg) ]) |}, [row])
                | Inserted =>
                    ({| status := 200; headers := jsonHeaders;
                        content :=
                          Some (JObj [ ("success", JBool true);
                                       ("message",
                                        JStr "Event triggered successfully in the frontend.");
                                       ("triggeredEvent",
                                        JObj [ ("eventName", JStr (eventName d));
                                               ("modalType", JStr (modalType d)) ]) ]) |},
                     [row])
                end
            end
        end
    end.

End SplineWebhook.

(** * Vocabulary of the properties *)

(** ** Reasoning about computations *)

(** [m] keeps [P]: from a world where [P] holds, [m] ends, normally or by
    an exception, in a world where [P] holds. *)
Definition preserves {A} (P : World → Prop) (m : M A) : Prop :=
  ∀ w, P w → P (exec m w).

(** From [P] to [Q], whether [m] returns or throws. *)
Definition establishes {A} (P : World → Prop) (m : M A) (Q : World → Prop) : Prop :=
  ∀ w, P w → Q (exec m w).

(** ** Drift and recovery *)

(** The panel is in the drifting state. *)
Definition drifting (w : World) : Prop := isDrifting (st w) = true.

(** The requests of one scene change for user [uid]: one per attempt, a
    second apart, until one is answered with success or the retries are
    used up. *)
Fixpoint splineDriftRequests (answer : nat → FetchOutcome unit) (uid : string)
    (isDriftingScene : bool) (retries : nat) : list Event :=
  EvRequest (if isDriftingScene
             then ReqJourneyWebhook uid "https://hooks.spline.design/6wyPobVwpQk" "numbaer3"
             else ReqJourneyWebhook uid "https://hooks.spline.design/xyN_bGAd8LY" "numbaer4")
  :: match answer retries with
     | FetchResponds {| ok := true |} => []
     | _ =>
         match retries with
         | S r => match r with
                  | S _ => EvSleep 1000 :: splineDriftRequests answer uid isDriftingScene r
                  | O => []
                  end
         | O => []
         end
     end.

Definition sceneChange (answer : nat → FetchOutcome unit) (isDriftingScene : bool)
    (retries : nat) (w : World) : list Event :=
  match currentUser w with
  | Some uid => splineDriftRequests answer uid isDriftingScene retries
  | None => []
  end.

(** Entering drift, as [sendHeartbeat] writes it. *)
Definition enterDrift (reason : option string) (s : State) : State :=
  s <| isDrifting := true |>
    <| driftReason := orDefault reason "Focus has drifted from the task" |>
    <| isDriftAcknowledged := false |>.

(** What a capture hands to the heartbeat. *)
Definition captured (m : M (option Blob)) (w : World) : option Blob :=
  match outcome m w with Ok b => b | Throw _ => None end.

(** A heartbeat that gets through: the session arguments are valid, a
    frame was captured, the frames could be encoded and the backend
    answered with [data] and no error. *)
Record delivered (sid : string) (act : bool) (env : HeartbeatEnv) (w : World)
    (data : HeartbeatData) : Prop := {
  dl_session : sid ≠ "";
  dl_active : act = true;
  dl_frame : captured (captureCameraFrame (hb_camera env)) w ≠ None
             ∨ captured (captureScreenFrame (hb_screen env)) w ≠ None;
  dl_encoded : ∀ b, hb_readAsDataURL env b ≠ None;
  dl_answer : hb_invoke env = InvokeResult (Some data) None
}.

Definition timers_fresh (w : World) : Prop :=
  Forall (λ t, timer_id t < next_timer w) (timers w).

(** The timer that [handleContinueWorking] leaves behind. *)
Definition rearmTimer (w : World) : Timer :=
  {| timer_id := next_timer w; recurring := None;
     due := (now w + 60000)%N; callback := CbRearmAcknowledgment |}.

(** The world after [handleContinueWorking]. *)
Definition recovered (answer : nat → FetchOutcome unit) (w : World) : World :=
  (say (sceneChange answer false 3 w)
       (w <| st ::= (λ s, s <| isDriftAcknowledged := true |> <| isDrifting := false |>) |>))
    <| timers ::= (λ l, l ++ [rearmTimer w]) |>
    <| next_timer := S (next_timer w) |>.

(** ** Frame capture *)

(** Some step of the capture fails: [video.play()] rejects, the canvas has
    no 2d context, or [drawImage] throws. *)
Definition captureFails (env : CaptureEnv) : bool :=
  negb (isNull (cap_play env)) || negb (cap_context2d env) || negb (isNull (cap_drawImage env)).

(** ** Camera acquisition *)

(** The four tiers of the specification, from high to minimal, as the
    constraints handed to [getUserMedia]. *)
Definition tierHigh : Constraints :=
  VideoSized {| ideal := 1280; max := 1920 |} {| ideal := 720; max := 1080 |}
             (Some {| ideal := 30; max := 60 |}).

Definition tierMedium : Constraints :=
  VideoSized {| ideal := 640; max := 1280 |} {| ideal := 480; max := 720 |}
             (Some {| ideal := 15; max := 30 |}).

Definition tierBasic : Constraints :=
  VideoSized {| ideal := 320; max := 640 |} {| ideal := 240; max := 480 |} None.

Definition tierMinimal : Constraints := VideoTrue.

(** Between [w] and [w'] the camera was asked for the first [n] of the
    four tiers, in this order, and for nothing else. *)
Definition askedTiers (n : nat) (w w' : World) : Prop :=
  filter (λ e, isDeviceRequest e = true) (trace w')
  = filter (λ e, isDeviceRequest e = true) (trace w)
    ++ (EvGetUserMedia <$> take n [tierHigh; tierMedium; tierBasic; tierMinimal]).

(** An attempt fails, and not for lack of permission. *)
Definition failsOtherwise (o : GumOutcome) : Prop :=
  ∃ e, o = GumReject e
       ∧ err_name e ≠ "NotAllowedError" ∧ err_name e ≠ "PermissionDeniedError".

(** The tiers the loop goes through: in order, up to and including the
    first attempt that succeeds or is refused for lack of permission. *)
Fixpoint tiersTried (gum : nat → GumOutcome) (i : nat) (cs : list Constraints)
  : list Constraints :=
  match cs with
  | [] => []
  | c :: rest =>
      c :: match gum i with
           | GumStream _ => []
           | GumReject e => if isPermissionError e then [] else tiersTried gum (S i) rest
           end
  end.

(** Everything the loop does to the outside. *)
Fixpoint loopEvents (gum : nat → GumOutcome) (i : nat) (cs : list Constraints) : list Event :=
  match cs with
  | [] => []
  | c :: rest =>
      (if (0 <? i)%nat then [EvSleep 200] else [])
      ++ EvGetUserMedia c
      :: match gum i with
         | GumStream _ => []
         | GumReject e => if isPermissionError e then [] else loopEvents gum (S i) rest
         end
  end.

(** How the loop ends: with the tracks of the stream it got, with no
    stream, or by throwing the permission error on. *)
Fixpoint loopEnd (gum : nat → GumOutcome) (i : nat) (cs : list Constraints)
    (lastError : option JsError) : Res (option (list Track) * option JsError) :=
  match cs with
  | [] => Ok (None, lastError)
  | c :: rest =>
      match gum i with
      | GumStream ts => Ok (Some ts, lastError)
      | GumReject e =>
          if isPermissionError e then Throw e else loopEnd gum (S i) rest (Some e)
      end
  end.

Definition addStream (ts : list Track) (w : World) : World :=
  w <| streams ::= insert (next_stream w) ts |> <| next_stream := S (next_stream w) |>.

(** An attempt at which the loop stops. *)
Definition stops (o : GumOutcome) : bool :=
  match o with
  | GumStream _ => true
  | GumReject e => isPermissionError e
  end.

(** The call turns the camera off. *)
Definition turnsOff (snap : State) : bool :=
  isVideoOn snap && negb (isNull (videoStream snap)).

(** The call is stopped by the guard against duplicate requests. *)
Definition guarded (snap : State) (w : World) : bool :=
  match videoStream snap with
  | Some vs => active (tracksOf w vs)
  | None => false
  end.

(** The world when the acquisition loop is entered. *)
Definition prepared (snap : State) (w : World) : World :=
  say [EvSleep 100]
      match videoStream snap with
      | Some vs => w <| streams ::= alter (map (λ t, if isVideo t then stop t else t)) vs |>
      | None => w
      end.

(** The liveness check on the tracks of the stream that was obtained. *)
Definition firstVideoLive (ts : list Track) : bool :=
  match getVideoTracks ts with
  | videoTrack :: _ => isLive videoTrack
  | [] => false
  end.

(** The successful end of [toggleVideo]: the stream is installed. *)
Definition installed (stream : StreamId) (w : World) : World :=
  w <| st ::= (λ s, s <| videoStream := Some stream |>) |>
    <| videoStreamRef := Some stream |>
    <| st ::= (λ s, s <| isVideoOn := true |>) |>
    <| videoRef ::= setSrcObject (Some stream) |>.

(** The world in which [toggleVideoCatch] ends. *)
Definition surfaced (err : JsError) (w : World) : World :=
  w <| st ::= (λ s, s <| sessionError := Some (cameraErrorMessage err) |>) |>
    <| st ::= (λ s, s <| isVideoOn := false |>) |>
    <| st ::= (λ s, s <| videoStream := None |>) |>
    <| videoStreamRef := None |>
    <| videoRef ::= setSrcObject None |>.

(** The world after a call of [toggleVideo] that goes for the camera. *)
Definition acquired (snap : State) (gum : nat → GumOutcome) (w : World) : World :=
  let w0 := prepared snap w in
  let evs := loopEvents gum 0 constraintSets in
  match loopEnd gum 0 constraintSets None with
  | Throw e => surfaced e (say evs w0)
  | Ok (None, lastError) =>
      surfaced (default (mkError "Failed to start camera with all constraint sets") lastError)
               (say evs w0)
  | Ok (Some ts, _) =>
      let w1 := addStream ts (say evs w0) in
      if firstVideoLive ts
      then installed (next_stream w) w1
      else surfaced (mkError "Camera stream is not live")
                    (w1 <| streams ::= alter (map stop) (next_stream w) |>)
  end.

(** The world after the turn-off branch of [toggleVideo]. *)
Definition turnedOff (vs : StreamId) (w : World) : World :=
  w <| streams ::= alter (map stop) vs |>
    <| st ::= (λ s, s <| videoStream := None |>) |>
    <| videoStreamRef := None |>
    <| st ::= (λ s, s <| isVideoOn := false |>) |>
    <| videoRef ::= setSrcObject None |>.

(** ** Ending a session *)

(** The finalize-session call fails: the fetch rejects, the response is
    not ok, or its body cannot be read. *)
Definition sessionEndFails (env : EndEnv) : bool :=
  match end_sessionEnd env with
  | FetchThrows _ => true
  | FetchResponds r => negb (ok r) || isNull (json r)
  end.

(** The state cells after a failed [handleEndVoyage]. *)
Definition failedEnd (err : JsError) (s : State) : State :=
  s <| sessionError := None |>
    <| currentSessionId := None |>
    <| isSessionActive := false |>
    <| isStartingSession := false |>
    <| showControlPanel := false |>
    <| showSummaryPanel := true |>
    <| isLoadingSummary := true |>
    <| sessionError := Some (err_message err) |>
    <| summaryData := Some SummaryUnavailable |>
    <| sessionStartTime := None |>
    <| isLoadingSummary := false |>.

(** All tracks of stream [s] are stopped. *)
Definition released (s : StreamId) (w : World) : Prop :=
  Forall (λ t, isLive t = false) (tracksOf w s).

(** [s] is one of the streams the snapshot knows. *)
Definition holds (snap : State) (s : StreamId) : Prop :=
  videoStream snap = Some s ∨ screenStream snap = Some s ∨ micStream snap = Some s.

(** ** Heartbeat timers *)

Definition isInterval (t : Timer) : bool := negb (isNull (recurring t)).

(** The interval timers that are scheduled. *)
Definition intervals (w : World) : list Timer :=
  filter (λ t, isInterval t = true) (timers w).

Definition isHeartbeatTimer (t : Timer) : bool :=
  match callback t with CbHeartbeat _ _ _ => true | CbRearmAcknowledgment => false end.

(** The heartbeat invariant: the handle in [heartbeatIntervalRef] names the
    one interval timer there is, which runs heartbeats every 60 s; without
    a handle there is no interval timer; and the [isHeartbeatActive] cell
    says whether there is a handle. *)
Record heartbeat_inv (w : World) : Prop := {
  inv_handle :
    match heartbeatIntervalRef w with
    | Some id => ∃ t, intervals w = [t] ∧ timer_id t = id
    | None => intervals w = []
    end;
  inv_active : isHeartbeatActive (st w) = negb (isNull (heartbeatIntervalRef w));
  inv_period :
    Forall (λ t, recurring t = Some 60000%N ∧ isHeartbeatTimer t = true) (intervals w)
}.

(** What the invariant reads. *)
Definition heartbeat_view (w : World) : list Timer * option nat * bool :=
  (timers w, heartbeatIntervalRef w, isHeartbeatActive (st w)).

(** The two timers that [startHeartbeat] schedules. *)
Definition warmupTimer (snap : State) (sid : string) (act : bool) (w : World) : Timer :=
  {| timer_id := next_timer w; recurring := None;
     due := (now w + 8000)%N; callback := CbHeartbeat snap sid act |}.

Definition heartbeatTimer (snap : State) (sid : string) (act : bool) (w : World) : Timer :=
  {| timer_id := S (next_timer w); recurring := Some 60000%N;
     due := (now w + 60000)%N; callback := CbHeartbeat snap sid act |}.

(** The world after [startHeartbeat] found no handle. *)
Definition started (snap : State) (sid : string) (act : bool) (w : World) : World :=
  w <| st ::= (λ s, s <| isHeartbeatActive := true |>) |>
    <| timers ::= (λ l, l ++ [warmupTimer snap sid act w; heartbeatTimer snap sid act w]) |>
    <| next_timer := S (S (next_timer w)) |>
    <| heartbeatIntervalRef := Some (S (next_timer w)) |>.

(** The world after [stopHeartbeat] found the handle [id]. *)
Definition stopped (id : nat) (w : World) : World :=
  w <| timers ::= filter (λ t, timer_id t ≠ id) |>
    <| heartbeatIntervalRef := None |>
    <| st ::= (λ s, s <| isHeartbeatActive := false |>) |>.

(** The worlds a panel can be in: those some history of the panel leads
    to from the freshly mounted panel, the sessions it starts included. *)
Definition reachable (w : World) : Prop :=
  ∃ user l, w = core (panel_run l (initialPanel user)).

Definition hasHandle (w : World) : Prop := heartbeatIntervalRef w ≠ None.

(** Starting the heartbeat in [w] does nothing. *)
Definition startHeartbeat_noop_at (w : World) : Prop :=
  ∀ snap sid act, startHeartbeat snap sid act w = (Ok (), w).

(** The actions that call [stopHeartbeat]. *)
Definition stopsHeartbeat (a : Action) : bool :=
  match a with
  | ActStopHeartbeat | ActEndVoyage _ _ => true
  | _ => false
  end.

Definition panelStopsHeartbeat (a : PanelAction) : bool :=
  match a with
  | ActCore a => stopsHeartbeat a
  | ActUnmount => true
  | _ => false
  end.

(** ** Concrete worlds and answers *)

(** The tracks of a working camera. *)
Definition liveCamera : list Track :=
  [ {| kind := VideoTrack; label := "FaceTime HD Camera"; readyState := Live;
       enabled := true |} ].

(** A panel whose camera was turned on by a first call of [toggleVideo]. *)
Definition cameraOn : World :=
  exec (toggleVideo initialState (λ _, GumStream liveCamera)) (initialWorld (Some "user-1")).

(** A panel in a running session: the camera is on, the session id and
    the active flag are set as [startSailingSession] sets them (step 5),
    and the heartbeat was started as in its step 6, by a closure of the
    render before the session existed. *)
Definition sessionRunning : World :=
  exec (startHeartbeat initialState "s1" true)
       (cameraOn <| st ::= (λ s, s <| currentSessionId := Some "s1" |>
                                   <| isSessionActive := true |>) |>).

(** The backend answers the finalize-session call with a 500. *)
Definition backendDown : EndEnv :=
  {| end_sessionEnd := FetchResponds {| ok := false; status := 500;
                                        statusText := "Internal Server Error";
                                        json := None |};
     end_animation := FetchResponds {| ok := true; status := 200; statusText := "OK";
                                       json := Some () |};
     end_summary := FetchThrows (typeError "Failed to fetch") |}.

(** The backend answers the finalize-session call; the summary cannot be
    fetched. *)
Definition backendUp : EndEnv :=
  {| end_sessionEnd :=
       FetchResponds {| ok := true; status := 200; statusText := "OK";
                        json := Some {| stats := Some {| totalDuration := 120;
                                                         sailingDuration := 60;
                                                         driftingDuration := 60;
                                                         distractionCount := 1;
                                                         focusPercentage := 50 |};
                                        ai_analysis := Some "One distraction." |} |};
     end_animation := FetchResponds {| ok := true; status := 200; statusText := "OK";
                                       json := Some () |};
     end_summary := FetchThrows (typeError "Failed to fetch") |}.

Definition goodCapture : CaptureEnv :=
  {| cap_play := None; cap_videoWidth := 1280; cap_videoHeight := 720;
     cap_context2d := true; cap_drawImage := None;
     cap_toBlob := λ _ _, Some "jpeg" |}.

Definition webhookUp : nat → FetchOutcome unit :=
  λ _, FetchResponds {| ok := true; status := 200; statusText := "OK"; json := Some () |}.

(** The outside during a heartbeat that the backend answers with [data]. *)
Definition answering (data : HeartbeatData) : HeartbeatEnv :=
  {| hb_camera := goodCapture; hb_screen := goodCapture;
     hb_readAsDataURL := λ b, Some ("data:image/jpeg;base64," +:+ b);
     hb_invoke := InvokeResult (Some data) None;
     hb_webhook := webhookUp |}.

Definition focused : HeartbeatData :=
  {| is_drifting := false; drift_reason := None; actual_task := Some "writing" |}.

Definition lookingAway : HeartbeatData :=
  {| is_drifting := true; drift_reason := Some "looking away"; actual_task := None |}.

(** The scenario of the specification: heartbeats at 8 s (focused), 68 s
    (drifting) and 128 s (focused again). *)
Definition untilDrift : list Action :=
  [ ActAdvance 8000; ActFireTimer 1 (answering focused);
    ActAdvance 60000; ActFireTimer 2 (answering lookingAway) ].

Definition afterDrift : list Action :=
  [ ActAdvance 60000; ActFireTimer 2 (answering focused) ].

Definition graceWindow : list Action :=
  [ ActAdvance 22000; ActContinueWorking webhookUp;
    ActAdvance 38000; ActFireTimer 2 (answering lookingAway) ].

(** The browser refuses the high tier for a busy device and answers the
    medium tier with a stream whose video track has already ended. *)
Definition busyThenEnded (i : nat) : GumOutcome :=
  match i with
  | 0 => GumReject {| err_name := "NotReadableError"; err_message := "Device in use" |}
  | _ => GumStream [ {| kind := VideoTrack; label := "FaceTime HD Camera";
                        readyState := Ended; enabled := true |} ]
  end.

Definition cameraBlocked : CaptureEnv :=
  {| cap_play := Some {| err_name := "NotAllowedError"; err_message := "play() failed" |};
     cap_videoWidth := 0; cap_videoHeight := 0;
     cap_context2d := true; cap_drawImage := None;
     cap_toBlob := λ _ _, Some "jpeg" |}.

(** The browser refuses the high tier for a busy device and the medium
    tier for lack of permission. *)
Definition busyThenDenied (i : nat) : GumOutcome :=
  match i with
  | 0 => GumReject {| err_name := "NotReadableError"; err_message := "Device in use" |}
  | _ => GumReject {| err_name := "NotAllowedError"; err_message := "Permission denied" |}
  end.

(** ** The microphone *)

(** The first audio track of a stream. *)
Definition audioTrack (w : World) (s : StreamId) : option Track :=
  head (getAudioTracks (tracksOf w s)).

(** The world after [toggleMic] found an audio track in its stream. *)
Definition micToggled (snap : State) (ms : StreamId) (w : World) : World :=
  w <| streams ::= alter (setFirstAudioEnabled (isMicMuted snap)) ms |>
    <| st ::= (λ s, s <| isMicMuted := negb (isMicMuted snap) |>) |>.

(** A panel with a microphone stream, not muted. *)
Definition liveMic : list Track :=
  [ {| kind := AudioTrack; label := "Built-in Microphone"; readyState := Live; enabled := true |} ].

Definition micOn : World :=
  exec (toggleMic initialState (GumStream liveMic)) (initialWorld (Some "user-1")).

(** ** Unmounting *)

(** The world after the unmount cleanup. *)
Definition unmounted (w : World) : World :=
  let w1 := match realtimeChannelRef w with
            | Some c => (say [EvRemoveChannel c] w) <| realtimeChannelRef := None |>
            | None => w
            end in
  let w2 := say [EvStopPassiveListening] w1 in
  match heartbeatIntervalRef w with
  | Some id => stopped id w2
  | None => w2
  end.

(** ** The task list *)

(** The [completed] flag of a task says what its [status] says. *)
Definition flagMatchesStatus (t : TaskList.Task) : Prop :=
  TaskList.completed t = TaskList.isCompleted (TaskList.status t).

(** What [fetchTasks] shows for a thrown value. *)
Definition shownError (e : TaskList.Thrown) : string :=
  if TaskList.instanceofError e then TaskList.message e else "Unknown error occurred".

(** The status a toggle asks for. *)
Definition toggledStatus (task : TaskList.Task) : TaskList.Status :=
  if TaskList.completed task then TaskList.Pending else TaskList.Completed.

(** What the local update of [toggleTaskCompletion] does to a task. *)
Definition toggleIn (taskId : string) (newStatus : TaskList.Status) (t : TaskList.Task)
  : TaskList.Task :=
  if TaskList.hasId taskId t
  then t <| TaskList.completed := negb (TaskList.completed t) |>
         <| TaskList.status := newStatus |>
  else t.

(** The task of a list with a given id. *)
Definition taskWithId (taskId : string) (l : list TaskList.Task) : option TaskList.Task :=
  List.find (TaskList.hasId taskId) l.

(** A status is written over a task. *)
Definition withStatus (taskId : string) (newStatus : TaskList.Status) (t : TaskList.Task)
  : TaskList.Task :=
  if TaskList.hasId taskId t then t <| TaskList.status := newStatus |> else t.

(** A list of two tasks, the second in progress, and a panel showing it. *)
Definition writeReport : TaskList.Task :=
  {| TaskList.id := "t1"; TaskList.title := "Write the report"; TaskList.description := "";
     TaskList.completed := false; TaskList.priority := 1; TaskList.status := TaskList.Pending;
     TaskList.created_at := "2025-01-01T08:00:00Z"; TaskList.updated_at := "2025-01-01T08:00:00Z";
     TaskList.source_thought_id := None |}.

Definition readPaper : TaskList.Task :=
  {| TaskList.id := "t2"; TaskList.title := "Read the paper"; TaskList.description := "";
     TaskList.completed := false; TaskList.priority := 2; TaskList.status := TaskList.InProgress;
     TaskList.created_at := "2025-01-01T09:00:00Z"; TaskList.updated_at := "2025-01-01T09:00:00Z";
     TaskList.source_thought_id := None |}.

Definition twoTasks : TaskList.Store :=
  {| TaskList.cells :=
       {| TaskList.tasks := [writeReport; readPaper];
          TaskList.selectedTask := Some writeReport;
          TaskList.isLoading := false; TaskList.error := None;
          TaskList.draggedTask := None; TaskList.dragOverIndex := None |};
     TaskList.currentUser := Some "user-1";
     TaskList.queries := [];
     TaskList.holes := false |}.

(** Where [handleDrop] takes a task from: the place of the dragged task in
    the list, or the last place when the list has no task of that id. *)
Definition takenFrom (dragged : TaskList.Task) (l : list TaskList.Task) : nat :=
  let dragIndex := TaskList.findIndex (TaskList.hasId (TaskList.id dragged)) l in
  if (dragIndex <? 0)%Z then length l - 1 else Z.to_nat dragIndex.

(** Where it ends up. *)
Definition putAt (dropIndex : nat) (l : list TaskList.Task) : nat :=
  Nat.min dropIndex (length l - 1).

(** A drag of the second task is under way. *)
Definition dragging : TaskList.Store :=
  TaskList.exec (TaskList.handleDragStart readPaper) twoTasks.

(** Whenever there are tasks, one of them is selected: the selection names
    a task of the list by its id. *)
Definition oneSelected (c : TaskList.Cells) : Prop :=
  TaskList.tasks c ≠ [] →
  ∃ sel, TaskList.selectedTask c = Some sel
         ∧ TaskList.id sel ∈ map TaskList.id (TaskList.tasks c).

(** ** Starting a session *)

(** What the steps between the session request and the session cells leave
    alone: the timers, the clock, the heartbeat handle and flag, and the
    user. *)
Definition schedule (w : World)
  : list Timer * nat * option nat * N * option string * bool :=
  (timers w, next_timer w, heartbeatIntervalRef w, now w, currentUser w,
   isHeartbeatActive (st w)).

(** [m] returns, whatever the panel. *)
Definition total (m : P unit) : Prop := ∀ p, panel_outcome m p = Returned ().

(** [m] leaves what [view] shows as it is. *)
Definition keeps {A X} (view : Panel → X) (m : P A) : Prop :=
  ∀ p, view (panel_exec m p) = view p.

(** What a session start does not touch outside the [World], apart from
    the calls it makes and the listener it installs. *)
Definition backstage (p : Panel) : list (N * Deferred) * bool * bool :=
  (deferred p, hasPermissions p, showPermissionPanel p).

(** The panel when the session cells are about to be written: after the
    channel, the devices and the animation. *)
Definition devicesReady (snap : State) (env : StartEnv) (sessionId : string) (p : Panel)
  : Panel :=
  panel_exec (lift (triggerSplineSessionAnimation AnimStart (start_animation env)))
    (panel_exec (initScreenShare snap env)
       (panel_exec (initCamera snap env)
          (panel_exec (initMicrophone env)
             (panel_exec (lift (setupRealtimeChannel sessionId)) p)))).

(** Steps 5 to 8. *)
Definition sessionOn (snap : State) (sessionId : string) (p : Panel) : Panel :=
  panel_exec (call CallOnClose)
    (panel_exec (lift (setState (λ s, s <| showControlPanel := true |>)))
       (panel_exec (defer (DeferPassiveListening sessionId) 2000)
          (panel_exec (lift (startHeartbeat snap sessionId true))
             (panel_exec (lift (updateSessionState sessionId)) p)))).

(** The session cells. *)
Definition sessionCells (s : State) : option string * bool * option N * bool * bool :=
  (currentSessionId s, isSessionActive s, sessionStartTime s, showControlPanel s,
   isStartingSession s).

Definition isStartSession (c : Call) : bool :=
  match c with CallStartSession _ => true | _ => false end.

(** The sessions asked of the backend. *)
Definition sessionsRequested (p : Panel) : list Call :=
  filter (λ c, isStartSession c = true) (calls p).

(** The start of [startSailingSession], up to the session request. *)
Definition requested (task : Task) (p : Panel) : Panel :=
  p <| core ::= (λ w, w <| st ::= (λ s, s <| isStartingSession := true |>
                                         <| sessionError := None |>) |>) |>
    <| calls ::= (λ l, l ++ [CallStartSession (task_id task)]) |>.

(** What its [catch] block shows: the message of an [Error], and a fixed
    text for any other value. *)
Definition startErrorShown (error : Raised) : string :=
  match error with
  | RaisedError e => err_message e
  | RaisedOther => "Failed to start sailing session"
  end.

(** Its [catch] block. *)
Definition startFailed (error : Raised) (p : Panel) : Panel :=
  p <| core ::= (λ w, w <| st ::= (λ s, s <| sessionError := Some (startErrorShown error) |>
                                         <| isSessionActive := false |>
                                         <| currentSessionId := None |>) |>) |>.

(** Its [finally] block. *)
Definition startSettled (p : Panel) : Panel :=
  p <| core ::= (λ w, w <| st ::= (λ s, s <| isStartingSession := false |>) |>) |>.

(** The session ids that the heartbeat timers report for. *)
Definition heartbeatSessions (w : World) : list string :=
  omap (λ t, match callback t with
             | CbHeartbeat _ sid _ => Some sid
             | CbRearmAcknowledgment => None
             end) (timers w).

(** The backend accepts the session and the devices work. *)
Definition allGranted (sessionId : string) : StartEnv :=
  {| start_session := SessionStarted sessionId;
     start_microphone := GumStream liveMic;
     start_camera := λ _, GumStream liveCamera;
     start_screen := GumReject {| err_name := "NotAllowedError"; err_message := "denied" |};
     start_animation := FetchResponds {| ok := true; status := 200; statusText := "OK";
                                         json := Some () |} |}.

(** The backend accepts the session; camera and microphone are denied. *)
Definition devicesDenied (sessionId : string) : StartEnv :=
  {| start_session := SessionStarted sessionId;
     start_microphone := GumReject {| err_name := "NotAllowedError"; err_message := "denied" |};
     start_camera := λ _, GumReject {| err_name := "NotAllowedError"; err_message := "denied" |};
     start_screen := GumReject {| err_name := "NotAllowedError"; err_message := "denied" |};
     start_animation := FetchResponds {| ok := true; status := 200; statusText := "OK";
                                         json := Some () |} |}.

(** A render with a task selected and no session. *)
Definition taskChosen : State :=
  initialState <| selectedTask := Some {| task_id := "t1"; task_title := "Write the report";
                                          task_priority := 1 |} |>.

Definition readyPanel : Panel :=
  (initialPanel (Some "user-1")) <| core ::= (λ w, w <| st := taskChosen |>) |>.

(** A first session that drifts at its second heartbeat and is ended while
    the drift is shown; a second session started by the render of that
    panel; then the manual recovery, and a minute passes. *)
Definition driftedSession : Panel :=
  panel_run [ ActCore (ActAdvance 8000); ActCore (ActFireTimer 1 (answering focused));
              ActCore (ActAdvance 60000); ActCore (ActFireTimer 2 (answering lookingAway)) ]
            (panel_exec (startSailingSession taskChosen (allGranted "s1")) readyPanel).

Definition nextSession : Panel :=
  let ended := panel_exec (lift (handleEndVoyage (st (core driftedSession)) backendUp))
                          driftedSession in
  panel_exec (startSailingSession (st (core ended)) (allGranted "s2")) ended.

Definition recoveredNextSession : Panel :=
  panel_run [ ActCore (ActContinueWorking webhookUp); ActCore (ActAdvance 60000) ] nextSession.

(** The two ways a session ends with its heartbeat left running: the
    finalize-session call of [handleEndVoyage] fails, or the session is
    ended from the other side. *)
Inductive leavesHeartbeat : M unit → Prop :=
| failed_end (snap : State) (env : EndEnv) (sid : string) :
    truthyId (currentSessionId snap) = Some sid →
    sessionEndFails env = true →
    leavesHeartbeat (handleEndVoyage snap env)
| remote_end : leavesHeartbeat on_session_ended.

(** A panel in a running session, as [sessionRunning], with its task. *)
Definition sessionRunningPanel : Panel :=
  (initialPanel (Some "user-1"))
    <| core := sessionRunning
                 <| st ::= (λ s, s <| selectedTask := selectedTask taskChosen |>) |> |>.

(** ** Screen sharing *)

(** The three places that say whether the screen is shared. *)
Definition screenView (w : World) : option StreamId * bool * option StreamId :=
  (screenStream (st w), isScreenSharing (st w), screenStreamRef w).

(** They agree: the flag says whether there is a stream, and the ref holds
    the stream of the cell. *)
Definition screenCoherent (w : World) : Prop :=
  isScreenSharing (st w) = negb (isNull (screenStream (st w)))
  ∧ screenStreamRef w = screenStream (st w).

(** [m] keeps [Q] of the world of the panel. *)
Definition upholds {A} (Q : World → Prop) (m : P A) : Prop :=
  ∀ p, Q (core p) → Q (core (panel_exec m p)).

(** The tracks of a shared screen. *)
Definition sharedScreen : list Track :=
  [ {| kind := VideoTrack; label := "screen:0:0"; readyState := Live; enabled := true |} ].

(** The world with a stream in the screen places. *)
Definition screenShown (stream : StreamId) (w : World) : World :=
  w <| st ::= (λ s, s <| screenStream := Some stream |>) |>
    <| screenStreamRef := Some stream |>
    <| st ::= (λ s, s <| isScreenSharing := true |>) |>
    <| screenRef ::= setSrcObject (Some stream) |>.

(** * Properties *)

(** ** What a computation leaves as it is *)

Section Preserves.
Context (P : World → Prop).

Lemma preserves_ret {A} (a : A) : preserves P (mret a).
Proof. intros w H. exact H. Qed.

Lemma preserves_throw {A} (e : JsError) : preserves P (@throw A e).
Proof. intros w H. exact H. Qed.

Lemma preserves_get : preserves P get.
Proof. intros w H. exact H. Qed.

Lemma preserves_bind {A B} (m : M A) (f : A → M B) :
  preserves P m → (∀ a, preserves P (f a)) → preserves P (m ≫= f).
Proof.
  intros Hm Hf w H. specialize (Hm w H).
  unfold exec, mbind, M_bind in *. destruct (m w) as [[a|e] w']; cbn in *.
  - exact (Hf a w' Hm).
  - exact Hm.
Qed.

Lemma preserves_try_catch {A} (m : M A) (h : JsError → M A) :
  preserves P m → (∀ e, preserves P (h e)) → preserves P (try_catch m h).
Proof.
  intros Hm Hh w H. specialize (Hm w H).
  unfold exec, try_catch in *. destruct (m w) as [[a|e] w']; cbn in *.
  - exact Hm.
  - exact (Hh e w' Hm).
Qed.

Lemma preserves_try_finally {A} (m : M A) (f : M unit) :
  preserves P m → preserves P f → preserves P (try_finally m f).
Proof.
  intros Hm Hf w H. specialize (Hm w H).
  unfold exec, try_finally in *. destruct (m w) as [r w']; cbn in *.
  specialize (Hf w' Hm). unfold exec in Hf.
  destruct (f w') as [[[]|e] w'']; exact Hf.
Qed.

Lemma preserves_modify (f : World → World) :
  (∀ w, P w → P (f w)) → preserves P (modify f).
Proof. intros Hf w H. exact (Hf w H). Qed.
End Preserves.

(** Goals [preserves P m] are taken apart along the structure of [m]; what
    is left are the writes, each to be checked against [P]. *)
Ltac preserves_step :=
  lazymatch goal with
  | |- preserves _ (mret _) => apply preserves_ret
  | |- preserves _ (throw _) => apply preserves_throw
  | |- preserves _ get => apply preserves_get
  | |- preserves _ (_ ≫= _) => apply preserves_bind; [| intros ?]
  | |- preserves _ (try_catch _ _) => apply preserves_try_catch; [| intros ?]
  | |- preserves _ (try_finally _ _) => apply preserves_try_finally
  | |- preserves _ (match ?x with _ => _ end) => destruct x
  | |- preserves _ (let '(_, _) := ?x in _) => destruct x
  | |- preserves _ (modify _) => apply preserves_modify; intros ? ?
  end.

Ltac preserves_unfold :=
  lazymatch goal with
  | |- preserves _ (emit _) => unfold emit
  | |- preserves _ (sleep _) => unfold sleep, emit
  | |- preserves _ (setState _) => unfold setState
  | |- preserves _ (stopTracks _) => unfold stopTracks
  | |- preserves _ (stopVideoTracks _) => unfold stopVideoTracks
  | |- preserves _ (clearInterval _) => unfold clearInterval
  | |- preserves _ (fetched _) => unfold fetched
  | |- preserves _ (readJson _) => unfold readJson
  | |- preserves _ (statsOf _) => unfold statsOf
  | |- preserves _ (analysisOf _) => unfold analysisOf
  | |- preserves _ (blobToBase64Opt _ _) => unfold blobToBase64Opt
  | |- preserves _ (blobToBase64 _ _) => unfold blobToBase64
  | |- preserves _ (getUserMedia _ _) => unfold getUserMedia
  end.

Ltac preserves_auto := repeat (first [ preserves_step | preserves_unfold ]).

(** The timer primitives and [newStream] are not built from [modify]. *)
Lemma preserves_setTimeout (P : World → Prop) cb ms :
  (∀ w t n, P w → P (w <| timers ::= (λ l, l ++ [t]) |> <| next_timer := n |>)) →
  preserves P (setTimeout cb ms).
Proof. intros H w Hw. apply H, Hw. Qed.

Lemma preserves_setInterval (P : World → Prop) cb ms :
  (∀ w t n, P w → P (w <| timers ::= (λ l, l ++ [t]) |> <| next_timer := n |>)) →
  preserves P (setInterval cb ms).
Proof. intros H w Hw. apply H, Hw. Qed.

Lemma preserves_newStream (P : World → Prop) ts :
  (∀ w i n, P w → P (w <| streams ::= insert i ts |> <| next_stream := n |>)) →
  preserves P (newStream ts).
Proof. intros H w Hw. apply H, Hw. Qed.

(** ** The drift cell is only ever raised by a heartbeat *)

Lemma drifting_frame (w : World) (f : World → World) :
  isDrifting (st (f w)) = isDrifting (st w) → drifting w → drifting (f w).
Proof. unfold drifting. congruence. Qed.

Ltac drifting_writes :=
  try (apply preserves_setTimeout; intros ? ? ? ?);
  try (apply preserves_setInterval; intros ? ? ? ?);
  try (apply preserves_newStream; intros ? ? ? ?);
  first [ assumption | reflexivity | (apply drifting_frame; [reflexivity | assumption]) ].

Lemma triggerSplineDriftScene_drifting answer b retries :
  preserves drifting (triggerSplineDriftScene answer b retries).
Proof.
  induction retries as [retries IH] using lt_wf_ind.
  destruct retries as [|[|r]]; cbn [triggerSplineDriftScene];
    preserves_auto; try drifting_writes.
  apply IH. lia.
Qed.

Lemma tryConstraintSets_drifting gum cs : ∀ i lastError,
  preserves drifting (tryConstraintSets gum i cs lastError).
Proof.
  induction cs as [|c rest IH]; intros i lastError; cbn [tryConstraintSets];
    preserves_auto; try drifting_writes.
  apply IH.
Qed.

Lemma toggleVideo_drifting snap gum : preserves drifting (toggleVideo snap gum).
Proof.
  unfold toggleVideo, toggleVideoTry, turnOffVideo, startCamera, toggleVideoCatch.
  preserves_auto; try drifting_writes; apply tryConstraintSets_drifting.
Qed.

Lemma cleanupMediaStreams_drifting snap : preserves drifting (cleanupMediaStreams snap).
Proof. unfold cleanupMediaStreams. preserves_auto; drifting_writes. Qed.

Lemma captureStream_drifting tw th fw fh env :
  preserves drifting (captureStream tw th fw fh env).
Proof. unfold captureStream. preserves_auto; drifting_writes. Qed.

Lemma sendHeartbeat_drifting snap sid act env :
  preserves drifting (sendHeartbeat snap sid act env).
Proof.
  unfold sendHeartbeat, captureCameraFrame, captureScreenFrame.
  preserves_auto;
    try apply captureStream_drifting;
    try apply triggerSplineDriftScene_drifting;
    drifting_writes.
Qed.

Lemma startHeartbeat_drifting snap sid act : preserves drifting (startHeartbeat snap sid act).
Proof. unfold startHeartbeat. preserves_auto; drifting_writes. Qed.

Lemma stopHeartbeat_drifting : preserves drifting stopHeartbeat.
Proof. unfold stopHeartbeat. preserves_auto; drifting_writes. Qed.

Lemma cleanupRealtimeChannel_drifting : preserves drifting cleanupRealtimeChannel.
Proof. unfold cleanupRealtimeChannel. preserves_auto; drifting_writes. Qed.

Lemma handleEndVoyage_drifting snap env : preserves drifting (handleEndVoyage snap env).
Proof.
  unfold handleEndVoyage, endVoyageTry, endVoyageSummary, endVoyageCatch,
    triggerSplineSessionAnimation.
  preserves_auto;
    try apply cleanupRealtimeChannel_drifting;
    try apply cleanupMediaStreams_drifting;
    try apply stopHeartbeat_drifting;
    drifting_writes.
Qed.

Lemma fireTimer_drifting id env : preserves drifting (fireTimer id env).
Proof.
  unfold fireTimer, runCallback.
  preserves_auto; try apply sendHeartbeat_drifting; drifting_writes.
Qed.

Lemma perform_drifting a :
  isContinueWorking a = false → preserves drifting (perform a).
Proof.
  destruct a; cbn [isContinueWorking perform]; intros Hc; try discriminate.
  - apply toggleVideo_drifting.
  - apply cleanupMediaStreams_drifting.
  - apply sendHeartbeat_drifting.
  - apply startHeartbeat_drifting.
  - apply stopHeartbeat_drifting.
  - apply handleEndVoyage_drifting.
  - unfold setupRealtimeChannel. preserves_auto; drifting_writes.
  - apply preserves_ret.
  - unfold on_session_ended. preserves_auto; drifting_writes.
  - apply cleanupRealtimeChannel_drifting.
  - unfold acknowledgeDrift. preserves_auto; drifting_writes.
  - apply fireTimer_drifting.
  - unfold advance. preserves_auto; drifting_writes.
Qed.

Lemma run_drifting l : ∀ w,
  Forall (λ a, isContinueWorking a = false) l → drifting w → drifting (run l w).
Proof.
  induction l as [|a l IH]; intros w Hl Hw; [exact Hw|].
  inversion Hl as [|? ? Ha Hl']; subst. cbn [run foldl].
  apply IH; [exact Hl'|]. apply perform_drifting; assumption.
Qed.

(** ** Frame capture and the webhooks only talk to the outside *)

Lemma captureStream_world tw th fw fh env w : (captureStream tw th fw fh env w).2 = w.
Proof.
  unfold captureStream.
  destruct (cap_play env); [reflexivity|].
  destruct (finalSize _ _ _ _) as [fw' fh']. cbn.
  destruct (cap_context2d env); [|reflexivity].
  destruct (cap_drawImage env); reflexivity.
Qed.

Lemma captureCameraFrame_total env w : ∃ blob, captureCameraFrame env w = (Ok blob, w).
Proof.
  unfold captureCameraFrame, mbind, M_bind, get.
  destruct (videoStreamRef w); [|by eexists].
  unfold try_catch. pose proof (captureStream_world 640 360 640 480 env w) as Hw.
  destruct (captureStream _ _ _ _ env w) as [[b|e] w']; cbn in Hw; subst w'; by eexists.
Qed.

Lemma captureScreenFrame_total env w : ∃ blob, captureScreenFrame env w = (Ok blob, w).
Proof.
  unfold captureScreenFrame, mbind, M_bind, get.
  destruct (screenStreamRef w); [|by eexists].
  unfold try_catch. pose proof (captureStream_world 1008 567 1280 720 env w) as Hw.
  destruct (captureStream _ _ _ _ env w) as [[b|e] w']; cbn in Hw; subst w'; by eexists.
Qed.

Lemma say_nil w : say [] w = w.
Proof. destruct w. unfold say. cbn. by rewrite app_nil_r. Qed.

Lemma say_say evs evs' w : say evs' (say evs w) = say (evs ++ evs') w.
Proof. destruct w. unfold say. cbn. by rewrite app_assoc. Qed.

Lemma triggerSplineDriftScene_run answer b retries : ∀ w,
  triggerSplineDriftScene answer b retries w = (Ok (), say (sceneChange answer b retries w) w).
Proof.
  induction retries as [|r IH]; intros w; unfold sceneChange;
    cbn [triggerSplineDriftScene splineDriftRequests];
    unfold try_catch, mbind, M_bind, get, emit, modify, fetched, sleep;
    (destruct (currentUser w) as [uid|] eqn:Hu; cbn [fst snd]; [| by rewrite say_nil]).
  all: destruct (answer _) as [e|[[] ? ? ?]] eqn:Ha; cbn [ok mret M_ret throw]; try reflexivity.
  all: destruct r as [|r]; cbn [mret M_ret]; rewrite ?say_say; try reflexivity.
  all: unfold mbind, M_bind, emit, modify; rewrite IH; unfold sceneChange;
    change (currentUser (say _ (say _ w))) with (currentUser w);
    rewrite Hu, !say_say; reflexivity.
Qed.

Lemma triggerSplineSessionAnimation_run event answer w :
  ∃ url n, triggerSplineSessionAnimation event answer w
           = (Ok (), say [EvRequest (ReqSplineProxy url n)] w).
Proof.
  unfold triggerSplineSessionAnimation, try_catch, mbind, M_bind, emit, modify, fetched.
  do 2 eexists. destruct answer; cbn; reflexivity.
Qed.

Lemma sendHeartbeat_st snap sid act env w :
  st (exec (sendHeartbeat snap sid act env) w) = st w
  ∨ ∃ data, hb_invoke env = InvokeResult (Some data) None
            ∧ is_drifting data = true ∧ isDrifting snap = false
            ∧ st (exec (sendHeartbeat snap sid act env) w) = enterDrift (drift_reason data) (st w).
Proof.
  unfold sendHeartbeat, exec.
  destruct (String.eqb sid "" || negb act); [by left|].
  unfold try_catch, mbind, M_bind.
  destruct (captureCameraFrame_total (hb_camera env) w) as [cam ->].
  destruct (captureScreenFrame_total (hb_screen env) w) as [scr ->].
  destruct (isNull cam && isNull scr); [by left|].
  unfold blobToBase64Opt, blobToBase64, mbind, M_bind.
  destruct cam as [cam|]; [destruct (hb_readAsDataURL env cam)|]; cbn [mret M_ret throw]; try by left.
  all: destruct scr as [scr|]; [destruct (hb_readAsDataURL env scr)|]; cbn [mret M_ret throw]; try by left.
  all: unfold emit, modify.
  all: destruct (hb_invoke env) as [e|[data|] [error|]] eqn:Hi; cbn [mret M_ret throw snd]; try by left.
  all: destruct (is_drifting data) eqn:Hd; cbn [andb]; [|by left].
  all: destruct (isDrifting snap) eqn:Hs; cbn [negb]; [by left|].
  all: unfold setState, modify; rewrite triggerSplineDriftScene_run; right; exists data; done.
Qed.

Lemma sendHeartbeat_delivered snap sid act env w data :
  delivered sid act env w data →
  st (exec (sendHeartbeat snap sid act env) w)
  = if is_drifting data && negb (isDrifting snap)
    then enterDrift (drift_reason data) (st w)
    else st w.
Proof.
  intros [Hsid -> Hframe Henc Hans].
  unfold sendHeartbeat, exec.
  apply String.eqb_neq in Hsid. rewrite Hsid. cbn [orb negb].
  unfold captured, outcome in Hframe.
  unfold try_catch, mbind, M_bind.
  destruct (captureCameraFrame_total (hb_camera env) w) as [cam Hcam].
  destruct (captureScreenFrame_total (hb_screen env) w) as [scr Hscr].
  rewrite Hcam, Hscr in *. cbn [fst] in Hframe.
  assert (isNull cam && isNull scr = false) as ->.
  { destruct cam, scr; try reflexivity. destruct Hframe; congruence. }
  unfold blobToBase64Opt, blobToBase64, mbind, M_bind.
  destruct cam as [cam|];
    [pose proof (Henc cam); destruct (hb_readAsDataURL env cam); [|congruence]|];
    cbn [mret M_ret].
  all: destruct scr as [scr|];
    [pose proof (Henc scr); destruct (hb_readAsDataURL env scr); [|congruence]|];
    cbn [mret M_ret].
  all: unfold emit, modify; rewrite Hans; cbn [snd].
  all: destruct (is_drifting data && negb (isDrifting snap)); [|reflexivity].
  all: unfold setState, modify; rewrite triggerSplineDriftScene_run; reflexivity.
Qed.

(** ** Timer identifiers are fresh *)

Lemma findTimer_fresh id (l : list Timer) (t : Timer) :
  Forall (λ t', timer_id t' < id) l → timer_id t = id →
  findTimer id (l ++ [t]) = Some t.
Proof.
  intros Hl Ht. unfold findTimer. induction Hl as [|t' l Ht' Hl IH]; cbn.
  - rewrite Ht, Nat.eqb_refl. reflexivity.
  - destruct (Nat.eqb_spec (timer_id t') id); [lia | exact IH].
Qed.

(** ** C1: drift is left only by the manual recovery *)

(** C1.  Once [isDrifting] is true it stays true through every history of
    the panel in which [handleContinueWorking] is not invoked: heartbeats
    sent directly or by a timer, with any snapshot and any answers, and
    every other modelled operation.  In particular a heartbeat answered with
    [is_drifting = false] changes no React state at all, whatever snapshot
    its closure holds; and [handleContinueWorking] does reset the cell. *)
Theorem C1_drift_sticky_until_manual_recovery :
  (∀ (l : list Action) (w : World),
      Forall (λ a, isContinueWorking a = false) l →
      isDrifting (st w) = true →
      isDrifting (st (run l w)) = true)
  ∧ (∀ snap sid act env data w,
      hb_invoke env = InvokeResult (Some data) None →
      is_drifting data = false →
      st (exec (sendHeartbeat snap sid act env) w) = st w)
  ∧ (∀ answer w, isDrifting (st (exec (handleContinueWorking answer) w)) = false).
Proof.
  split; [|split].
  - intros l w Hl Hw. exact (run_drifting l w Hl Hw).
  - intros snap sid act env data w Hans Hd.
    destruct (sendHeartbeat_st snap sid act env w) as [H|(data' & Hans' & Hd' & _)];
      [exact H|]. congruence.
  - intros answer w. unfold handleContinueWorking, exec, mbind, M_bind, setState, modify.
    rewrite triggerSplineDriftScene_run. reflexivity.
Qed.

(** ** The manual recovery *)

Lemma handleContinueWorking_run answer w :
  handleContinueWorking answer w = (Ok (), recovered answer w).
Proof.
  unfold handleContinueWorking, mbind, M_bind, setState, modify.
  rewrite triggerSplineDriftScene_run. destruct w. reflexivity.
Qed.

Lemma sailing_scene_requested answer retries w uid :
  currentUser w = Some uid →
  ∃ rest, sceneChange answer false retries w
          = EvRequest (ReqJourneyWebhook uid "https://hooks.spline.design/xyN_bGAd8LY"
                                         "numbaer4") :: rest.
Proof.
  intros Hu. unfold sceneChange. rewrite Hu.
  destruct retries; cbn [splineDriftRequests]; eexists; reflexivity.
Qed.

Lemma rearm_fires_after_a_minute answer w dt env :
  timers_fresh w →
  isDriftAcknowledged
    (st (exec (fireTimer (next_timer w) env)
              (exec (advance dt) (exec (handleContinueWorking answer) w))))
  = if (60000 <=? dt)%N then false else true.
Proof.
  intros Hfresh. unfold exec at 3. rewrite handleContinueWorking_run. cbn [snd].
  unfold fireTimer, exec, mbind, M_bind, get, advance, modify. cbn [fst snd].
  change (timers _) with (timers w ++ [rearmTimer w]).
  rewrite (findTimer_fresh (next_timer w) (timers w) (rearmTimer w) Hfresh eq_refl).
  change (due (rearmTimer w)) with (now w + 60000)%N.
  change (now (recovered answer w) <| now ::= λ t : N, (t + dt)%N |>) with (now w + dt)%N.
  destruct (N.leb_spec 60000 dt) as [Hle|Hlt].
  - assert ((now w + 60000 <=? now w + dt)%N = true) as -> by (apply N.leb_le; lia).
    reflexivity.
  - assert ((now w + 60000 <=? now w + dt)%N = false) as -> by (apply N.leb_gt; lia).
    reflexivity.
Qed.

(** ** C7: frame capture never throws *)

Lemma captureStream_fails tw th fw fh env w :
  captureFails env = true → ∃ e, captureStream tw th fw fh env w = (Throw e, w).
Proof.
  unfold captureFails, captureStream, mbind, M_bind. intros Hf.
  destruct (cap_play env) as [e|]; [by eexists|].
  destruct (finalSize _ _ _ _) as [fw' fh']. cbn [mret M_ret].
  destruct (cap_context2d env); [|by eexists].
  destruct (cap_drawImage env) as [e|]; [by eexists|]. discriminate.
Qed.

(** C7.  With no stream in the ref, [captureCameraFrame] and
    [captureScreenFrame] return [null] and touch nothing.  Whatever the
    browser does during a capture, each of them returns (a blob or [null]),
    never throws and changes nothing; and when a step of the capture fails
    the result is [null]. *)
Theorem C7_capture_returns_null_never_throws :
  (∀ env w, videoStreamRef w = None → captureCameraFrame env w = (Ok None, w))
  ∧ (∀ env w, screenStreamRef w = None → captureScreenFrame env w = (Ok None, w))
  ∧ (∀ env w, ∃ blob, captureCameraFrame env w = (Ok blob, w))
  ∧ (∀ env w, ∃ blob, captureScreenFrame env w = (Ok blob, w))
  ∧ (∀ env w, captureFails env = true → captureCameraFrame env w = (Ok None, w))
  ∧ (∀ env w, captureFails env = true → captureScreenFrame env w = (Ok None, w)).
Proof.
  repeat split.
  - intros env w H. unfold captureCameraFrame, mbind, M_bind, get. by rewrite H.
  - intros env w H. unfold captureScreenFrame, mbind, M_bind, get. by rewrite H.
  - apply captureCameraFrame_total.
  - apply captureScreenFrame_total.
  - intros env w Hf. unfold captureCameraFrame, mbind, M_bind, get, try_catch.
    destruct (videoStreamRef w); [|reflexivity].
    destruct (captureStream_fails 640 360 640 480 env w Hf) as [e ->]. reflexivity.
  - intros env w Hf. unfold captureScreenFrame, mbind, M_bind, get, try_catch.
    destruct (screenStreamRef w); [|reflexivity].
    destruct (captureStream_fails 1008 567 1280 720 env w Hf) as [e ->]. reflexivity.
Qed.

(** ** C8: ending without a session *)

(** C8.  When the snapshot of [handleEndVoyage] holds no session id
    ([null] or the empty string), the call sets the session error to
    "No active session found" and does nothing else: every other state
    cell, every ref, stream and timer is as before, and the trace has not
    grown, so no request was sent. *)
Theorem C8_end_without_session_only_reports (snap : State) (env : EndEnv) (w : World) :
  truthyId (currentSessionId snap) = None →
  handleEndVoyage snap env w
  = (Ok (), w <| st ::= (λ s, s <| sessionError := Some "No active session found" |>) |>)
  ∧ trace (exec (handleEndVoyage snap env) w) = trace w
  ∧ filter (λ e, isNetwork e = true) (trace (exec (handleEndVoyage snap env) w))
    = filter (λ e, isNetwork e = true) (trace w).
Proof.
  intros H. unfold exec, handleEndVoyage. rewrite H. repeat split.
Qed.

(** ** The acquisition loop, as a trace and a result *)

Lemma tryConstraintSets_run gum cs : ∀ i lastError w,
  tryConstraintSets gum i cs lastError w
  = match loopEnd gum i cs lastError with
    | Ok (Some ts, le) =>
        (Ok (Some (next_stream w), le), addStream ts (say (loopEvents gum i cs) w))
    | Ok (None, le) => (Ok (None, le), say (loopEvents gum i cs) w)
    | Throw e => (Throw e, say (loopEvents gum i cs) w)
    end.
Proof.
  induction cs as [|c rest IH]; intros i lastError w;
    cbn [tryConstraintSets loopEnd loopEvents].
  - by rewrite say_nil.
  - unfold getUserMedia, sleep, emit, newStream, try_catch, mbind, M_bind, modify.
    destruct (0 <? i)%nat eqn:Hi; destruct (gum i) as [ts|e] eqn:Hg;
      cbn [app mret M_ret throw fst snd]; try (rewrite ?say_say; reflexivity).
    all: destruct (isPermissionError e); cbn [mret M_ret throw];
      try (rewrite ?say_say; reflexivity).
    all: rewrite IH; destruct (loopEnd gum (S i) rest (Some e)) as [[[ts|] le]|e'];
      rewrite !say_say; reflexivity.
Qed.

Lemma loopEvents_requests gum cs : ∀ i,
  filter (λ e, isDeviceRequest e = true) (loopEvents gum i cs)
  = EvGetUserMedia <$> tiersTried gum i cs.
Proof.
  induction cs as [|c rest IH]; intros i; cbn [loopEvents tiersTried]; [reflexivity|].
  rewrite filter_app.
  assert (filter (λ e, isDeviceRequest e = true) (if (0 <? i)%nat then [EvSleep 200] else [])
          = []) as -> by (destruct (0 <? i)%nat; reflexivity).
  cbn [app]. rewrite filter_cons_True by reflexivity. cbn [fmap list_fmap]. f_equal.
  destruct (gum i) as [ts|e]; [reflexivity|].
  destruct (isPermissionError e); [reflexivity|]. apply IH.
Qed.

Lemma tiersTried_prefix gum cs : ∀ i, tiersTried gum i cs `prefix_of` cs.
Proof.
  induction cs as [|c rest IH]; intros i; cbn [tiersTried]; [done|].
  apply prefix_cons. destruct (gum i) as [ts|e]; [apply prefix_nil|].
  destruct (isPermissionError e); [apply prefix_nil | apply IH].
Qed.

Lemma tiersTried_stop gum cs : ∀ i k,
  k < length cs → stops (gum (i + k)) = true →
  (∀ j, j < k → stops (gum (i + j)) = false) →
  tiersTried gum i cs = take (S k) cs.
Proof.
  induction cs as [|c rest IH]; intros i k Hk Hstop Hbefore; cbn [length] in Hk; [lia|].
  cbn [tiersTried take]. f_equal. destruct k as [|k].
  - rewrite Nat.add_0_r in Hstop. unfold stops in Hstop.
    destruct (gum i) as [ts|e]; [by rewrite take_0|]. rewrite Hstop. by rewrite take_0.
  - pose proof (Hbefore 0 ltac:(lia)) as H0. rewrite Nat.add_0_r in H0. unfold stops in H0.
    destruct (gum i) as [ts|e]; [discriminate|]. rewrite H0.
    apply IH; [lia | by rewrite Nat.add_succ_comm |].
    intros j Hj. rewrite Nat.add_succ_comm. apply Hbefore. lia.
Qed.

Lemma tiersTried_all gum cs : ∀ i,
  (∀ j, j < length cs → stops (gum (i + j)) = false) → tiersTried gum i cs = cs.
Proof.
  induction cs as [|c rest IH]; intros i Hall; cbn [tiersTried]; [reflexivity|]. f_equal.
  pose proof (Hall 0 ltac:(cbn; lia)) as H0. rewrite Nat.add_0_r in H0. unfold stops in H0.
  destruct (gum i) as [ts|e]; [discriminate|]. rewrite H0. apply IH.
  intros j Hj. rewrite Nat.add_succ_comm. apply Hall. cbn. lia.
Qed.

Lemma loopEnd_success gum cs : ∀ i k lastError ts,
  k < length cs → gum (i + k) = GumStream ts →
  (∀ j, j < k → stops (gum (i + j)) = false) →
  ∃ le, loopEnd gum i cs lastError = Ok (Some ts, le).
Proof.
  induction cs as [|c rest IH]; intros i k lastError ts Hk Hg Hbefore;
    cbn [length] in Hk; [lia|].
  cbn [loopEnd]. destruct k as [|k].
  - rewrite Nat.add_0_r in Hg. rewrite Hg. by eexists.
  - pose proof (Hbefore 0 ltac:(lia)) as H0. rewrite Nat.add_0_r in H0. unfold stops in H0.
    destruct (gum i) as [ts'|e]; [discriminate|]. rewrite H0.
    apply (IH (S i) k); [lia | by rewrite Nat.add_succ_comm |].
    intros j Hj. rewrite Nat.add_succ_comm. apply Hbefore. lia.
Qed.

Lemma loopEnd_denied gum cs : ∀ i k lastError e,
  k < length cs → gum (i + k) = GumReject e → isPermissionError e = true →
  (∀ j, j < k → stops (gum (i + j)) = false) →
  loopEnd gum i cs lastError = Throw e.
Proof.
  induction cs as [|c rest IH]; intros i k lastError e Hk Hg He Hbefore;
    cbn [length] in Hk; [lia|].
  cbn [loopEnd]. destruct k as [|k].
  - rewrite Nat.add_0_r in Hg. by rewrite Hg, He.
  - pose proof (Hbefore 0 ltac:(lia)) as H0. rewrite Nat.add_0_r in H0. unfold stops in H0.
    destruct (gum i) as [ts'|e']; [discriminate|]. rewrite H0.
    apply (IH (S i) k); [lia | by rewrite Nat.add_succ_comm | exact He |].
    intros j Hj. rewrite Nat.add_succ_comm. apply Hbefore. lia.
Qed.

(** ** The three ways a call of [toggleVideo] can go *)

Lemma tracksOf_addStream ts w : tracksOf (addStream ts w) (next_stream w) = ts.
Proof.
  unfold tracksOf, addStream. cbn [streams apply_update constant].
  by rewrite lookup_insert_eq.
Qed.

Lemma bind_run {A B} (m : M A) (f : A → M B) (w : World) :
  (m ≫= f) w = match m w with
               | (Ok a, w') => f a w'
               | (Throw e, w') => (Throw e, w')
               end.
Proof. reflexivity. Qed.

Lemma toggleVideoTry_off snap gum vs :
  isVideoOn snap = true → videoStream snap = Some vs →
  toggleVideoTry snap gum = turnOffVideo vs.
Proof. intros H1 H2. unfold toggleVideoTry. by rewrite H1, H2. Qed.

Lemma toggleVideoTry_start snap gum :
  turnsOff snap = false → toggleVideoTry snap gum = startCamera snap gum.
Proof.
  unfold turnsOff, toggleVideoTry.
  destruct (isVideoOn snap), (videoStream snap); cbn; intros; done.
Qed.

Lemma startCamera_guarded snap gum w :
  guarded snap w = true → startCamera snap gum w = (Ok (), w).
Proof.
  unfold guarded, startCamera, mbind, M_bind, get. intros H. by rewrite H.
Qed.

Lemma startCamera_acquire snap gum w :
  guarded snap w = false →
  let w0 := prepared snap w in
  let evs := loopEvents gum 0 constraintSets in
  startCamera snap gum w
  = match loopEnd gum 0 constraintSets None with
    | Throw e => (Throw e, say evs w0)
    | Ok (None, lastError) =>
        (Throw (default (mkError "Failed to start camera with all constraint sets") lastError),
         say evs w0)
    | Ok (Some ts, _) =>
        let w1 := addStream ts (say evs w0) in
        if firstVideoLive ts
        then (Ok (), installed (next_stream w) w1)
        else (Throw (mkError "Camera stream is not live"),
              w1 <| streams ::= alter (map stop) (next_stream w) |>)
    end.
Proof.
  intros Hguard w0 evs. unfold guarded in Hguard.
  unfold startCamera. rewrite bind_run. unfold get at 1. cbn iota. rewrite Hguard.
  rewrite bind_run.
  assert (try_catch
            (match videoStream snap with
             | Some vs => stopVideoTracks vs
             | None => mret ()
             end ≫= λ _, sleep 100) (λ _, mret ()) w = (Ok (), w0)) as ->.
  { unfold w0, prepared. destruct (videoStream snap); reflexivity. }
  rewrite bind_run, tryConstraintSets_run. fold evs.
  assert (next_stream w0 = next_stream w) as Hn.
  { unfold w0, prepared. destruct (videoStream snap); reflexivity. }
  destruct (loopEnd gum 0 constraintSets None) as [[[ts|] le]|e]; try reflexivity.
  rewrite bind_run. unfold get at 1. cbn iota zeta.
  change (tracksOf _ (next_stream w0))
    with (tracksOf (addStream ts (say evs w0)) (next_stream (say evs w0))).
  rewrite tracksOf_addStream. fold (firstVideoLive ts). rewrite <- Hn.
  destruct (firstVideoLive ts); reflexivity.
Qed.

Lemma toggleVideo_acquire snap gum w :
  turnsOff snap = false → guarded snap w = false →
  exec (toggleVideo snap gum) w = acquired snap gum w.
Proof.
  intros Hoff Hguard. unfold exec, toggleVideo, try_catch, acquired.
  rewrite (toggleVideoTry_start _ _ Hoff), (startCamera_acquire _ _ _ Hguard).
  cbn zeta.
  destruct (loopEnd gum 0 constraintSets None) as [[[ts|] le]|e]; try reflexivity.
  destruct (firstVideoLive ts); reflexivity.
Qed.

Lemma prepared_trace snap w : trace (prepared snap w) = trace w ++ [EvSleep 100].
Proof. unfold prepared. destruct (videoStream snap); reflexivity. Qed.

Lemma prepared_next_stream snap w : next_stream (prepared snap w) = next_stream w.
Proof. unfold prepared. destruct (videoStream snap); reflexivity. Qed.

Lemma acquired_trace snap gum w :
  trace (acquired snap gum w) = trace w ++ EvSleep 100 :: loopEvents gum 0 constraintSets.
Proof.
  unfold acquired. cbn zeta.
  assert (trace (say (loopEvents gum 0 constraintSets) (prepared snap w))
          = trace w ++ EvSleep 100 :: loopEvents gum 0 constraintSets) as H.
  { unfold say. cbn [trace apply_update constant]. fold (trace (prepared snap w)).
    rewrite prepared_trace, <- app_assoc. reflexivity. }
  destruct (loopEnd gum 0 constraintSets None) as [[[ts|] le]|e]; try exact H.
  destruct (firstVideoLive ts); exact H.
Qed.

Lemma stop_not_live (ts : list Track) : Forall (λ t, isLive t = false) (map stop ts).
Proof. induction ts; constructor; [reflexivity | assumption]. Qed.

Lemma tracksOf_stopped ts w :
  tracksOf ((addStream ts w) <| streams ::= alter (map stop) (next_stream w) |>) (next_stream w)
  = map stop ts.
Proof.
  unfold tracksOf, addStream. cbn [streams apply_update constant].
  rewrite lookup_alter_eq, lookup_insert_eq. reflexivity.
Qed.

(** ** C9: the fallback tiers of camera acquisition *)

Lemma acquired_requests snap gum w :
  filter (λ e, isDeviceRequest e = true) (trace (acquired snap gum w))
  = filter (λ e, isDeviceRequest e = true) (trace w)
    ++ (EvGetUserMedia <$> tiersTried gum 0 constraintSets).
Proof.
  rewrite acquired_trace, filter_app, filter_cons_False by (cbn; discriminate).
  by rewrite loopEvents_requests.
Qed.

Lemma failsOtherwise_stops o : failsOtherwise o → stops o = false.
Proof.
  intros (e & -> & Hn & Hp). unfold stops, isPermissionError.
  apply String.eqb_neq in Hn, Hp. by rewrite Hn, Hp.
Qed.

Lemma permission_denial_stops e :
  err_name e = "NotAllowedError" ∨ err_name e = "PermissionDeniedError" →
  isPermissionError e = true.
Proof. unfold isPermissionError. intros [-> | ->]; reflexivity. Qed.

Lemma acquired_asked snap gum w k :
  k < 4 → stops (gum k) = true → (∀ j, j < k → failsOtherwise (gum j)) →
  askedTiers (S k) w (acquired snap gum w).
Proof.
  intros Hk Hstop Hbefore. unfold askedTiers. rewrite acquired_requests. do 2 f_equal.
  apply (tiersTried_stop gum constraintSets 0 k); [exact Hk | exact Hstop |].
  intros j Hj. by apply failsOtherwise_stops, Hbefore.
Qed.

(** C9.  A call of [toggleVideo] that goes for the camera (it neither turns
    the camera off nor is stopped by the duplicate-request guard) asks
    [getUserMedia] for the tiers high (1280x720 at 30 fps), medium (640x480
    at 15 fps), basic (320x240) and minimal ([video: true]), in this order.
    Let the attempts before attempt [k] fail with errors that are neither
    [NotAllowedError] nor [PermissionDeniedError].  (1) If attempt [k] of
    the four is refused with [NotAllowedError] or [PermissionDeniedError],
    the first [k + 1] tiers were asked for and no tier after them: the
    error is thrown out of the loop as it is and surfaced as the
    permission message, and no handle is kept.  (2) If attempt [k] gives a
    stream, the first [k + 1] tiers were asked for and no tier after them.
    A stream whose first video track is live becomes the camera handle.
    For a stream whose first video track is not live (or that has none),
    the [try] block throws "Camera stream is not live" in a world where all
    tracks of that stream are already stopped, before the [catch] block
    sets the session error; no handle is kept.  (3) If all four attempts
    fail in that way, all four tiers were asked for, the last error is
    thrown and surfaced, and no handle is kept. *)
Theorem C9_camera_tiers_and_abort (snap : State) (gum : nat → GumOutcome) (w : World)
    (k : nat) :
  turnsOff snap = false → guarded snap w = false →
  (∀ j, j < k →
        ∃ e, gum j = GumReject e
             ∧ err_name e ≠ "NotAllowedError" ∧ err_name e ≠ "PermissionDeniedError") →
  let w' := exec (toggleVideo snap gum) w in
  let stream := next_stream w in
  (k < 4 → ∀ e,
     gum k = GumReject e →
     err_name e = "NotAllowedError" ∨ err_name e = "PermissionDeniedError" →
     askedTiers (S k) w w'
     ∧ outcome (toggleVideoTry snap gum) w = Throw e
     ∧ sessionError (st w')
       = Some "Failed to access camera. Please allow camera access in your browser settings."
     ∧ videoStream (st w') = None ∧ videoStreamRef w' = None
     ∧ isVideoOn (st w') = false)
  ∧ (k < 4 → ∀ ts,
     gum k = GumStream ts →
     askedTiers (S k) w w'
     ∧ if firstVideoLive ts then
         outcome (toggleVideoTry snap gum) w = Ok ()
         ∧ videoStream (st w') = Some stream ∧ videoStreamRef w' = Some stream
         ∧ isVideoOn (st w') = true ∧ tracksOf w' stream = ts
       else
         (∃ wt, toggleVideoTry snap gum w = (Throw (mkError "Camera stream is not live"), wt)
                ∧ tracksOf wt stream = map stop ts
                ∧ sessionError (st wt) = sessionError (st w)
                ∧ w' = surfaced (mkError "Camera stream is not live") wt)
         ∧ Forall (λ t, isLive t = false) (tracksOf w' stream)
         ∧ sessionError (st w')
           = Some "Failed to access camera. Please check your camera settings. Error: Camera stream is not live"
         ∧ videoStream (st w') = None ∧ videoStreamRef w' = None
         ∧ isVideoOn (st w') = false)
  ∧ (k = 4 →
     askedTiers 4 w w'
     ∧ ∃ e, gum 3 = GumReject e
            ∧ outcome (toggleVideoTry snap gum) w = Throw e
            ∧ sessionError (st w') = Some (cameraErrorMessage e)
            ∧ videoStream (st w') = None ∧ videoStreamRef w' = None
            ∧ isVideoOn (st w') = false).
Proof.
  intros Hoff Hguard Hbefore w' stream. subst w'.
  assert (∀ j, j < k → failsOtherwise (gum j)) as Hfails by exact Hbefore.
  assert (∀ j, j < k → stops (gum (0 + j)) = false) as Hgo
    by (intros j Hj; by apply failsOtherwise_stops, Hfails).
  rewrite (toggleVideo_acquire _ _ _ Hoff Hguard).
  unfold outcome. rewrite (toggleVideoTry_start _ _ Hoff), (startCamera_acquire _ _ _ Hguard).
  split; [|split].
  - intros Hk e Hg He. pose proof (permission_denial_stops e He) as Hperm.
    split; [apply acquired_asked; [exact Hk | by rewrite Hg | exact Hfails]|].
    unfold acquired. cbn zeta.
    rewrite (loopEnd_denied gum constraintSets 0 k None e Hk Hg Hperm Hgo).
    repeat split. cbn [fst st sessionError surfaced apply_update constant].
    unfold cameraErrorMessage. by rewrite Hperm.
  - intros Hk ts Hg.
    split; [apply acquired_asked; [exact Hk | by rewrite Hg | exact Hfails]|].
    unfold acquired. cbn zeta.
    destruct (loopEnd_success gum constraintSets 0 k None ts Hk Hg Hgo) as [le ->].
    destruct (firstVideoLive ts) eqn:Hlive.
    + repeat split. unfold installed, stream.
      rewrite <- (prepared_next_stream snap w).
      apply (tracksOf_addStream ts (say (loopEvents gum 0 constraintSets) (prepared snap w))).
    + assert (tracksOf
                ((addStream ts (say (loopEvents gum 0 constraintSets) (prepared snap w)))
                   <| streams ::= alter (map stop) (next_stream w) |>) stream = map stop ts)
        as Hstopped.
      { unfold stream. rewrite <- (prepared_next_stream snap w).
        apply (tracksOf_stopped ts (say (loopEvents gum 0 constraintSets) (prepared snap w))). }
      split; [eexists; split; [reflexivity|]; split; [exact Hstopped|]; split; [|reflexivity]|].
      * unfold prepared. destruct (videoStream snap); reflexivity.
      * split; [|repeat split].
        change (tracksOf (surfaced ?e ?x) stream) with (tracksOf x stream).
        rewrite Hstopped. apply stop_not_live.
  - intros ->.
    split.
    { unfold askedTiers. rewrite acquired_requests. do 2 f_equal.
      apply (tiersTried_all gum constraintSets 0). exact Hgo. }
    destruct (Hbefore 0 ltac:(lia)) as (e0 & Hg0 & Hn0 & Hp0).
    destruct (Hbefore 1 ltac:(lia)) as (e1 & Hg1 & Hn1 & Hp1).
    destruct (Hbefore 2 ltac:(lia)) as (e2 & Hg2 & Hn2 & Hp2).
    destruct (Hbefore 3 ltac:(lia)) as (e3 & Hg3 & Hn3 & Hp3).
    exists e3. split; [exact Hg3|].
    assert (∀ e, err_name e ≠ "NotAllowedError" → err_name e ≠ "PermissionDeniedError" →
                 isPermissionError e = false) as Hnot.
    { intros e Hn Hp. unfold isPermissionError.
      apply String.eqb_neq in Hn, Hp. by rewrite Hn, Hp. }
    unfold acquired. cbn zeta. cbn [loopEnd constraintSets].
    rewrite Hg0, (Hnot e0 Hn0 Hp0), Hg1, (Hnot e1 Hn1 Hp1), Hg2, (Hnot e2 Hn2 Hp2),
      Hg3, (Hnot e3 Hn3 Hp3).
    repeat split.
Qed.

(** ** C4: a second call while the camera is on *)

(** What the guard against duplicate requests does: a call whose snapshot
    holds a camera stream that is live performs no device request.  With
    [isVideoOn = false] in the snapshot the call changes nothing; with
    [isVideoOn = true] it is the turn-off. *)
Lemma toggleVideo_live_snapshot
    (snap : State) (gum : nat → GumOutcome) (w : World) (vs : StreamId) :
  videoStream snap = Some vs → active (tracksOf w vs) = true →
  let w' := exec (toggleVideo snap gum) w in
  outcome (toggleVideo snap gum) w = Ok ()
  ∧ trace w' = trace w
  ∧ (isVideoOn snap = false → w' = w)
  ∧ (isVideoOn snap = true → w' = turnedOff vs w).
Proof.
  intros Hvs Hactive w'. subst w'. unfold exec, outcome, toggleVideo, try_catch.
  destruct (isVideoOn snap) eqn:Hon.
  - rewrite (toggleVideoTry_off snap gum vs Hon Hvs).
    change (turnOffVideo vs w) with (Ok (), turnedOff vs w).
    repeat split; intros; try discriminate; reflexivity.
  - rewrite toggleVideoTry_start by (unfold turnsOff; by rewrite Hon).
    rewrite startCamera_guarded by (unfold guarded; by rewrite Hvs).
    repeat split; intros; try discriminate; reflexivity.
Qed.

(** C4 (refuted on the code).  The guard against duplicate requests reads
    the [videoStream] cell of the render that created the closure, not the
    camera that is on.  When the camera is on and live (stream [vs], held
    by the cell and the ref) and [toggleVideo] is called again by a closure
    of a render that has not seen that stream, the call asks
    [getUserMedia] again, for the high tier; the stream it gets replaces
    the handle in the cell, the ref and the video element; the first
    stream is named by none of them any more, and its tracks are still
    live. *)
Theorem C4_stale_render_requests_camera_again
    (snap : State) (gum : nat → GumOutcome) (w : World) (vs : StreamId) (ts : list Track) :
  videoStream (st w) = Some vs → videoStreamRef w = Some vs →
  active (tracksOf w vs) = true →
  vs < next_stream w →
  videoStream snap = None →
  gum 0 = GumStream ts → firstVideoLive ts = true →
  let w' := exec (toggleVideo snap gum) w in
  askedTiers 1 w w'
  ∧ videoStream (st w') = Some (next_stream w) ∧ videoStreamRef w' = Some (next_stream w)
  ∧ isVideoOn (st w') = true
  ∧ tracksOf w' (next_stream w) = ts
  ∧ videoStream (st w') ≠ Some vs ∧ videoStreamRef w' ≠ Some vs
  ∧ videoRef w' ≠ Some (Some vs)
  ∧ tracksOf w' vs = tracksOf w vs
  ∧ active (tracksOf w' vs) = true.
Proof.
  intros Hcell Href Hactive Hfresh Hsnap Hg Hlive w'. subst w'.
  assert (turnsOff snap = false) as Hoff
    by (unfold turnsOff; rewrite Hsnap; by destruct (isVideoOn snap)).
  assert (guarded snap w = false) as Hguard by (unfold guarded; by rewrite Hsnap).
  assert (askedTiers 1 w (exec (toggleVideo snap gum) w)) as Hasked.
  { rewrite (toggleVideo_acquire _ _ _ Hoff Hguard).
    apply acquired_asked; [lia | by rewrite Hg | intros j Hj; lia]. }
  split; [exact Hasked|].
  rewrite (toggleVideo_acquire _ _ _ Hoff Hguard). unfold acquired. cbn zeta.
  cbn [loopEnd constraintSets]. rewrite Hg, Hlive.
  assert (prepared snap w = say [EvSleep 100] w) as Hprep
    by (unfold prepared; by rewrite Hsnap).
  assert (tracksOf
            (installed (next_stream w)
               (addStream ts (say (loopEvents gum 0 constraintSets) (prepared snap w)))) vs
          = tracksOf w vs) as Hsame.
  { rewrite Hprep. clear -Hfresh. destruct w. unfold tracksOf, installed, addStream, say.
    cbn in *. rewrite lookup_insert_ne by lia. reflexivity. }
  split; [reflexivity|]. split; [reflexivity|]. split; [reflexivity|].
  split.
  { unfold installed. rewrite <- (prepared_next_stream snap w).
    apply (tracksOf_addStream ts (say (loopEvents gum 0 constraintSets) (prepared snap w))). }
  split; [cbn; intros [= H]; lia|]. split; [cbn; intros [= H]; lia|].
  split.
  { assert (videoRef (installed (next_stream w)
                         (addStream ts (say (loopEvents gum 0 constraintSets)
                                            (prepared snap w))))
            = setSrcObject (Some (next_stream w)) (videoRef w)) as ->
      by (rewrite Hprep; by destruct w).
    destruct (videoRef w) as [el|]; cbn; [intros [= H]; lia | discriminate]. }
  split; [exact Hsame|]. by rewrite Hsame.
Qed.

Lemma C4_stale_render_requests_camera_again_witness :
  let w' := exec (toggleVideo initialState (λ _, GumStream liveCamera)) cameraOn in
  videoStream (st cameraOn) = Some 0
  ∧ filter (λ e, isDeviceRequest e = true) (trace w')
    = filter (λ e, isDeviceRequest e = true) (trace cameraOn)
      ++ [EvGetUserMedia (VideoSized {| ideal := 1280; max := 1920 |}
                                     {| ideal := 720; max := 1080 |}
                                     (Some {| ideal := 30; max := 60 |}))]
  ∧ videoStream (st w') = Some 1 ∧ videoStreamRef w' = Some 1
  ∧ active (tracksOf w' 0) = true.
Proof.
  pose proof (C4_stale_render_requests_camera_again
                initialState (λ _, GumStream liveCamera) cameraOn 0 liveCamera) as H.
  cbn zeta in H.
  destruct H as (Hasked & Hcell & Href & _ & _ & _ & _ & _ & _ & Hactive);
    try reflexivity.
  - vm_compute. lia.
  - cbn zeta. split; [reflexivity|]. split; [exact Hasked|].
    split; [exact Hcell|]. split; [exact Href | exact Hactive].
Defined.

(** ** C3: ending a session when the backend fails *)

Lemma endVoyageTry_fails snap sid env w :
  sessionEndFails env = true →
  ∃ err, endVoyageTry snap sid env w = (Throw err, say [EvRequest (ReqSessionEnd sid)] w).
Proof.
  unfold sessionEndFails, endVoyageTry. intros Hf.
  rewrite bind_run. unfold emit at 1, modify at 1. cbn iota. rewrite bind_run.
  destruct (end_sessionEnd env) as [e|[[] n t [d|]]]; cbn in Hf |- *;
    try discriminate; by eexists.
Qed.

(** C3 (refuted on the code).  When [handleEndVoyage] is called with a
    session id and the finalize-session call fails, nothing is released:
    the call ends in the world it started from, with only the
    [session-end] request added to the trace and the session cells, the
    panels, the session error and the fallback summary written.  The
    stream store, the three stream handles, the two stream refs, the
    heartbeat timer with its handle and the realtime channel are as
    before; the cleanup of step 3 is not reached and the [catch] block
    does not repeat it. *)
Theorem C3_failed_end_releases_nothing (snap : State) (env : EndEnv) (w : World)
    (sid : string) :
  truthyId (currentSessionId snap) = Some sid →
  sessionEndFails env = true →
  let w' := exec (handleEndVoyage snap env) w in
  (∃ err, w' = say [EvRequest (ReqSessionEnd sid)] (w <| st ::= failedEnd err |>))
  ∧ streams w' = streams w
  ∧ videoStream (st w') = videoStream (st w)
  ∧ screenStream (st w') = screenStream (st w)
  ∧ micStream (st w') = micStream (st w)
  ∧ videoStreamRef w' = videoStreamRef w ∧ screenStreamRef w' = screenStreamRef w
  ∧ timers w' = timers w ∧ heartbeatIntervalRef w' = heartbeatIntervalRef w
  ∧ realtimeChannelRef w' = realtimeChannelRef w
  ∧ currentSessionId (st w') = None ∧ isSessionActive (st w') = false.
Proof.
  intros Hsid Hfail w'.
  assert (∃ err, w' = say [EvRequest (ReqSessionEnd sid)] (w <| st ::= failedEnd err |>))
    as [err Hw'].
  { subst w'. unfold exec, handleEndVoyage. rewrite Hsid.
    repeat (rewrite bind_run; unfold setState at 1, modify at 1; cbn iota).
    unfold try_finally, try_catch.
    match goal with
    | |- context [endVoyageTry snap sid env ?x] =>
        destruct (endVoyageTry_fails snap sid env x Hfail) as [err ->]
    end.
    exists err. destruct w. reflexivity. }
  split; [by exists err|]. rewrite Hw'. repeat split.
Qed.

Lemma C3_failed_end_releases_nothing_witness :
  let w' := exec (handleEndVoyage (st sessionRunning) backendDown) sessionRunning in
  streams w' = streams sessionRunning
  ∧ videoStream (st w') = Some 0
  ∧ active (tracksOf w' 0) = true
  ∧ heartbeatIntervalRef w' = Some 2
  ∧ currentSessionId (st w') = None.
Proof.
  pose proof (C3_failed_end_releases_nothing (st sessionRunning) backendDown sessionRunning
                "s1" eq_refl eq_refl) as (_ & Hs & Hv & _ & _ & _ & _ & _ & Hh & _ & Hc & _).
  cbn zeta in *. rewrite Hs, Hv, Hh, Hc. repeat split.
Defined.

(** ** The sibling path: a successful end releases the media *)

Lemma establishes_bind {A B} P Q (m : M A) (f : A → M B) :
  establishes P m Q → (∀ a, preserves Q (f a)) → establishes P (m ≫= f) Q.
Proof.
  intros Hm Hf w H. specialize (Hm w H).
  unfold exec, mbind, M_bind in *. destruct (m w) as [[a|e] w']; cbn in *.
  - exact (Hf a w' Hm).
  - exact Hm.
Qed.

Lemma released_stopTracks s s' w :
  (s = s' ∨ released s w) → released s (w <| streams ::= alter (map stop) s' |>).
Proof.
  unfold released, tracksOf.
  change (streams (w <| streams ::= alter (map stop) s' |>))
    with (alter (map stop) s' (streams w)).
  intros H. destruct (decide (s = s')) as [->|Hne].
  - rewrite lookup_alter_eq. destruct (streams w !! s'); cbn; [apply stop_not_live | done].
  - rewrite lookup_alter_ne by done. by destruct H.
Qed.

Lemma released_stopVideoTracks s s' w :
  released s w →
  released s (w <| streams ::= alter (map (λ t, if isVideo t then stop t else t)) s' |>).
Proof.
  unfold released, tracksOf.
  change (streams (w <| streams ::= alter (map (λ t, if isVideo t then stop t else t)) s' |>))
    with (alter (map (λ t, if isVideo t then stop t else t)) s' (streams w)).
  intros H. destruct (decide (s = s')) as [->|Hne].
  - rewrite lookup_alter_eq. destruct (streams w !! s') as [ts|]; [|done].
    change (Forall (λ t, isLive t = false)
                   (map (λ t, if isVideo t then stop t else t) ts)).
    change (Forall (λ t, isLive t = false) ts) in H.
    apply List.Forall_map. eapply List.Forall_impl; [|exact H].
    intros t Ht. cbn beta. destruct (isVideo t); [reflexivity | exact Ht].
  - by rewrite lookup_alter_ne.
Qed.

Ltac released_writes :=
  try (apply preserves_setTimeout; intros ? ? ? ?);
  try (apply preserves_setInterval; intros ? ? ? ?);
  first [ assumption
        | (apply released_stopTracks; right; assumption)
        | (apply released_stopVideoTracks; assumption) ].

Lemma stopHeartbeat_released s : preserves (released s) stopHeartbeat.
Proof. unfold stopHeartbeat. preserves_auto; released_writes. Qed.

Lemma endVoyageSummary_released s snap sid d answer :
  preserves (released s) (endVoyageSummary snap sid d answer).
Proof. unfold endVoyageSummary. preserves_auto; released_writes. Qed.

Lemma cleanupMediaStreams_releases snap s :
  holds snap s → establishes (λ _, True) (cleanupMediaStreams snap) (released s).
Proof.
  intros Hs w _. unfold exec, cleanupMediaStreams, holds in *.
  destruct (videoStream snap) as [vs|], (screenStream snap) as [ss|],
    (micStream snap) as [ms|]; cbn;
    destruct Hs as [H|[H|H]]; simplify_eq;
    unfold say; cbn [streams apply_update constant];
    repeat first [ by apply released_stopTracks; left
                 | apply released_stopTracks; right ].
Qed.

Lemma establishes_try_catch {A} P Q (m : M A) (h : JsError → M A) :
  establishes P m Q → (∀ e, preserves Q (h e)) → establishes P (try_catch m h) Q.
Proof.
  intros Hm Hh w H. specialize (Hm w H).
  unfold exec, try_catch in *. destruct (m w) as [[a|e] w']; cbn in *.
  - exact Hm.
  - exact (Hh e w' Hm).
Qed.

Lemma establishes_try_finally {A} P Q (m : M A) (f : M unit) :
  establishes P m Q → preserves Q f → establishes P (try_finally m f) Q.
Proof.
  intros Hm Hf w H. specialize (Hm w H).
  unfold exec, try_finally in *. destruct (m w) as [r w']; cbn in *.
  specialize (Hf w' Hm). unfold exec in Hf.
  destruct (f w') as [[[]|e] w'']; exact Hf.
Qed.

Lemma endVoyageTry_success snap sid env w r d :
  end_sessionEnd env = FetchResponds r → ok r = true → json r = Some d →
  ∃ w3, endVoyageTry snap sid env w
        = (cleanupMediaStreams snap;;
           stopHeartbeat;;
           endVoyageSummary snap sid d (end_summary env)) w3.
Proof.
  intros Hr Hok Hd. unfold endVoyageTry.
  rewrite bind_run. unfold emit at 1, modify at 1. cbn iota.
  rewrite bind_run, Hr. cbn [fetched mret M_ret]. rewrite Hok. cbn [negb].
  rewrite bind_run. unfold readJson. rewrite Hd. cbn [mret M_ret].
  rewrite bind_run.
  destruct (triggerSplineSessionAnimation_run AnimEnd (end_animation env)
              (say [EvRequest (ReqSessionEnd sid)] w)) as (url & n & ->).
  rewrite bind_run.
  destruct (cleanupRealtimeChannel (say [EvRequest (ReqSplineProxy url n)]
              (say [EvRequest (ReqSessionEnd sid)] w))) as [[[]|e] w3] eqn:Hc.
  - by exists w3.
  - exfalso. revert Hc. unfold cleanupRealtimeChannel. rewrite bind_run. unfold get at 1.
    cbn iota. destruct (realtimeChannelRef _); discriminate.
Qed.

(** On the path where the finalize-session call succeeds, every stream
    that the snapshot of [handleEndVoyage] knows has all its tracks stopped
    when the call ends, whatever happens to the summary request. *)
Lemma handleEndVoyage_success_releases snap env w sid r d s :
  truthyId (currentSessionId snap) = Some sid →
  end_sessionEnd env = FetchResponds r → ok r = true → json r = Some d →
  holds snap s →
  released s (exec (handleEndVoyage snap env) w).
Proof.
  intros Hsid Hr Hok Hd Hs. unfold exec, handleEndVoyage. rewrite Hsid.
  repeat (rewrite bind_run; unfold setState at 1, modify at 1; cbn iota).
  match goal with
  | |- context [try_finally _ _ ?x] =>
      destruct (endVoyageTry_success snap sid env x r d Hr Hok Hd) as [w3 Hw3];
      generalize dependent x; intros w0 Hw3
  end.
  assert (try_finally (try_catch (endVoyageTry snap sid env) endVoyageCatch)
            (setState (λ s, s <| isLoadingSummary := false |>)) w0
          = try_finally
              (try_catch (cleanupMediaStreams snap;;
                          stopHeartbeat;;
                          endVoyageSummary snap sid d (end_summary env)) endVoyageCatch)
              (setState (λ s, s <| isLoadingSummary := false |>)) w3) as ->.
  { unfold try_finally, try_catch. by rewrite Hw3. }
  refine (establishes_try_finally (λ _, True) (released s) _ _ _ _ w3 I).
  - apply establishes_try_catch.
    + apply establishes_bind; [by apply cleanupMediaStreams_releases|]. intros _.
      apply preserves_bind; [apply stopHeartbeat_released|]. intros _.
      apply endVoyageSummary_released.
    + intros e. unfold endVoyageCatch. preserves_auto; released_writes.
  - preserves_auto; released_writes.
Qed.

(** ** The heartbeat timer *)

Lemma heartbeat_inv_view w w' :
  heartbeat_view w' = heartbeat_view w → heartbeat_inv w → heartbeat_inv w'.
Proof.
  unfold heartbeat_view. intros [= Ht Hh Ha] [H1 H2 H3].
  split; unfold intervals in *; rewrite ?Ht, ?Hh, ?Ha; assumption.
Qed.

Lemma heartbeat_inv_timeout w t n :
  isInterval t = false → heartbeat_inv w →
  heartbeat_inv (w <| timers ::= (λ l, l ++ [t]) |> <| next_timer := n |>).
Proof.
  intros Ht [H1 H2 H3].
  assert (intervals (w <| timers ::= (λ l, l ++ [t]) |> <| next_timer := n |>) = intervals w)
    as Hi.
  { unfold intervals. cbn [timers apply_update constant]. fold (timers w).
    rewrite filter_app, filter_cons_False by (by rewrite Ht). cbn. by rewrite app_nil_r. }
  split; rewrite ?Hi; assumption.
Qed.

Ltac heartbeat_writes :=
  try (apply preserves_newStream; intros ? ? ? ?);
  first [ assumption
        | match goal with
          | H : heartbeat_inv ?w |- heartbeat_inv _ =>
              apply (heartbeat_inv_view w); [reflexivity | exact H]
          end ].

Lemma triggerSplineDriftScene_heartbeat_inv answer b retries :
  preserves heartbeat_inv (triggerSplineDriftScene answer b retries).
Proof.
  intros w H. unfold exec. rewrite triggerSplineDriftScene_run.
  apply (heartbeat_inv_view w); [reflexivity | exact H].
Qed.

Lemma tryConstraintSets_heartbeat_inv gum cs : ∀ i lastError,
  preserves heartbeat_inv (tryConstraintSets gum i cs lastError).
Proof.
  intros i lastError w H. unfold exec. rewrite tryConstraintSets_run.
  destruct (loopEnd gum i cs lastError) as [[[ts|] le]|e];
    (apply (heartbeat_inv_view w); [reflexivity | exact H]).
Qed.

Lemma toggleVideo_heartbeat_inv snap gum : preserves heartbeat_inv (toggleVideo snap gum).
Proof.
  unfold toggleVideo, toggleVideoTry, turnOffVideo, startCamera, toggleVideoCatch.
  preserves_auto; try apply tryConstraintSets_heartbeat_inv; heartbeat_writes.
Qed.

Lemma cleanupMediaStreams_heartbeat_inv snap :
  preserves heartbeat_inv (cleanupMediaStreams snap).
Proof. unfold cleanupMediaStreams. preserves_auto; heartbeat_writes. Qed.

Lemma sendHeartbeat_heartbeat_inv snap sid act env :
  preserves heartbeat_inv (sendHeartbeat snap sid act env).
Proof.
  unfold sendHeartbeat, captureCameraFrame, captureScreenFrame, captureStream.
  preserves_auto; try apply triggerSplineDriftScene_heartbeat_inv; heartbeat_writes.
Qed.

Lemma startHeartbeat_run snap sid act w :
  startHeartbeat snap sid act w
  = match heartbeatIntervalRef w with
    | Some _ => (Ok (), w)
    | None => (Ok (), started snap sid act w)
    end.
Proof.
  unfold startHeartbeat. rewrite bind_run. unfold get at 1. cbn iota.
  destruct (heartbeatIntervalRef w); [reflexivity|].
  destruct w. unfold started, warmupTimer, heartbeatTimer.
  unfold mbind, M_bind, setState, modify, setTimeout, setInterval. cbn.
  by rewrite <- app_assoc.
Qed.

Lemma stopHeartbeat_run w :
  stopHeartbeat w
  = match heartbeatIntervalRef w with
    | Some id => (Ok (), stopped id w)
    | None => (Ok (), w)
    end.
Proof.
  unfold stopHeartbeat. rewrite bind_run. unfold get at 1. cbn iota.
  destruct (heartbeatIntervalRef w); reflexivity.
Qed.

Lemma startHeartbeat_heartbeat_inv snap sid act :
  preserves heartbeat_inv (startHeartbeat snap sid act).
Proof.
  intros w Hinv. unfold exec. rewrite startHeartbeat_run.
  destruct (heartbeatIntervalRef w) as [id|] eqn:Hid; [exact Hinv|].
  destruct Hinv as [H1 H2 H3]. rewrite Hid in H1. cbn [snd].
  assert (intervals (started snap sid act w) = [heartbeatTimer snap sid act w]) as Hi.
  { unfold intervals, started. cbn [timers apply_update constant]. fold (timers w).
    rewrite filter_app. fold (intervals w). rewrite H1. reflexivity. }
  split; [| reflexivity |]; rewrite ?Hi.
  - eexists. split; reflexivity.
  - repeat constructor.
Qed.

Lemma intervals_filter (P : Timer → Prop) `{∀ t, Decision (P t)} (l : list Timer) :
  filter (λ t, isInterval t = true) (filter P l)
  = filter P (filter (λ t, isInterval t = true) l).
Proof.
  induction l as [|t l IH]; [reflexivity|].
  rewrite !filter_cons. destruct (decide (P t)), (decide (isInterval t = true));
    rewrite ?filter_cons; repeat case_decide; try done; by rewrite IH.
Qed.

Lemma stopHeartbeat_heartbeat_inv : preserves heartbeat_inv stopHeartbeat.
Proof.
  intros w Hinv. unfold exec. rewrite stopHeartbeat_run.
  destruct (heartbeatIntervalRef w) as [id|] eqn:Hid; [|exact Hinv].
  destruct Hinv as [H1 H2 H3]. rewrite Hid in H1. destruct H1 as (t & Ht & Hidt).
  cbn [snd].
  assert (intervals (stopped id w) = []) as Hi.
  { unfold intervals, stopped. cbn [timers apply_update constant]. fold (timers w).
    rewrite intervals_filter. fold (intervals w). rewrite Ht.
    rewrite filter_cons_False; [reflexivity|]. intros Hne. by apply Hne. }
  split; [| reflexivity |]; rewrite ?Hi; [reflexivity | constructor].
Qed.

Lemma cleanupRealtimeChannel_heartbeat_inv : preserves heartbeat_inv cleanupRealtimeChannel.
Proof. unfold cleanupRealtimeChannel. preserves_auto; heartbeat_writes. Qed.

Lemma handleEndVoyage_heartbeat_inv snap env : preserves heartbeat_inv (handleEndVoyage snap env).
Proof.
  unfold handleEndVoyage, endVoyageTry, endVoyageSummary, endVoyageCatch,
    triggerSplineSessionAnimation.
  preserves_auto;
    try apply cleanupRealtimeChannel_heartbeat_inv;
    try apply cleanupMediaStreams_heartbeat_inv;
    try apply stopHeartbeat_heartbeat_inv;
    heartbeat_writes.
Qed.

Lemma handleContinueWorking_heartbeat_inv answer :
  preserves heartbeat_inv (handleContinueWorking answer).
Proof.
  intros w H. unfold exec. rewrite handleContinueWorking_run. cbn [snd]. unfold recovered.
  apply heartbeat_inv_timeout; [reflexivity|].
  apply (heartbeat_inv_view w); [reflexivity | exact H].
Qed.

Lemma isInterval_due t f : isInterval (t <| due ::= f |>) = isInterval t.
Proof. reflexivity. Qed.

Lemma reschedule_intervals id (l : list Timer) :
  filter (λ t, isInterval t = true) (reschedule id l)
  = (λ t, if (timer_id t =? id)%nat
          then t <| due ::= (λ d, d + default 0 (recurring t))%N |> else t)
    <$> filter (λ t, isInterval t = true) l.
Proof.
  unfold reschedule. induction l as [|t l IH]; [reflexivity|]. cbn [omap list_omap].
  rewrite (filter_cons _ t l).
  assert (isInterval t = negb (isNull (recurring t))) as Hi by reflexivity.
  destruct (recurring t) as [p|] eqn:Hp; cbn [isNull negb] in Hi;
    destruct (timer_id t =? id)%nat eqn:Hid; cbn [mbind option_bind];
    rewrite ?filter_cons, ?isInterval_due; repeat case_decide; try congruence;
    cbn [fmap list_fmap]; rewrite ?Hid, ?Hp, ?IH; reflexivity.
Qed.

Lemma heartbeat_inv_reschedule id w :
  heartbeat_inv w → heartbeat_inv (w <| timers ::= reschedule id |>).
Proof.
  intros [H1 H2 H3].
  assert (intervals (w <| timers ::= reschedule id |>)
          = (λ t, if (timer_id t =? id)%nat
                  then t <| due ::= (λ d, d + default 0 (recurring t))%N |> else t)
            <$> intervals w) as Hi by apply reschedule_intervals.
  split; [| exact H2 |]; rewrite ?Hi.
  - change (heartbeatIntervalRef (w <| timers ::= reschedule id |>))
      with (heartbeatIntervalRef w).
    destruct (heartbeatIntervalRef w) as [hid|].
    + destruct H1 as (t & -> & Ht). eexists. split; [reflexivity|].
      destruct (timer_id t =? id)%nat; exact Ht.
    + by rewrite H1.
  - apply Forall_fmap. eapply Forall_impl; [exact H3|].
    intros t Ht. cbn. destruct (timer_id t =? id)%nat; exact Ht.
Qed.

Lemma fireTimer_heartbeat_inv id env : preserves heartbeat_inv (fireTimer id env).
Proof.
  unfold fireTimer, runCallback.
  preserves_auto; try apply sendHeartbeat_heartbeat_inv;
    try (by apply heartbeat_inv_reschedule); heartbeat_writes.
Qed.

Lemma perform_heartbeat_inv a : preserves heartbeat_inv (perform a).
Proof.
  destruct a; cbn [perform].
  - apply toggleVideo_heartbeat_inv.
  - apply cleanupMediaStreams_heartbeat_inv.
  - apply sendHeartbeat_heartbeat_inv.
  - apply startHeartbeat_heartbeat_inv.
  - apply stopHeartbeat_heartbeat_inv.
  - apply handleContinueWorking_heartbeat_inv.
  - apply handleEndVoyage_heartbeat_inv.
  - unfold setupRealtimeChannel. preserves_auto; heartbeat_writes.
  - apply preserves_ret.
  - unfold on_session_ended. preserves_auto; heartbeat_writes.
  - apply cleanupRealtimeChannel_heartbeat_inv.
  - unfold acknowledgeDrift. preserves_auto; heartbeat_writes.
  - apply fireTimer_heartbeat_inv.
  - unfold advance. preserves_auto; heartbeat_writes.
Qed.

(** ** What every action keeps, a history keeps *)

Lemma run_app l l' w : run (l ++ l') w = run l' (run l w).
Proof. unfold run. apply foldl_app. Qed.

Lemma run_preserves (P : World → Prop) :
  (∀ a, preserves P (perform a)) → ∀ l w, P w → P (run l w).
Proof.
  intros HP l. induction l as [|a l IH]; intros w Hw; [exact Hw|].
  cbn [run foldl]. apply IH. exact (HP a w Hw).
Qed.

Lemma initial_heartbeat_inv user : heartbeat_inv (initialWorld user).
Proof. split; [reflexivity | reflexivity | constructor]. Qed.

(** ** Freshness of timer identifiers *)

Lemma timers_fresh_view w w' :
  timers w' = timers w → next_timer w' = next_timer w → timers_fresh w → timers_fresh w'.
Proof. unfold timers_fresh. intros -> ->. done. Qed.

Ltac fresh_writes :=
  try (apply preserves_newStream; intros ? ? ? ?);
  first [ assumption
        | match goal with
          | H : timers_fresh ?w |- timers_fresh _ =>
              apply (timers_fresh_view w); [reflexivity | reflexivity | exact H]
          end ].

Lemma timers_fresh_add w (l' : list Timer) n :
  Forall (λ t, timer_id t < n) l' → (next_timer w ≤ n)%nat → timers_fresh w →
  timers_fresh (w <| timers ::= (λ l, l ++ l') |> <| next_timer := n |>).
Proof.
  unfold timers_fresh. intros Hl' Hn H. cbn [timers next_timer apply_update constant].
  fold (timers w). apply Forall_app. split; [|exact Hl'].
  eapply Forall_impl; [exact H|]. cbn beta. intros t Ht. unfold constant. lia.
Qed.

Lemma timers_fresh_sub w (f : list Timer → list Timer) :
  (∀ l, Forall (λ t, timer_id t < next_timer w) l →
        Forall (λ t, timer_id t < next_timer w) (f l)) →
  timers_fresh w → timers_fresh (w <| timers ::= f |>).
Proof. unfold timers_fresh. intros Hf H. exact (Hf _ H). Qed.

Lemma reschedule_bound id n (l : list Timer) :
  Forall (λ t, timer_id t < n) l → Forall (λ t, timer_id t < n) (reschedule id l).
Proof.
  unfold reschedule. induction 1 as [|t l Ht Hl IH]; [constructor|]. cbn [omap list_omap].
  destruct (timer_id t =? id)%nat; [destruct (recurring t)|]; cbn [mbind option_bind];
    try constructor; assumption.
Qed.

Lemma triggerSplineDriftScene_fresh answer b retries :
  preserves timers_fresh (triggerSplineDriftScene answer b retries).
Proof.
  intros w H. unfold exec. rewrite triggerSplineDriftScene_run.
  apply (timers_fresh_view w); [reflexivity | reflexivity | exact H].
Qed.

Lemma tryConstraintSets_fresh gum cs i lastError :
  preserves timers_fresh (tryConstraintSets gum i cs lastError).
Proof.
  intros w H. unfold exec. rewrite tryConstraintSets_run.
  destruct (loopEnd gum i cs lastError) as [[[ts|] le]|e];
    (apply (timers_fresh_view w); [reflexivity | reflexivity | exact H]).
Qed.

Lemma sendHeartbeat_fresh snap sid act env :
  preserves timers_fresh (sendHeartbeat snap sid act env).
Proof.
  unfold sendHeartbeat, captureCameraFrame, captureScreenFrame, captureStream.
  preserves_auto; try apply triggerSplineDriftScene_fresh; fresh_writes.
Qed.

Lemma cleanupMediaStreams_fresh snap : preserves timers_fresh (cleanupMediaStreams snap).
Proof. unfold cleanupMediaStreams. preserves_auto; fresh_writes. Qed.

Lemma cleanupRealtimeChannel_fresh : preserves timers_fresh cleanupRealtimeChannel.
Proof. unfold cleanupRealtimeChannel. preserves_auto; fresh_writes. Qed.

Lemma startHeartbeat_fresh snap sid act : preserves timers_fresh (startHeartbeat snap sid act).
Proof.
  intros w H. unfold exec. rewrite startHeartbeat_run.
  destruct (heartbeatIntervalRef w); [exact H|]. cbn [snd]. unfold started.
  apply (timers_fresh_view
           ((w <| st ::= (λ s, s <| isHeartbeatActive := true |>) |>)
              <| timers ::= (λ l, l ++ [warmupTimer snap sid act w; heartbeatTimer snap sid act w]) |>
              <| next_timer := S (S (next_timer w)) |>)); [reflexivity | reflexivity |].
  apply timers_fresh_add.
  - repeat constructor; cbn; lia.
  - change (next_timer w ≤ S (S (next_timer w)))%nat. lia.
  - apply (timers_fresh_view w); [reflexivity | reflexivity | exact H].
Qed.

Lemma stopHeartbeat_fresh : preserves timers_fresh stopHeartbeat.
Proof.
  intros w H. unfold exec. rewrite stopHeartbeat_run.
  destruct (heartbeatIntervalRef w) as [id|]; [|exact H]. cbn [snd]. unfold stopped.
  apply (timers_fresh_view (w <| timers ::= filter (λ t, timer_id t ≠ id) |>));
    [reflexivity | reflexivity |].
  apply timers_fresh_sub; [|exact H]. intros l Hl.
  induction Hl as [|t l Ht Hl IH]; [constructor|].
  rewrite filter_cons. case_decide; [constructor|]; assumption.
Qed.

Lemma handleContinueWorking_fresh answer :
  preserves timers_fresh (handleContinueWorking answer).
Proof.
  intros w H. unfold exec. rewrite handleContinueWorking_run. cbn [snd]. unfold recovered.
  apply timers_fresh_add.
  - repeat constructor; cbn; lia.
  - change (next_timer w ≤ S (next_timer w))%nat. lia.
  - apply (timers_fresh_view w); [reflexivity | reflexivity | exact H].
Qed.

Lemma handleEndVoyage_fresh snap env : preserves timers_fresh (handleEndVoyage snap env).
Proof.
  unfold handleEndVoyage, endVoyageTry, endVoyageSummary, endVoyageCatch,
    triggerSplineSessionAnimation.
  preserves_auto;
    try apply cleanupRealtimeChannel_fresh;
    try apply cleanupMediaStreams_fresh;
    try apply stopHeartbeat_fresh;
    fresh_writes.
Qed.

Lemma fireTimer_fresh id env : preserves timers_fresh (fireTimer id env).
Proof.
  unfold fireTimer, runCallback.
  preserves_auto; try apply sendHeartbeat_fresh;
    try (apply timers_fresh_sub; [apply reschedule_bound | assumption]); fresh_writes.
Qed.

Lemma perform_fresh a : preserves timers_fresh (perform a).
Proof.
  destruct a; cbn [perform].
  - unfold toggleVideo, toggleVideoTry, turnOffVideo, startCamera, toggleVideoCatch.
    preserves_auto; try apply tryConstraintSets_fresh; fresh_writes.
  - apply cleanupMediaStreams_fresh.
  - apply sendHeartbeat_fresh.
  - apply startHeartbeat_fresh.
  - apply stopHeartbeat_fresh.
  - apply handleContinueWorking_fresh.
  - apply handleEndVoyage_fresh.
  - unfold setupRealtimeChannel. preserves_auto; fresh_writes.
  - apply preserves_ret.
  - unfold on_session_ended. preserves_auto; fresh_writes.
  - apply cleanupRealtimeChannel_fresh.
  - unfold acknowledgeDrift. preserves_auto; fresh_writes.
  - apply fireTimer_fresh.
  - unfold advance. preserves_auto; fresh_writes.
Qed.

(** ** The handle stays until the heartbeat is stopped *)

Lemma hasHandle_view w w' :
  heartbeatIntervalRef w' = heartbeatIntervalRef w → hasHandle w → hasHandle w'.
Proof. unfold hasHandle. by intros ->. Qed.

Ltac handle_writes :=
  first [ assumption
        | match goal with
          | H : hasHandle ?w |- hasHandle _ =>
              apply (hasHandle_view w); [reflexivity | exact H]
          end ].

Lemma triggerSplineDriftScene_hasHandle answer b n :
  preserves hasHandle (triggerSplineDriftScene answer b n).
Proof.
  intros w H. unfold exec. rewrite triggerSplineDriftScene_run.
  apply (hasHandle_view w); [reflexivity | exact H].
Qed.

Lemma sendHeartbeat_hasHandle snap sid act env :
  preserves hasHandle (sendHeartbeat snap sid act env).
Proof.
  unfold sendHeartbeat, captureCameraFrame, captureScreenFrame, captureStream.
  preserves_auto; try apply triggerSplineDriftScene_hasHandle; handle_writes.
Qed.

Lemma perform_hasHandle a :
  stopsHeartbeat a = false → preserves hasHandle (perform a).
Proof.
  destruct a; cbn [perform stopsHeartbeat]; intros Ha; try discriminate.
  - assert (∀ cs i le, preserves hasHandle (tryConstraintSets gum i cs le)) as Hl.
    { intros cs i le w H. unfold exec. rewrite tryConstraintSets_run.
      destruct (loopEnd gum i cs le) as [[[ts|] le']|e];
        (apply (hasHandle_view w); [reflexivity | exact H]). }
    unfold toggleVideo, toggleVideoTry, turnOffVideo, startCamera, toggleVideoCatch.
    preserves_auto; try apply Hl; handle_writes.
  - unfold cleanupMediaStreams. preserves_auto; handle_writes.
  - apply sendHeartbeat_hasHandle.
  - intros w H. unfold exec. rewrite startHeartbeat_run.
    destruct (heartbeatIntervalRef w); [exact H | discriminate].
  - intros w H. unfold exec. rewrite handleContinueWorking_run.
    apply (hasHandle_view w); [reflexivity | exact H].
  - unfold setupRealtimeChannel. preserves_auto; handle_writes.
  - apply preserves_ret.
  - unfold on_session_ended. preserves_auto; handle_writes.
  - unfold cleanupRealtimeChannel. preserves_auto; handle_writes.
  - unfold acknowledgeDrift. preserves_auto; handle_writes.
  - unfold fireTimer, runCallback.
    preserves_auto; try apply sendHeartbeat_hasHandle; handle_writes.
  - unfold advance. preserves_auto; handle_writes.
Qed.

Lemma run_hasHandle l : ∀ w,
  Forall (λ a, stopsHeartbeat a = false) l → hasHandle w → hasHandle (run l w).
Proof.
  induction l as [|a l IH]; intros w Hl Hw; [exact Hw|].
  inversion Hl as [|? ? Ha Hl']; subst. cbn [run foldl].
  apply IH; [exact Hl'|]. by apply perform_hasHandle.
Qed.

(** ** Heartbeats that get through *)

Lemma captureStream_outcome tw th fw fh env w w' :
  (captureStream tw th fw fh env w).1 = (captureStream tw th fw fh env w').1.
Proof.
  unfold captureStream, mbind, M_bind.
  destruct (cap_play env); [reflexivity|].
  destruct (finalSize _ _ _ _) as [fw' fh']. cbn [mret M_ret].
  destruct (cap_context2d env); [|reflexivity].
  destruct (cap_drawImage env); reflexivity.
Qed.

Lemma captured_camera_ref env w w' :
  videoStreamRef w = videoStreamRef w' →
  captured (captureCameraFrame env) w = captured (captureCameraFrame env) w'.
Proof.
  unfold captured, outcome, captureCameraFrame. rewrite !bind_run. unfold get.
  intros <-. destruct (videoStreamRef w); [|reflexivity]. unfold try_catch.
  pose proof (captureStream_outcome 640 360 640 480 env w w') as H.
  destruct (captureStream _ _ _ _ env w) as [[b|e] w0],
    (captureStream _ _ _ _ env w') as [[b'|e'] w0']; cbn in *; congruence.
Qed.

Lemma captured_screen_ref env w w' :
  screenStreamRef w = screenStreamRef w' →
  captured (captureScreenFrame env) w = captured (captureScreenFrame env) w'.
Proof.
  unfold captured, outcome, captureScreenFrame. rewrite !bind_run. unfold get.
  intros <-. destruct (screenStreamRef w); [|reflexivity]. unfold try_catch.
  pose proof (captureStream_outcome 1008 567 1280 720 env w w') as H.
  destruct (captureStream _ _ _ _ env w) as [[b|e] w0],
    (captureStream _ _ _ _ env w') as [[b'|e'] w0']; cbn in *; congruence.
Qed.

(** Whether a heartbeat gets through depends on the world only through
    the two stream refs. *)
Lemma delivered_refs sid act env w w' data :
  videoStreamRef w = videoStreamRef w' → screenStreamRef w = screenStreamRef w' →
  delivered sid act env w data → delivered sid act env w' data.
Proof.
  intros Hv Hs [H1 H2 H3 H4 H5]. split; try assumption.
  by rewrite <- (captured_camera_ref _ w w' Hv), <- (captured_screen_ref _ w w' Hs).
Qed.

Lemma sendHeartbeat_delivered_trace snap sid act env w data :
  delivered sid act env w data →
  ∃ cameraImage screenImage rest,
    trace (exec (sendHeartbeat snap sid act env) w)
    = trace w ++ EvRequest (ReqHeartbeat sid cameraImage screenImage) :: rest
    ∧ (cameraImage ≠ None ∨ screenImage ≠ None).
Proof.
  intros [Hsid -> Hframe Henc Hans].
  unfold sendHeartbeat, exec.
  apply String.eqb_neq in Hsid. rewrite Hsid. cbn [orb negb].
  unfold captured, outcome in Hframe.
  unfold try_catch, mbind, M_bind.
  destruct (captureCameraFrame_total (hb_camera env) w) as [cam Hcam].
  destruct (captureScreenFrame_total (hb_screen env) w) as [scr Hscr].
  rewrite Hcam, Hscr in *. cbn [fst] in Hframe.
  assert (isNull cam && isNull scr = false) as ->.
  { destruct cam, scr; try reflexivity. destruct Hframe; congruence. }
  unfold blobToBase64Opt, blobToBase64, mbind, M_bind.
  destruct cam as [cam|];
    [pose proof (Henc cam); destruct (hb_readAsDataURL env cam) as [camImage|]; [|congruence]|];
    cbn [mret M_ret].
  all: destruct scr as [scr|];
    [pose proof (Henc scr); destruct (hb_readAsDataURL env scr) as [scrImage|]; [|congruence]|];
    cbn [mret M_ret].
  all: unfold emit, modify; rewrite Hans; cbn [snd].
  all: try (destruct Hframe; congruence).
  all: do 2 eexists.
  all: destruct (is_drifting data && negb (isDrifting snap));
    [ unfold setState, modify; rewrite triggerSplineDriftScene_run; cbn [snd];
      eexists; split; [|by (left + right)];
      unfold say; cbn [trace apply_update constant]; rewrite <- app_assoc; reflexivity
    | exists []; split; [reflexivity | by (left + right)] ].
Qed.

(** ** Looking up a timer that was just scheduled *)

Lemma findTimer_skip id (l l' : list Timer) :
  Forall (λ t, timer_id t ≠ id) l → findTimer id (l ++ l') = findTimer id l'.
Proof.
  unfold findTimer. induction 1 as [|t l Ht Hl IH]; [reflexivity|]. cbn.
  destruct (Nat.eqb_spec (timer_id t) id); [done | exact IH].
Qed.

Lemma filter_keeps_older id (l : list Timer) :
  Forall (λ t, timer_id t < id) l → filter (λ t, timer_id t ≠ id) l = l.
Proof.
  induction 1 as [|t l Ht Hl IH]; [reflexivity|].
  rewrite filter_cons_True by lia. by rewrite IH.
Qed.

Lemma reschedule_keeps_older id (l : list Timer) :
  Forall (λ t, timer_id t < id) l → reschedule id l = l.
Proof.
  unfold reschedule. induction 1 as [|t l Ht Hl IH]; [reflexivity|]. cbn [omap list_omap].
  destruct (Nat.eqb_spec (timer_id t) id); [lia|]. cbn [mbind option_bind].
  f_equal. exact IH.
Qed.

(** ** C5: what [stopHeartbeat] leaves scheduled *)

Lemma start_then_stop snap sid act w :
  heartbeatIntervalRef w = None →
  exec stopHeartbeat (exec (startHeartbeat snap sid act) w)
  = stopped (S (next_timer w)) (started snap sid act w).
Proof.
  intros Hnone. unfold exec. rewrite startHeartbeat_run, Hnone. cbn [snd].
  rewrite stopHeartbeat_run. reflexivity.
Qed.

Lemma timers_start_then_stop snap sid act w :
  timers_fresh w →
  timers (stopped (S (next_timer w)) (started snap sid act w))
  = timers w ++ [warmupTimer snap sid act w].
Proof.
  intros Hfresh.
  change (timers (stopped (S (next_timer w)) (started snap sid act w)))
    with (filter (λ t, timer_id t ≠ S (next_timer w))
            (timers w ++ [warmupTimer snap sid act w; heartbeatTimer snap sid act w])).
  rewrite filter_app, filter_keeps_older.
  - rewrite filter_cons_True by (cbn; lia).
    rewrite filter_cons_False by (cbn; lia). reflexivity.
  - eapply Forall_impl; [exact Hfresh|]. cbn beta. lia.
Qed.

(** C5 (refuted on the code).  [stopHeartbeat] clears the interval and the
    handle and marks the heartbeat inactive, but the one-shot timer that
    [startHeartbeat] scheduled for the first heartbeat is not cleared: when
    the heartbeat is stopped within 8 s of its start, that timer is still
    in the queue, and when it comes due it runs [sendHeartbeat] with the
    session id and the active flag it captured; with a frame to send, a
    heartbeat request for that session goes out although the handle is
    absent and [isHeartbeatActive] is false. *)
Theorem C5_first_heartbeat_outlives_stop (w : World) (snap : State) (sid : string)
    (env : HeartbeatEnv) (data : HeartbeatData) :
  timers_fresh w → heartbeatIntervalRef w = None →
  delivered sid true env w data →
  let w1 := exec stopHeartbeat (exec (startHeartbeat snap sid true) w) in
  let w2 := exec (fireTimer (next_timer w) env) (exec (advance 8000) w1) in
  heartbeatIntervalRef w1 = None
  ∧ isHeartbeatActive (st w1) = false
  ∧ timers w1 = timers w ++ [warmupTimer snap sid true w]
  ∧ ∃ cameraImage screenImage rest,
      trace w2 = trace w ++ EvRequest (ReqHeartbeat sid cameraImage screenImage) :: rest.
Proof.
  intros Hfresh Hnone Hdel w1 w2. subst w2 w1.
  rewrite (start_then_stop _ _ _ _ Hnone).
  split; [reflexivity|]. split; [reflexivity|].
  split; [by apply timers_start_then_stop|].
  set (w1 := stopped (S (next_timer w)) (started snap sid true w)).
  unfold exec, fireTimer, advance. rewrite bind_run. unfold get at 1, modify at 1.
  cbn iota. cbn [snd].
  change (timers (w1 <| now ::= (λ t, t + 8000)%N |>)) with (timers w1).
  unfold w1 at 1. rewrite (timers_start_then_stop _ _ _ _ Hfresh).
  rewrite (findTimer_fresh (next_timer w) (timers w) (warmupTimer snap sid true w) Hfresh eq_refl).
  change (due (warmupTimer snap sid true w)) with (now w + 8000)%N.
  change (now (w1 <| now ::= (λ t, t + 8000)%N |>)) with (now w + 8000)%N.
  rewrite N.leb_refl, bind_run. unfold modify at 1. cbn iota.
  change (runCallback (callback (warmupTimer snap sid true w)) env)
    with (sendHeartbeat snap sid true env).
  match goal with
  | |- context [sendHeartbeat snap sid true env ?x] =>
      destruct (sendHeartbeat_delivered_trace snap sid true env x data)
        as (cam & scr & rest & Htrace & _);
      [by apply (delivered_refs sid true env w x data)|]
  end.
  exists cam, scr, rest. exact Htrace.
Qed.

(** ** C10: a session ended from the other side *)

Lemma sendHeartbeat_timers snap sid act env (l : list Timer) :
  preserves (λ w, timers w = l) (sendHeartbeat snap sid act env).
Proof.
  assert (∀ answer b n, preserves (λ w, timers w = l) (triggerSplineDriftScene answer b n))
    as Ht.
  { intros answer b n w H. unfold exec. rewrite triggerSplineDriftScene_run. exact H. }
  unfold sendHeartbeat, captureCameraFrame, captureScreenFrame, captureStream.
  preserves_auto; try apply Ht; assumption.
Qed.

Lemma findTimer_started snap sid act w :
  timers_fresh w →
  findTimer (S (next_timer w))
            (timers w ++ [warmupTimer snap sid act w; heartbeatTimer snap sid act w])
  = Some (heartbeatTimer snap sid act w).
Proof.
  intros Hfresh. rewrite findTimer_skip.
  - unfold findTimer. cbn [List.find warmupTimer heartbeatTimer timer_id].
    rewrite (proj2 (Nat.eqb_neq (next_timer w) (S (next_timer w)))) by lia.
    by rewrite Nat.eqb_refl.
  - eapply Forall_impl; [exact Hfresh|]. cbn beta. lia.
Qed.

Lemma reschedule_started snap sid act w :
  timers_fresh w →
  reschedule (S (next_timer w))
             (timers w ++ [warmupTimer snap sid act w; heartbeatTimer snap sid act w])
  = timers w ++ [warmupTimer snap sid act w;
                 (heartbeatTimer snap sid act w) <| due ::= (λ d, d + 60000)%N |>].
Proof.
  intros Hfresh. unfold reschedule. rewrite omap_app. f_equal.
  - apply reschedule_keeps_older. eapply Forall_impl; [exact Hfresh|]. cbn beta. lia.
  - cbn [omap list_omap warmupTimer heartbeatTimer timer_id recurring].
    rewrite (proj2 (Nat.eqb_neq (next_timer w) (S (next_timer w)))) by lia.
    rewrite Nat.eqb_refl. reflexivity.
Qed.

Lemma fireTimer_due id env w t :
  findTimer id (timers w) = Some t → (due t <=? now w)%N = true →
  exec (fireTimer id env) w
  = exec (runCallback (callback t) env) (w <| timers ::= reschedule id |>).
Proof.
  intros Hfind Hdue. unfold exec, fireTimer. rewrite bind_run. unfold get at 1. cbn iota.
  rewrite Hfind, Hdue. reflexivity.
Qed.

(** C10.  The handler of the remote [session_ended] event writes two
    cells, [isSessionActive := false] and [currentSessionId := null], and
    nothing else: timers, the heartbeat handle and flag, streams, stream
    handles and refs, the realtime channel and the trace are as before.
    The heartbeat interval scheduled by [startHeartbeat sessionId true]
    therefore stays in the queue with the session id and [true] it
    captured; when it is due, 60 s or more later, it fires, passes the
    guard of [sendHeartbeat], captures frames and, with a frame to send,
    posts a heartbeat for the ended session; it is then scheduled again. *)
Theorem C10_session_ended_leaves_heartbeat_running :
  (∀ w, on_session_ended w
        = (Ok (), w <| st ::= (λ s, s <| isSessionActive := false |>
                                      <| currentSessionId := None |>) |>))
  ∧ (∀ w, let w' := exec on_session_ended w in
          timers w' = timers w ∧ heartbeatIntervalRef w' = heartbeatIntervalRef w
          ∧ isHeartbeatActive (st w') = isHeartbeatActive (st w)
          ∧ streams w' = streams w
          ∧ videoStream (st w') = videoStream (st w)
          ∧ screenStream (st w') = screenStream (st w)
          ∧ micStream (st w') = micStream (st w)
          ∧ videoStreamRef w' = videoStreamRef w ∧ screenStreamRef w' = screenStreamRef w
          ∧ realtimeChannelRef w' = realtimeChannelRef w
          ∧ trace w' = trace w)
  ∧ (∀ w snap sid env data dt,
       timers_fresh w → heartbeatIntervalRef w = None →
       delivered sid true env w data → (60000 ≤ dt)%N →
       let w1 := exec on_session_ended (exec (startHeartbeat snap sid true) w) in
       let w2 := exec (fireTimer (S (next_timer w)) env) (exec (advance dt) w1) in
       currentSessionId (st w1) = None ∧ isSessionActive (st w1) = false
       ∧ findTimer (S (next_timer w)) (timers w1) = Some (heartbeatTimer snap sid true w)
       ∧ (∃ cameraImage screenImage rest,
            trace w2 = trace w ++ EvRequest (ReqHeartbeat sid cameraImage screenImage) :: rest)
       ∧ findTimer (S (next_timer w)) (timers w2)
         = Some ((heartbeatTimer snap sid true w) <| due ::= (λ d, d + 60000)%N |>)).
Proof.
  split; [reflexivity|]. split; [intros w; cbn zeta; repeat split|].
  intros w snap sid env data dt Hfresh Hnone Hdel Hdt w1 w2. subst w2 w1.
  assert (exec (startHeartbeat snap sid true) w = started snap sid true w) as ->.
  { unfold exec. by rewrite startHeartbeat_run, Hnone. }
  set (w1 := exec on_session_ended (started snap sid true w)).
  assert (timers w1 = timers w ++ [warmupTimer snap sid true w; heartbeatTimer snap sid true w])
    as Htimers by reflexivity.
  split; [reflexivity|]. split; [reflexivity|].
  split; [rewrite Htimers; by apply findTimer_started|].
  rewrite (fireTimer_due (S (next_timer w)) env (exec (advance dt) w1)
             (heartbeatTimer snap sid true w)).
  - change (runCallback (callback (heartbeatTimer snap sid true w)) env)
      with (sendHeartbeat snap sid true env).
    set (w3 := (exec (advance dt) w1) <| timers ::= reschedule (S (next_timer w)) |>).
    assert (timers w3
            = timers w ++ [warmupTimer snap sid true w;
                           (heartbeatTimer snap sid true w) <| due ::= (λ d, d + 60000)%N |>])
      as Htimers3.
    { change (timers w3) with (reschedule (S (next_timer w)) (timers w1)).
      rewrite Htimers. by apply reschedule_started. }
    split.
    + destruct (sendHeartbeat_delivered_trace snap sid true env w3 data)
        as (cam & scr & rest & Htrace & _);
        [by apply (delivered_refs sid true env w w3 data)|].
      exists cam, scr, rest. exact Htrace.
    + rewrite (sendHeartbeat_timers snap sid true env _ w3 Htimers3). rewrite findTimer_skip.
      * unfold findTimer. cbn [List.find warmupTimer heartbeatTimer timer_id].
        rewrite (proj2 (Nat.eqb_neq (next_timer w) (S (next_timer w)))) by lia.
        cbn [timer_id apply_update constant]. by rewrite Nat.eqb_refl.
      * eapply Forall_impl; [exact Hfresh|]. cbn beta. lia.
  - change (timers (exec (advance dt) w1)) with (timers w1).
    rewrite Htimers. by apply findTimer_started.
  - change (due (heartbeatTimer snap sid true w)) with (now w + 60000)%N.
    change (now (exec (advance dt) w1)) with (now w + dt)%N.
    apply N.leb_le. lia.
Qed.

(** ** C2: the grace window of the manual recovery *)

Lemma second_recovery_timers answer1 answer2 dt1 w :
  let w2 := exec (handleContinueWorking answer2)
                 (exec (advance dt1) (exec (handleContinueWorking answer1) w)) in
  timers w2
  = timers w ++ [ rearmTimer w;
                  {| timer_id := S (next_timer w); recurring := None;
                     due := (now w + dt1 + 60000)%N; callback := CbRearmAcknowledgment |} ]
  ∧ now w2 = (now w + dt1)%N
  ∧ isDriftAcknowledged (st w2) = true ∧ isDrifting (st w2) = false.
Proof.
  cbn zeta. unfold exec. rewrite !handleContinueWorking_run. cbn [snd].
  unfold advance, modify. cbn [snd].
  unfold recovered, rearmTimer, say. destruct w. cbn. rewrite <- app_assoc. done.
Qed.

(** C2 (refuted on the code).  [handleContinueWorking], from any state,
    sets [acknowledged = true] and [isDrifting = false] at once, asks for
    the sailing scene, and schedules the re-arm of the acknowledgment as a
    one-shot timer due 60000 ms later, changing nothing else; with a
    signed-in user the first request is the sailing-scene webhook; and the
    timer of that call clears the acknowledgment exactly when it is tried
    60000 ms or more later.  But the timer is never cancelled.  After a
    second recovery, [dt1] ms after the first, the timer of the first one
    clears the acknowledgment as soon as [dt1 + dt2 >= 60000], that is
    [dt2] ms after the second recovery, however short [dt2] is.  And the
    drift cell that a heartbeat reads is the one of the render that
    created its closure: a delivered heartbeat answered
    [is_drifting = true] after the recovery enters drift again and resets
    the acknowledgment when its closure has [isDrifting = false], and
    changes no cell at all, so that [isDrifting] stays false, when its
    closure has [isDrifting = true]. *)
Theorem C2_grace_window_is_cut_short :
  (∀ answer w, handleContinueWorking answer w = (Ok (), recovered answer w))
  ∧ (∀ answer w uid, currentUser w = Some uid →
       ∃ rest, trace (recovered answer w)
               = trace w ++ EvRequest (ReqJourneyWebhook
                                         uid "https://hooks.spline.design/xyN_bGAd8LY"
                                         "numbaer4") :: rest)
  ∧ (∀ answer w dt env, timers_fresh w →
       isDriftAcknowledged
         (st (exec (fireTimer (next_timer w) env)
                   (exec (advance dt) (exec (handleContinueWorking answer) w))))
       = if (60000 <=? dt)%N then false else true)
  ∧ (∀ answer1 answer2 w dt1 dt2 env,
       timers_fresh w → (60000 ≤ dt1 + dt2)%N →
       let w2 := exec (handleContinueWorking answer2)
                      (exec (advance dt1) (exec (handleContinueWorking answer1) w)) in
       let w3 := exec (fireTimer (next_timer w) env) (exec (advance dt2) w2) in
       isDriftAcknowledged (st w2) = true ∧ isDrifting (st w2) = false
       ∧ now w3 = (now w2 + dt2)%N
       ∧ isDriftAcknowledged (st w3) = false)
  ∧ (∀ answer w snap sid act env data,
       delivered sid act env (recovered answer w) data →
       is_drifting data = true →
       let s := st (exec (sendHeartbeat snap sid act env) (recovered answer w)) in
       if isDrifting snap
       then s = st (recovered answer w) ∧ isDrifting s = false
       else isDrifting s = true ∧ isDriftAcknowledged s = false
            ∧ driftReason s = orDefault (drift_reason data) "Focus has drifted from the task").
Proof.
  split; [exact handleContinueWorking_run|].
  split.
  { intros answer w uid Hu.
    destruct (sailing_scene_requested answer 3 w uid Hu) as [rest Hrest].
    exists rest. unfold recovered, say. cbn [trace apply_update constant].
    change (sceneChange answer false 3 _) with (sceneChange answer false 3 w).
    rewrite Hrest. destruct w; reflexivity. }
  split; [exact rearm_fires_after_a_minute|].
  split.
  - intros answer1 answer2 w dt1 dt2 env Hfresh Hdt w2 w3.
    destruct (second_recovery_timers answer1 answer2 dt1 w) as (Htimers & Hnow & Hack & Hdrift).
    fold w2 in Htimers, Hnow, Hack, Hdrift.
    split; [exact Hack|]. split; [exact Hdrift|].
    assert (findTimer (next_timer w) (timers (exec (advance dt2) w2)) = Some (rearmTimer w))
      as Hfind.
    { change (timers (exec (advance dt2) w2)) with (timers w2). rewrite Htimers.
      rewrite findTimer_skip.
      - unfold findTimer. cbn [List.find rearmTimer timer_id]. by rewrite Nat.eqb_refl.
      - eapply Forall_impl; [exact Hfresh|]. cbn beta. lia. }
    assert ((due (rearmTimer w) <=? now (exec (advance dt2) w2))%N = true) as Hdue.
    { change (now (exec (advance dt2) w2)) with (now w2 + dt2)%N. rewrite Hnow.
      change (due (rearmTimer w)) with (now w + 60000)%N. apply N.leb_le. lia. }
    subst w3. rewrite (fireTimer_due _ _ _ _ Hfind Hdue). split; reflexivity.
  - intros answer w snap sid act env data Hdel Hd. cbn zeta.
    rewrite (sendHeartbeat_delivered _ _ _ _ _ _ Hdel), Hd.
    destruct (isDrifting snap); cbn [andb negb]; repeat split.
Qed.

(** ** Concrete runs *)

Example scenario_focused_then_drifting :
  let w := run untilDrift sessionRunning in
  isDrifting (st (run (take 2 untilDrift) sessionRunning)) = false
  ∧ isDrifting (st w) = true ∧ driftReason (st w) = "looking away"
  ∧ isDriftAcknowledged (st w) = false.
Proof. vm_compute. repeat split. Qed.

Example scenario_focus_report_ignored :
  st (run (untilDrift ++ afterDrift) sessionRunning) = st (run untilDrift sessionRunning).
Proof. vm_compute. reflexivity. Qed.

Example scenario_recovery_and_grace_window :
  let w := run (untilDrift ++ afterDrift ++ take 2 graceWindow) sessionRunning in
  let w' := run (untilDrift ++ afterDrift ++ graceWindow) sessionRunning in
  isDrifting (st w) = false ∧ isDriftAcknowledged (st w) = true
  ∧ isDrifting (st w') = true ∧ isDriftAcknowledged (st w') = false.
Proof. vm_compute. repeat split. Qed.

(** Re-arm timers are never cancelled: a recovery made 50 s after an
    earlier one has its acknowledgment cleared 10 s later, by the timer of
    the earlier one. *)
Example rearm_timers_overlap :
  let w := run [ ActContinueWorking webhookUp; ActAdvance 50000;
                 ActContinueWorking webhookUp; ActAdvance 10000 ] sessionRunning in
  isDriftAcknowledged (st w) = true
  ∧ isDriftAcknowledged (st (step w (ActFireTimer 3 (answering focused)))) = false.
Proof. vm_compute. repeat split. Qed.

Lemma delivered_cameraOn data : delivered "s1" true (answering data) cameraOn data.
Proof.
  split; [discriminate | reflexivity | left; vm_compute; discriminate
         | discriminate | reflexivity].
Qed.

Lemma C1_drift_sticky_until_manual_recovery_witness :
  isDrifting (st (run afterDrift (run untilDrift sessionRunning))) = true
  ∧ st (exec (sendHeartbeat initialState "s1" true (answering focused))
             (run untilDrift sessionRunning))
    = st (run untilDrift sessionRunning).
Proof.
  destruct C1_drift_sticky_until_manual_recovery as (Hrun & Hfalse & _). split.
  - apply Hrun; [repeat constructor | reflexivity].
  - apply (Hfalse initialState "s1" true (answering focused) focused); reflexivity.
Defined.

Lemma C2_grace_window_is_cut_short_witness :
  let w := run (untilDrift ++ afterDrift) sessionRunning in
  let w2 := exec (handleContinueWorking webhookUp)
                 (exec (advance 50000) (exec (handleContinueWorking webhookUp) w)) in
  let w3 := exec (fireTimer (next_timer w) (answering focused)) (exec (advance 10000) w2) in
  let drifted := st (run untilDrift sessionRunning) in
  let late := st (exec (sendHeartbeat drifted "s1" true (answering lookingAway))
                       (recovered webhookUp w)) in
  isDriftAcknowledged (st w2) = true
  ∧ now w3 = (now w2 + 10000)%N
  ∧ isDriftAcknowledged (st w3) = false
  ∧ isDrifting drifted = true
  ∧ isDrifting late = false.
Proof.
  destruct C2_grace_window_is_cut_short as (_ & _ & _ & Hearly & Hstale).
  cbn zeta.
  destruct (Hearly webhookUp webhookUp (run (untilDrift ++ afterDrift) sessionRunning)
              50000%N 10000%N (answering focused)) as (Hack & _ & Hnow & Hcleared).
  { unfold timers_fresh. vm_compute. repeat constructor. }
  { lia. }
  split; [exact Hack|]. split; [exact Hnow|]. split; [exact Hcleared|].
  split; [reflexivity|].
  pose proof (Hstale webhookUp (run (untilDrift ++ afterDrift) sessionRunning)
                (st (run untilDrift sessionRunning)) "s1" true
                (answering lookingAway) lookingAway) as H.
  cbn zeta in H.
  change (isDrifting (st (run untilDrift sessionRunning))) with true in H.
  apply H; [|reflexivity].
  split; [discriminate | reflexivity | left; vm_compute; discriminate
         | discriminate | reflexivity].
Defined.

(** The closure of a heartbeat is the render that started its session.  A
    session started while a drift is shown reads [isDrifting = true] for
    good: after the manual recovery its heartbeat goes out, is answered
    [is_drifting = true], and the panel does not enter drift. *)
Example drift_report_of_next_session_ignored :
  let reported := panel_step recoveredNextSession
                    (ActCore (ActFireTimer 4 (answering lookingAway))) in
  isDrifting (st (core driftedSession)) = true
  ∧ currentSessionId (st (core nextSession)) = Some "s2"
  ∧ heartbeatIntervalRef (core nextSession) = Some 4
  ∧ isDrifting (st (core recoveredNextSession)) = false
  ∧ trace (core reported)
    = trace (core recoveredNextSession)
      ++ [EvRequest (ReqHeartbeat "s2" (Some "data:image/jpeg;base64,jpeg") None)]
  ∧ isDrifting (st (core reported)) = false.
Proof. vm_compute. repeat split. Qed.

Lemma C5_first_heartbeat_outlives_stop_witness :
  let w1 := exec stopHeartbeat (exec (startHeartbeat initialState "s1" true) cameraOn) in
  heartbeatIntervalRef w1 = None
  ∧ isHeartbeatActive (st w1) = false
  ∧ timers w1 = [warmupTimer initialState "s1" true cameraOn]
  ∧ ∃ rest, trace (exec (fireTimer 1 (answering focused)) (exec (advance 8000) w1))
            = trace cameraOn
              ++ EvRequest (ReqHeartbeat "s1" (Some "data:image/jpeg;base64,jpeg") None)
              :: rest.
Proof.
  pose proof (C5_first_heartbeat_outlives_stop cameraOn initialState "s1"
                (answering focused) focused) as H.
  cbn zeta in H. destruct H as (H1 & H2 & H3 & _).
  - unfold timers_fresh. vm_compute. constructor.
  - reflexivity.
  - apply delivered_cameraOn.
  - cbn zeta. split; [exact H1|]. split; [exact H2|]. split; [exact H3|].
    exists []. vm_compute. reflexivity.
Defined.

Lemma C7_capture_returns_null_never_throws_witness :
  captureCameraFrame goodCapture (initialWorld None) = (Ok None, initialWorld None)
  ∧ captureScreenFrame goodCapture (initialWorld None) = (Ok None, initialWorld None)
  ∧ captureCameraFrame cameraBlocked cameraOn = (Ok None, cameraOn).
Proof.
  destruct C7_capture_returns_null_never_throws as (Hcam & Hscr & _ & _ & Hfail & _).
  split; [|split].
  - apply Hcam. reflexivity.
  - apply Hscr. reflexivity.
  - apply Hfail. reflexivity.
Defined.

Lemma C8_end_without_session_only_reports_witness :
  trace (exec (handleEndVoyage (st cameraOn) backendDown) cameraOn) = trace cameraOn
  ∧ sessionError (st (exec (handleEndVoyage (st cameraOn) backendDown) cameraOn))
    = Some "No active session found".
Proof.
  destruct (C8_end_without_session_only_reports (st cameraOn) backendDown cameraOn eq_refl)
    as (Hrun & Htrace & _).
  split; [exact Htrace|]. unfold exec. rewrite Hrun. reflexivity.
Defined.

Lemma C9_camera_tiers_and_abort_witness :
  let w := initialWorld (Some "user-1") in
  let w' := exec (toggleVideo initialState busyThenDenied) w in
  let w'' := exec (toggleVideo initialState busyThenEnded) w in
  filter (λ e, isDeviceRequest e = true) (trace w')
  = [ EvGetUserMedia (VideoSized {| ideal := 1280; max := 1920 |}
                                 {| ideal := 720; max := 1080 |}
                                 (Some {| ideal := 30; max := 60 |}));
      EvGetUserMedia (VideoSized {| ideal := 640; max := 1280 |}
                                 {| ideal := 480; max := 720 |}
                                 (Some {| ideal := 15; max := 30 |})) ]
  ∧ sessionError (st w')
    = Some "Failed to access camera. Please allow camera access in your browser settings."
  ∧ videoStream (st w') = None
  ∧ filter (λ e, isDeviceRequest e = true) (trace w'')
    = filter (λ e, isDeviceRequest e = true) (trace w')
  ∧ Forall (λ t, isLive t = false) (tracksOf w'' 0)
  ∧ videoStream (st w'') = None.
Proof.
  assert (∀ j, j < 1 →
            ∃ e, busyThenDenied j = GumReject e
                 ∧ err_name e ≠ "NotAllowedError" ∧ err_name e ≠ "PermissionDeniedError")
    as Hbusy.
  { intros j Hj. assert (j = 0) as -> by lia. eexists. split; [reflexivity|]. by split. }
  assert (∀ j, j < 1 →
            ∃ e, busyThenEnded j = GumReject e
                 ∧ err_name e ≠ "NotAllowedError" ∧ err_name e ≠ "PermissionDeniedError")
    as Hbusy'.
  { intros j Hj. assert (j = 0) as -> by lia. eexists. split; [reflexivity|]. by split. }
  pose proof (C9_camera_tiers_and_abort initialState busyThenDenied
                (initialWorld (Some "user-1")) 1 eq_refl eq_refl Hbusy) as H.
  pose proof (C9_camera_tiers_and_abort initialState busyThenEnded
                (initialWorld (Some "user-1")) 1 eq_refl eq_refl Hbusy') as H'.
  cbn zeta in H, H'. destruct H as (Hdenied & _ & _). destruct H' as (_ & Hended & _).
  destruct (Hdenied ltac:(lia) _ eq_refl (or_introl eq_refl))
    as (Hasked & _ & Herror & Hnone & _).
  destruct (Hended ltac:(lia) _ eq_refl) as (Hasked' & _ & Hstopped & _ & Hnone' & _).
  cbn zeta. split; [exact Hasked|]. split; [exact Herror|]. split; [exact Hnone|].
  split; [by rewrite Hasked', Hasked|]. split; [exact Hstopped | exact Hnone'].
Defined.

Lemma C10_session_ended_leaves_heartbeat_running_witness :
  let w1 := exec on_session_ended (exec (startHeartbeat initialState "s1" true) cameraOn) in
  currentSessionId (st w1) = None
  ∧ findTimer 2 (timers w1) = Some (heartbeatTimer initialState "s1" true cameraOn)
  ∧ ∃ cameraImage screenImage rest,
      trace (exec (fireTimer 2 (answering focused)) (exec (advance 60000) w1))
      = trace cameraOn ++ EvRequest (ReqHeartbeat "s1" cameraImage screenImage) :: rest.
Proof.
  destruct C10_session_ended_leaves_heartbeat_running as (_ & _ & H).
  specialize (H cameraOn initialState "s1" (answering focused) focused 60000%N).
  cbn zeta in H. destruct H as (H1 & _ & H3 & H4 & _).
  - unfold timers_fresh. vm_compute. constructor.
  - reflexivity.
  - apply delivered_cameraOn.
  - lia.
  - cbn zeta. split; [exact H1|]. split; [exact H3 | exact H4].
Defined.

(** * The microphone and the unmount cleanup *)

Lemma getAudioTracks_set v ts :
  getAudioTracks (setFirstAudioEnabled v ts)
  = match getAudioTracks ts with
    | t :: rest => (t <| enabled := v |>) :: rest
    | [] => []
    end.
Proof.
  induction ts as [|t ts IH]; [done|].
  unfold getAudioTracks in *. cbn [setFirstAudioEnabled].
  destruct (isVideo t) eqn:Hv.
  - rewrite !filter_cons. rewrite !decide_False by (rewrite ?Hv; done). by rewrite IH.
  - rewrite !filter_cons. rewrite !decide_True by (try rewrite Hv; done). done.
Qed.

Lemma isLive_set v ts : map isLive (setFirstAudioEnabled v ts) = map isLive ts.
Proof.
  induction ts as [|t ts IH]; [done|]. cbn [setFirstAudioEnabled].
  destruct (isVideo t); cbn [map]; [by rewrite IH | done].
Qed.

Lemma set_set v v' ts :
  setFirstAudioEnabled v (setFirstAudioEnabled v' ts) = setFirstAudioEnabled v ts.
Proof.
  induction ts as [|t ts IH]; [done|]. cbn [setFirstAudioEnabled].
  destruct (isVideo t) eqn:Hv; cbn [setFirstAudioEnabled].
  - by rewrite Hv, IH.
  - replace (isVideo (t <| enabled := v' |>)) with (isVideo t) by (by destruct t).
    rewrite Hv. by destruct t.
Qed.

Lemma tracksOf_alter f s s' w :
  tracksOf (w <| streams ::= alter f s |>) s'
  = if decide (s = s') then
      match streams w !! s with Some ts => f ts | None => [] end
    else tracksOf w s'.
Proof.
  unfold tracksOf. cbn [streams apply_update constant]. destruct w; cbn.
  destruct (decide (s = s')) as [->|Hne].
  - rewrite lookup_alter_eq. by destruct (_ !! s').
  - by rewrite lookup_alter_ne.
Qed.

Lemma toggleMic_run snap answer (w : World) :
  toggleMic snap answer w
  = match micStream snap with
    | Some ms =>
        match getAudioTracks (tracksOf w ms) with
        | _ :: _ => (Ok (), micToggled snap ms w)
        | [] => (Ok (), w)
        end
    | None =>
        match answer with
        | GumStream ts =>
            (Ok (), (addStream ts (say [EvGetUserMedia AudioTrue] w))
                      <| st ::= (λ s, s <| micStream := Some (next_stream w) |>) |>
                      <| st ::= (λ s, s <| isMicMuted := false |>) |>)
        | GumReject e =>
            (Ok (), (say [EvGetUserMedia AudioTrue] w)
                      <| st ::= (λ s, s <| sessionError :=
                           Some "Failed to access microphone. Please check permissions." |>) |>)
        end
    end.
Proof.
  unfold toggleMic, try_catch.
  destruct (micStream snap) as [ms|].
  - rewrite bind_run. unfold get at 1. cbn iota.
    destruct (getAudioTracks (tracksOf w ms)); reflexivity.
  - destruct answer; destruct w; reflexivity.
Qed.

Lemma micToggled_twice snap ms w :
  micToggled snap ms (micToggled snap ms w) = micToggled snap ms w.
Proof.
  unfold micToggled. destruct w as [s ? ? ? ? ? ? str ? ? ? ? ? ?]; destruct s; cbn. f_equal.
  apply map_eq. intros i. destruct (decide (ms = i)) as [->|Hne].
  - rewrite !lookup_alter_eq. destruct (str !! i); cbn; [|done]. by rewrite set_set.
  - by rewrite !lookup_alter_ne.
Qed.

(** X6.  [toggleMic] never throws and never stops a track: whatever its
    render and whatever the browser answers, every stream that was there
    has the tracks it had, as live or ended as before.  It asks the
    browser for a device at most once, for audio alone, and only when its
    render has no microphone stream; camera, screen and session cells are
    left alone. *)
Theorem X6_toggleMic_stops_nothing (snap : State) (answer : GumOutcome) (w : World) :
  let w' := exec (toggleMic snap answer) w in
  outcome (toggleMic snap answer) w = Ok ()
  ∧ (∀ s, s ≠ next_stream w → map isLive (tracksOf w' s) = map isLive (tracksOf w s))
  ∧ trace w' = trace w ++ match micStream snap with
                         | Some _ => []
                         | None => [EvGetUserMedia AudioTrue]
                         end
  ∧ (videoStream (st w'), screenStream (st w'), isVideoOn (st w'), isScreenSharing (st w'))
    = (videoStream (st w), screenStream (st w), isVideoOn (st w), isScreenSharing (st w))
  ∧ (currentSessionId (st w'), isSessionActive (st w'), timers w', heartbeatIntervalRef w')
    = (currentSessionId (st w), isSessionActive (st w), timers w, heartbeatIntervalRef w).
Proof.
  cbn zeta. unfold exec, outcome. rewrite toggleMic_run.
  destruct (micStream snap) as [ms|].
  - destruct (getAudioTracks (tracksOf w ms)) eqn:Ha; cbn [fst snd].
    + split; [done|]. split; [done|]. by rewrite app_nil_r.
    + split; [done|]. split; [|by rewrite app_nil_r].
      intros s _. unfold micToggled.
      change (tracksOf (?x <| st ::= ?f |>) s) with (tracksOf x s).
      rewrite tracksOf_alter. destruct (decide (ms = s)) as [->|]; [|done].
      unfold tracksOf. destruct (streams w !! s); [apply isLive_set | done].
  - destruct answer as [ts|e]; cbn [fst snd].
    + split; [done|]. split; [|done].
      intros s Hs. unfold tracksOf, addStream, say. cbn [streams apply_update constant].
      destruct w; cbn in *. by rewrite lookup_insert_ne.
    + done.
Qed.

(** X7.  Muting is done in place.  With a microphone stream that has an
    audio track in its render, [toggleMic] makes the first audio track
    enabled exactly when the render was muted and sets the muted cell to
    the opposite, so that afterwards the cell says muted exactly when the
    track is disabled; nothing is asked of the browser.  A second call
    from the same render changes nothing more: the microphone is toggled
    back only by a call from a later render. *)
Theorem X7_toggleMic_mutes_in_place (snap : State) (answer : GumOutcome) (w : World)
    (ms : StreamId) (t : Track)
    (Hstream : micStream snap = Some ms)
    (Htrack : audioTrack w ms = Some t) :
  let w' := exec (toggleMic snap answer) w in
  audioTrack w' ms = Some (t <| enabled := isMicMuted snap |>)
  ∧ isMicMuted (st w') = negb (isMicMuted snap)
  ∧ trace w' = trace w
  ∧ exec (toggleMic snap answer) w' = w'
  ∧ ∀ later, micStream later = Some ms → isMicMuted later = isMicMuted (st w') →
      let w'' := exec (toggleMic later answer) w' in
      audioTrack w'' ms = Some (t <| enabled := negb (isMicMuted snap) |>)
      ∧ isMicMuted (st w'') = isMicMuted snap.
Proof.
  cbn zeta. unfold exec, audioTrack in *.
  assert (∀ snap0 w0 t0, micStream snap0 = Some ms →
            head (getAudioTracks (tracksOf w0 ms)) = Some t0 →
            (toggleMic snap0 answer w0).2 = micToggled snap0 ms w0
            ∧ head (getAudioTracks (tracksOf (micToggled snap0 ms w0) ms))
              = Some (t0 <| enabled := isMicMuted snap0 |>)) as Hrun.
  { intros snap0 w0 t0 Hs Ht. rewrite toggleMic_run, Hs.
    destruct (getAudioTracks (tracksOf w0 ms)) as [|a rest] eqn:Ha; [done|].
    split; [done|]. unfold micToggled.
    change (tracksOf (?x <| st ::= ?f |>) ms) with (tracksOf x ms).
    rewrite tracksOf_alter, decide_True by done.
    unfold tracksOf in Ha. destruct (streams w0 !! ms) as [ts|] eqn:Hts; [|done].
    change (getAudioTracks ts = a :: rest) in Ha. rewrite getAudioTracks_set, Ha.
    cbn [head] in *. congruence. }
  destruct (Hrun snap w t Hstream Htrack) as [-> Hhead].
  split; [exact Hhead|]. split; [done|]. split; [done|].
  split.
  - destruct (Hrun snap _ _ Hstream Hhead) as [-> _]. apply micToggled_twice.
  - intros later Hl Hm.
    destruct (Hrun later _ _ Hl Hhead) as [-> Hhead'].
    rewrite Hhead'. split; [|by (cbn in *; rewrite Hm; destruct (isMicMuted snap))].
    rewrite Hm. by destruct t.
Qed.


Lemma X7_toggleMic_mutes_in_place_witness :
  let w' := exec (toggleMic (st micOn) (GumStream liveMic)) micOn in
  audioTrack w' 0
  = Some {| kind := AudioTrack; label := "Built-in Microphone"; readyState := Live;
            enabled := false |}
  ∧ isMicMuted (st w') = true
  ∧ trace w' = [EvGetUserMedia AudioTrue].
Proof.
  pose proof (X7_toggleMic_mutes_in_place (st micOn) (GumStream liveMic) micOn 0 _
                eq_refl eq_refl) as (H1 & H2 & H3 & _).
  cbn zeta in *. rewrite H1, H2, H3. repeat split.
Defined.

Lemma unmount_run (w : World) : unmount w = (Ok (), unmounted w).
Proof.
  unfold unmount, unmounted. rewrite bind_run.
  unfold cleanupRealtimeChannel at 1. rewrite bind_run. unfold get at 1. cbn iota.
  destruct (realtimeChannelRef w) as [c|] eqn:Hc.
  - change ((emit (EvRemoveChannel c);; modify (λ w0, w0 <| realtimeChannelRef := None |>)) w)
      with (Ok (), (say [EvRemoveChannel c] w) <| realtimeChannelRef := None |>).
    cbn iota. rewrite bind_run.
    change (cleanupMediaStreams initialState ?x) with (Ok (), say [EvStopPassiveListening] x).
    cbn iota. rewrite stopHeartbeat_run.
    change (heartbeatIntervalRef (say _ (_ <| realtimeChannelRef := None |>)))
      with (heartbeatIntervalRef w).
    by destruct (heartbeatIntervalRef w).
  - change ((mret () : M unit) w) with (Ok (), w). cbn iota. rewrite bind_run.
    change (cleanupMediaStreams initialState ?x) with (Ok (), say [EvStopPassiveListening] x).
    cbn iota. rewrite stopHeartbeat_run.
    change (heartbeatIntervalRef (say _ w)) with (heartbeatIntervalRef w).
    by destruct (heartbeatIntervalRef w).
Qed.

(** X8.  Unmounting releases no stream.  The cleanup of the mount effect
    removes the realtime channel and clears the heartbeat interval, so
    that no interval timer is left; but its [cleanupMediaStreams] is the
    one of the first render, whose stream cells are empty: every stream
    of the panel keeps its tracks as they are, a live camera stays live,
    and the stream cells and refs still hold their handles. *)
Theorem X8_unmount_releases_no_stream (w : World) (Hinv : heartbeat_inv w) :
  let w' := exec unmount w in
  outcome unmount w = Ok ()
  ∧ streams w' = streams w
  ∧ (videoStream (st w'), screenStream (st w'), micStream (st w'))
    = (videoStream (st w), screenStream (st w), micStream (st w))
  ∧ (videoStreamRef w', screenStreamRef w') = (videoStreamRef w, screenStreamRef w)
  ∧ realtimeChannelRef w' = None
  ∧ heartbeatIntervalRef w' = None
  ∧ intervals w' = []
  ∧ filter (λ e, isDeviceRequest e = true) (trace w')
    = filter (λ e, isDeviceRequest e = true) (trace w).
Proof.
  cbn zeta.
  assert (heartbeat_inv (exec unmount w)) as Hinv'.
  { revert w Hinv. change (preserves heartbeat_inv unmount). unfold unmount.
    apply preserves_bind; [apply cleanupRealtimeChannel_heartbeat_inv | intros _].
    apply preserves_bind; [apply cleanupMediaStreams_heartbeat_inv | intros _].
    apply stopHeartbeat_heartbeat_inv. }
  destruct Hinv' as [Hh _ _]. revert Hh.
  unfold exec, outcome. rewrite unmount_run. cbn [fst snd]. unfold unmounted.
  intros Hh.
  assert (heartbeatIntervalRef
            match heartbeatIntervalRef w with
            | Some id =>
                stopped id (say [EvStopPassiveListening]
                  match realtimeChannelRef w with
                  | Some c => (say [EvRemoveChannel c] w) <| realtimeChannelRef := None |>
                  | None => w
                  end)
            | None =>
                say [EvStopPassiveListening]
                  match realtimeChannelRef w with
                  | Some c => (say [EvRemoveChannel c] w) <| realtimeChannelRef := None |>
                  | None => w
                  end
            end = None) as Href.
  { destruct (heartbeatIntervalRef w) eqn:Hid, (realtimeChannelRef w); try done. }
  rewrite Href in Hh.
  split; [done|].
  destruct w as [s ch vr sr ve se hi str ns tm nt nw cu tr].
  destruct hi as [id|], ch as [c|]; cbn in Hh |- *;
    (repeat split; try done);
    rewrite ?filter_app; cbn; by rewrite ?app_nil_r.
Qed.

Lemma X8_unmount_releases_no_stream_witness :
  let w' := exec unmount sessionRunning in
  active (tracksOf w' 0) = true
  ∧ videoStream (st w') = Some 0
  ∧ heartbeatIntervalRef w' = None.
Proof.
  assert (heartbeat_inv sessionRunning) as Hinv.
  { split; [by eexists | done | by repeat constructor]. }
  pose proof (X8_unmount_releases_no_stream sessionRunning Hinv)
    as (_ & Hs & Hc & _ & _ & Hh & _).
  cbn zeta in *. unfold tracksOf. rewrite Hs, Hh.
  split; [reflexivity|]. split; [|reflexivity].
  exact (f_equal (λ x, x.1.1) Hc).
Defined.

(** * The task list *)

Section TaskListProperties.
Import TaskList.

(** X9.  [fetchTasks] never throws and always ends with [isLoading]
    false.  Without a signed-in user it sends no query and shows [User not
    authenticated]; otherwise it sends one query.  When the query fails or
    rejects, the list and the selection stay as they were and the error
    shown is the message of the thrown value if that is an [Error], and
    [Unknown error occurred] if not.  When it answers rows, the error is
    cleared, the list is the rows in their order, each task completed
    exactly when its status is [completed] and with the description [''] for
    [null]; the first task is selected, but an empty answer leaves the old
    selection in place. *)
Theorem X9_fetchTasks_outcomes (answer : Answer (list TaskRow)) (s : Store) :
  let s' := exec (fetchTasks answer) s in
  outcome (fetchTasks answer) s = Ok ()
  ∧ isLoading (cells s') = false
  ∧ match currentUser s, answer with
    | None, _ =>
        queries s' = queries s
        ∧ error (cells s') = Some "User not authenticated"
        ∧ tasks (cells s') = tasks (cells s)
        ∧ selectedTask (cells s') = selectedTask (cells s)
    | Some uid, Data rows =>
        queries s' = queries s ++ [SelectTasks uid]
        ∧ error (cells s') = None
        ∧ tasks (cells s') = map transform rows
        ∧ map id (tasks (cells s')) = map row_id rows
        ∧ Forall flagMatchesStatus (tasks (cells s'))
        ∧ selectedTask (cells s')
          = match rows with
            | first :: _ => Some (transform first)
            | [] => selectedTask (cells s)
            end
    | Some uid, Failed e | Some uid, Rejected e =>
        queries s' = queries s ++ [SelectTasks uid]
        ∧ error (cells s') = Some (shownError e)
        ∧ tasks (cells s') = tasks (cells s)
        ∧ selectedTask (cells s') = selectedTask (cells s)
    end.
Proof.
  cbn zeta. unfold exec, outcome, fetchTasks, try_finally, try_catch.
  destruct s as [c user qs h]. cbn [currentUser].
  destruct user as [uid|]; [destruct answer as [rows|e|e]|]; cbn.
  - assert (map id (map transform rows) = map row_id rows) as Hids
      by (by rewrite List.map_map).
    assert (Forall flagMatchesStatus (map transform rows)) as Hflags
      by (clear Hids; induction rows; cbn [map]; constructor; done).
    destruct rows as [|r rows]; cbn; repeat split; done.
  - done.
  - done.
  - done.
Qed.

Lemma hasId_spec taskId t : hasId taskId t = true ↔ id t = taskId.
Proof. unfold hasId. apply String.eqb_eq. Qed.

Lemma hasId_false taskId t : hasId taskId t = false ↔ id t ≠ taskId.
Proof. unfold hasId. apply String.eqb_neq. Qed.

Lemma hasId_toggleIn k k' st t : hasId k (toggleIn k' st t) = hasId k t.
Proof. unfold toggleIn. by destruct (hasId k' t), t. Qed.

Lemma id_toggleIn k st t : id (toggleIn k st t) = id t.
Proof. unfold toggleIn. by destruct (hasId k t), t. Qed.

Lemma find_map_toggleIn k k' st l :
  taskWithId k (map (toggleIn k' st) l) = toggleIn k' st <$> taskWithId k l.
Proof.
  unfold taskWithId. induction l as [|t l IH]; [done|]. cbn [map List.find].
  rewrite hasId_toggleIn. by destruct (hasId k t).
Qed.

(** With distinct ids, the task found by id is the only one with that id. *)
Lemma taskWithId_unique k l task t :
  NoDup (map id l) → taskWithId k l = Some task → t ∈ l → id t = k → t = task.
Proof.
  unfold taskWithId. induction l as [|x l IH]; [done|].
  cbn [map List.find]. intros [Hx Hnd]%NoDup_cons Hfind Hin Hid.
  destruct (hasId k x) eqn:Hk.
  - injection Hfind as <-. apply elem_of_cons in Hin as [->|Hin]; [done|].
    exfalso. apply Hx. apply hasId_spec in Hk. rewrite Hk, <- Hid.
    apply list_elem_of_In, in_map, list_elem_of_In, Hin.
  - apply elem_of_cons in Hin as [->|Hin]; [|by apply IH].
    apply hasId_false in Hk. done.
Qed.

Lemma taskWithId_elem k l task : taskWithId k l = Some task → task ∈ l ∧ id task = k.
Proof.
  unfold taskWithId. intros [Hin Hk]%find_some. split; [by apply list_elem_of_In|].
  by apply hasId_spec.
Qed.

Lemma toggleTaskCompletion_run snap taskId now answer s :
  toggleTaskCompletion snap taskId now answer s
  = (Ok (),
     match taskWithId taskId (tasks snap) with
     | None => s
     | Some task =>
         let s1 := s <| queries ::= (λ l, l ++ [UpdateTask taskId (toggledStatus task)
                            (if completed task then None else Some now)]) |> in
         match answer with
         | Data _ => s1 <| cells ::= (λ c, c <| tasks ::= map (toggleIn taskId (toggledStatus task)) |>) |>
         | _ => s1
         end
     end).
Proof.
  unfold toggleTaskCompletion, try_catch, taskWithId, toggledStatus.
  destruct (List.find (hasId taskId) (tasks snap)) as [task|]; [|done].
  destruct answer, (completed task); reflexivity.
Qed.

(** X10.  [toggleTaskCompletion] changes one task, and only when the
    update was accepted.  It never throws.  For an id that is not in the
    list of its render nothing is sent and nothing changes; when the update
    fails or rejects, one query was sent and no cell changes.  When it is
    accepted, the query asks for [pending] if the task was completed and
    for [completed] (with a completion time) if not; in the list, the tasks
    with other ids, the order and the ids are as before, the task with
    that id has its flag flipped and the status that was asked for, and
    with distinct ids every flag that matched its status still does.  The
    selection cell is not updated. *)
Theorem X10_toggleTaskCompletion_flips_one (s : Store) (taskId now : string)
    (answer : Answer unit) :
  let snap := cells s in
  let s' := exec (toggleTaskCompletion snap taskId now answer) s in
  outcome (toggleTaskCompletion snap taskId now answer) s = Ok ()
  ∧ selectedTask (cells s') = selectedTask (cells s)
  ∧ map id (tasks (cells s')) = map id (tasks (cells s))
  ∧ match taskWithId taskId (tasks snap), answer with
    | None, _ => s' = s
    | Some task, Data _ =>
        queries s' = queries s ++ [UpdateTask taskId (toggledStatus task)
                                     (if completed task then None else Some now)]
        ∧ (∀ i t, tasks snap !! i = Some t →
             tasks (cells s') !! i
             = Some (if hasId taskId t
                     then t <| completed := negb (completed t) |>
                            <| status := toggledStatus task |>
                     else t))
        ∧ (NoDup (map id (tasks snap)) →
           Forall flagMatchesStatus (tasks snap) →
           Forall flagMatchesStatus (tasks (cells s')))
    | Some task, _ =>
        cells s' = cells s
        ∧ queries s' = queries s ++ [UpdateTask taskId (toggledStatus task)
                                       (if completed task then None else Some now)]
    end.
Proof.
  cbn zeta. unfold exec, outcome. rewrite toggleTaskCompletion_run. cbn [fst snd].
  split; [done|].
  destruct (taskWithId taskId (tasks (cells s))) as [task|] eqn:Hfind; [|done].
  destruct answer as [[]|e|e]; [|done..].
  cbn [cells queries apply_update constant]. destruct s as [c u qs h]. cbn in *.
  split; [by destruct c|]. destruct c as [ts sel ld er dr dov]. cbn in *.
  split.
  { rewrite List.map_map. apply map_ext. intros t. apply id_toggleIn. }
  split; [done|]. split.
  - intros i t Hi. change (map ?f ts) with (f <$> ts). by rewrite list_lookup_fmap, Hi.
  - intros Hnd Hall. apply Forall_forall. intros t'.
    change (map ?f ts) with (f <$> ts). intros (t & -> & Hin)%list_elem_of_fmap.
    rewrite Forall_forall in Hall. specialize (Hall t Hin).
    unfold toggleIn. destruct (hasId taskId t) eqn:Hk; [|done].
    apply hasId_spec in Hk. rewrite (taskWithId_unique _ _ _ _ Hnd Hfind Hin Hk).
    unfold flagMatchesStatus, toggledStatus. cbn. by destruct (completed task).
Qed.

Lemma toggleIn_twice k st st' t :
  toggleIn k st' (toggleIn k st t) = withStatus k st' t.
Proof.
  unfold toggleIn at 1. rewrite hasId_toggleIn. unfold toggleIn, withStatus.
  destruct (hasId k t); [|done]. destruct t; cbn. unfold constant.
  by rewrite negb_involutive.
Qed.

Lemma hasId_withStatus k k' st t : hasId k (withStatus k' st t) = hasId k t.
Proof. unfold withStatus. by destruct (hasId k' t), t. Qed.

Lemma find_map_withStatus k k' st l :
  taskWithId k (map (withStatus k' st) l) = withStatus k' st <$> taskWithId k l.
Proof.
  unfold taskWithId. induction l as [|t l IH]; [done|]. cbn [map List.find].
  rewrite hasId_withStatus. by destruct (hasId k t).
Qed.

Lemma toggle_accepted snap taskId now s task :
  taskWithId taskId (tasks snap) = Some task →
  let s' := exec (toggleTaskCompletion snap taskId now (Data ())) s in
  queries s' = queries s ++ [UpdateTask taskId (toggledStatus task)
                               (if completed task then None else Some now)]
  ∧ tasks (cells s') = map (toggleIn taskId (toggledStatus task)) (tasks (cells s)).
Proof.
  intros Hfind. cbn zeta. unfold exec. rewrite toggleTaskCompletion_run, Hfind.
  destruct s as [c u qs h]. by destruct c.
Qed.

(** X11.  Two toggles of a task from the same render do not cancel.  The
    second call still sees the task as the render shows it, so it asks the
    database for the same status as the first; locally each call flips the
    flag, so the flag is back where it was while the status is the new one.
    The flag of that task then contradicts its status. *)
Theorem X11_toggle_twice_from_one_render (s : Store) (taskId now1 now2 : string) (task : Task)
    (Hfind : taskWithId taskId (tasks (cells s)) = Some task) :
  let snap := cells s in
  let s1 := exec (toggleTaskCompletion snap taskId now1 (Data ())) s in
  let s2 := exec (toggleTaskCompletion snap taskId now2 (Data ())) s1 in
  queries s2
  = queries s ++ [ UpdateTask taskId (toggledStatus task)
                     (if completed task then None else Some now1);
                   UpdateTask taskId (toggledStatus task)
                     (if completed task then None else Some now2) ]
  ∧ tasks (cells s2) = map (withStatus taskId (toggledStatus task)) (tasks (cells s))
  ∧ ∃ t, taskWithId taskId (tasks (cells s2)) = Some t
         ∧ completed t = completed task
         ∧ isCompleted (status t) = negb (completed task)
         ∧ ¬ flagMatchesStatus t.
Proof.
  cbn zeta. unfold exec. rewrite !toggleTaskCompletion_run. cbn [fst snd]. rewrite Hfind.
  destruct s as [c u qs h]. destruct c as [ts sel ld er dr dov]. cbn in *.
  split; [by rewrite <- app_assoc|].
  assert (map (toggleIn taskId (toggledStatus task))
              (map (toggleIn taskId (toggledStatus task)) ts)
          = map (withStatus taskId (toggledStatus task)) ts) as ->.
  { rewrite List.map_map. apply map_ext. intros t. apply toggleIn_twice. }
  split; [done|].
  exists (withStatus taskId (toggledStatus task) task).
  assert (hasId taskId task = true) as Hk
    by (apply hasId_spec; by apply taskWithId_elem in Hfind as [_ ?]).
  split.
  - change (List.find (hasId taskId) ?l) with (taskWithId taskId l) in *.
    by rewrite find_map_withStatus, Hfind.
  - unfold withStatus, flagMatchesStatus, toggledStatus. rewrite Hk.
    destruct task as [? ? ? [] ? ? ? ? ?]; cbn; done.
Qed.

(** X12.  Two toggles, each from the render that shows the task as it is,
    bring the flag back but not always the status: the first query asks
    for the opposite of the flag, the second for the opposite of that, and
    the task with that id ends [completed] if it was completed and
    [pending] if not.  A task that was [in_progress] or [archived] is
    [pending] afterwards, in the list and in the database. *)
Theorem X12_toggle_twice_resets_status (s : Store) (taskId now1 now2 : string) (task : Task)
    (Hfind : taskWithId taskId (tasks (cells s)) = Some task) :
  let s1 := exec (toggleTaskCompletion (cells s) taskId now1 (Data ())) s in
  let s2 := exec (toggleTaskCompletion (cells s1) taskId now2 (Data ())) s1 in
  let final := if completed task then Completed else Pending in
  queries s2
  = queries s ++ [ UpdateTask taskId (toggledStatus task)
                     (if completed task then None else Some now1);
                   UpdateTask taskId final
                     (if completed task then Some now2 else None) ]
  ∧ tasks (cells s2) = map (withStatus taskId final) (tasks (cells s))
  ∧ taskWithId taskId (tasks (cells s2)) = Some (task <| status := final |>)
  ∧ (tasks (cells s2) = tasks (cells s) → status task = final).
Proof.
  cbn zeta.
  assert (hasId taskId task = true) as Hk
    by (apply hasId_spec; by apply taskWithId_elem in Hfind as [_ ?]).
  destruct (toggle_accepted (cells s) taskId now1 s task Hfind) as [Hq1 Ht1].
  set (s1 := exec (toggleTaskCompletion (cells s) taskId now1 (Data ())) s) in *.
  assert (taskWithId taskId (tasks (cells s1))
          = Some (toggleIn taskId (toggledStatus task) task)) as Hfind1
    by (by rewrite Ht1, find_map_toggleIn, Hfind).
  destruct (toggle_accepted (cells s1) taskId now2 s1 _ Hfind1) as [Hq2 Ht2].
  set (s2 := exec (toggleTaskCompletion (cells s1) taskId now2 (Data ())) s1) in *.
  assert (toggledStatus (toggleIn taskId (toggledStatus task) task)
          = if completed task then Completed else Pending) as Hst
    by (unfold toggleIn, toggledStatus; rewrite Hk;
        by destruct task as [? ? ? [] ? ? ? ? ?]).
  assert (completed (toggleIn taskId (toggledStatus task) task) = negb (completed task)) as Hc
    by (unfold toggleIn; rewrite Hk; by destruct task).
  rewrite Hst, Hc in Hq2. rewrite Hst in Ht2.
  split; [rewrite Hq2, Hq1, <- app_assoc; by destruct (completed task)|].
  assert (tasks (cells s2)
          = map (withStatus taskId (if completed task then Completed else Pending))
                (tasks (cells s))) as Ht.
  { rewrite Ht2, Ht1, List.map_map. apply map_ext. intros t. apply toggleIn_twice. }
  split; [exact Ht|].
  assert (taskWithId taskId (tasks (cells s2))
          = Some (task <| status := if completed task then Completed else Pending |>)) as Hf.
  { rewrite Ht, find_map_withStatus, Hfind. cbn [fmap option_fmap option_map].
    unfold withStatus. by rewrite Hk. }
  split; [exact Hf|].
  intros Heq. rewrite Heq, Hfind in Hf. injection Hf as Hf.
  by rewrite Hf at 1.
Qed.

Lemma deleteTask_run snap taskId answer s :
  deleteTask snap taskId answer s
  = (Ok (),
     let s1 := s <| queries ::= (λ l, l ++ [DeleteTask taskId]) |> in
     match answer with
     | Data _ =>
         let updatedTasks := filter (λ task, hasId taskId task = false) (tasks snap) in
         s1 <| cells ::= (λ c,
                 let c1 := c <| tasks := updatedTasks |> in
                 if isSelected taskId (selectedTask snap)
                 then c1 <| selectedTask := head updatedTasks |>
                 else c1) |>
     | _ => s1
     end).
Proof.
  unfold deleteTask, try_catch.
  destruct answer as [[]|e|e]; [|done..].
  destruct s as [c u qs h], (isSelected taskId (selectedTask snap)); reflexivity.
Qed.

(** X13.  [deleteTask] never throws and always sends the delete query.
    When the query fails or rejects no cell changes.  When it is accepted,
    the list becomes the list of the render without the tasks of that id:
    the id is gone, the other tasks are all there, in their order; if the
    selected task had that id the selection moves to the first task left
    (to none when the list is empty), otherwise it stays; so a selection
    that was in the list of the render is in the new list. *)
Theorem X13_deleteTask_removes_by_id (s : Store) (taskId : string) (answer : Answer unit) :
  let snap := cells s in
  let s' := exec (deleteTask snap taskId answer) s in
  outcome (deleteTask snap taskId answer) s = Ok ()
  ∧ queries s' = queries s ++ [DeleteTask taskId]
  ∧ match answer with
    | Data _ =>
        (taskId ∉ map id (tasks (cells s')))
        ∧ sublist (tasks (cells s')) (tasks snap)
        ∧ (∀ t, t ∈ tasks snap → id t ≠ taskId → t ∈ tasks (cells s'))
        ∧ selectedTask (cells s')
          = (if isSelected taskId (selectedTask snap)
             then head (tasks (cells s')) else selectedTask snap)
        ∧ ((∀ sel, selectedTask snap = Some sel → sel ∈ tasks snap) →
           ∀ sel, selectedTask (cells s') = Some sel → sel ∈ tasks (cells s'))
    | _ => cells s' = cells s
    end.
Proof.
  cbn zeta. unfold exec, outcome. rewrite deleteTask_run. cbn [fst snd].
  split; [done|]. split; [by destruct answer, s|].
  destruct answer as [[]|e|e]; [|by destruct s..].
  destruct s as [c u qs h]. destruct c as [ts sel ld er dr dov].
  cbn [cells queries tasks selectedTask apply_update constant].
  assert (∀ t, t ∈ filter (λ task, hasId taskId task = false) ts ↔ t ∈ ts ∧ id t ≠ taskId)
    as Hin.
  { intros t. rewrite list_elem_of_filter, hasId_false. tauto. }
  assert (taskId ∉ map id (filter (λ task, hasId taskId task = false) ts)) as Hgone.
  { intros (t & Hid & Ht%list_elem_of_In)%list_elem_of_In%in_map_iff.
    apply Hin in Ht as [_ Hne]. done. }
  destruct (isSelected taskId sel) eqn:His; cbn.
  - split; [exact Hgone|]. split; [apply sublist_filter|].
    split; [intros t Ht Hne; by apply Hin|]. split; [done|].
    intros _ sel' Hsel'. by apply head_Some_elem_of.
  - split; [exact Hgone|]. split; [apply sublist_filter|].
    split; [intros t Ht Hne; by apply Hin|]. split; [done|].
    intros Hsel sel' ->. apply Hin. split; [by apply Hsel|].
    apply hasId_false. exact His.
Qed.

(** X14.  Two deletions started from the same render bring the first
    task back.  Both queries are sent, but the second call writes the
    list of its render without its own task: a task deleted by the first
    call is in the list again, though it is gone from the database. *)
Theorem X14_deleteTask_twice_from_one_render (s : Store) (first second : Task)
    (Hfirst : first ∈ tasks (cells s))
    (Hsecond : second ∈ tasks (cells s))
    (Hdistinct : id first ≠ id second) :
  let snap := cells s in
  let s1 := exec (deleteTask snap (id first) (Data ())) s in
  let s2 := exec (deleteTask snap (id second) (Data ())) s1 in
  queries s2 = queries s ++ [DeleteTask (id first); DeleteTask (id second)]
  ∧ (first ∉ tasks (cells s1))
  ∧ first ∈ tasks (cells s2)
  ∧ (second ∉ tasks (cells s2)).
Proof.
  cbn zeta. unfold exec. rewrite !deleteTask_run. cbn [fst snd].
  destruct s as [c u qs h]. destruct c as [ts sel ld er dr dov].
  cbn [cells queries tasks selectedTask apply_update constant] in *.
  split; [cbn; by rewrite <- app_assoc|].
  assert (∀ k t, t ∈ filter (λ task, hasId k task = false) ts ↔ t ∈ ts ∧ id t ≠ k) as Hin.
  { intros k t. rewrite list_elem_of_filter, hasId_false. tauto. }
  destruct (isSelected (id first) sel), (isSelected (id second) sel); cbn;
    unfold constant; rewrite !Hin; (split; [tauto|]); (split; [done|]); tauto.
Qed.

Lemma findIndex_spec {A} (p : A → bool) (l : list A) :
  (findIndex p l = (-1)%Z ∧ Forall (λ x, p x = false) l)
  ∨ ∃ i x, findIndex p l = Z.of_nat i ∧ l !! i = Some x ∧ p x = true.
Proof.
  induction l as [|a l IH]; [left; by split|].
  cbn [findIndex]. destruct (p a) eqn:Hp.
  - right. by exists 0, a.
  - destruct IH as [[-> Hall]|(i & x & -> & Hi & Hx)].
    + left. split; [done|]. by constructor.
    + right. exists (S i), x. split; [|done].
      destruct (Z.of_nat i) eqn:E; lia.
Qed.

Lemma handleDrop_run snap dropIndex dragged item s :
  draggedTask snap = Some dragged →
  tasks snap !! takenFrom dragged (tasks snap) = Some item →
  handleDrop snap dropIndex s
  = (Ok (),
     if (findIndex (hasId (id dragged)) (tasks snap) =? Z.of_nat dropIndex)%Z then s
     else
       let rest := delete (takenFrom dragged (tasks snap)) (tasks snap) in
       let to := putAt dropIndex (tasks snap) in
       s <| cells ::= (λ c, c <| tasks := take to rest ++ item :: drop to rest |>
                              <| draggedTask := None |>
                              <| dragOverIndex := None |>) |>).
Proof.
  intros Hd Hitem. unfold handleDrop. rewrite Hd.
  destruct (_ =? _)%Z eqn:Hsame; [done|].
  assert (takenFrom dragged (tasks snap) < length (tasks snap)) as Hlt
    by (by eapply lookup_lt_Some).
  assert (actualStart (findIndex (hasId (id dragged)) (tasks snap)) (length (tasks snap))
          = takenFrom dragged (tasks snap)) as Hfrom.
  { unfold actualStart, takenFrom in *.
    destruct (findIndex_spec (hasId (id dragged)) (tasks snap))
      as [[-> _]|(i & x & -> & Hi & _)].
    - cbn. lia.
    - apply lookup_lt_Some in Hi.
      destruct (Z.ltb_spec (Z.of_nat i) 0); [lia|]. rewrite Nat2Z.id. lia. }
  unfold spliceOut. rewrite Hfrom, Hitem. unfold spliceIn.
  assert (actualStart (Z.of_nat dropIndex)
            (length (delete (takenFrom dragged (tasks snap)) (tasks snap)))
          = putAt dropIndex (tasks snap)) as ->.
  { unfold actualStart, putAt. rewrite length_delete by (by rewrite Hitem).
    destruct (Z.ltb_spec (Z.of_nat dropIndex) 0); [lia|]. by rewrite Nat2Z.id. }
  destruct s as [c u qs h]. by destruct c.
Qed.

(** X15.  A drop moves one task and keeps the rest in order.  With a drag
    under way and a non-empty list (the list is only rendered then), the
    new list is a rearrangement of the list of the render; nothing is sent
    to the database.  When the dragged task is dropped on its own index,
    nothing changes, the drag included.  Otherwise one task is taken out
    and put at index [min(dropIndex, length - 1)], the other tasks keep
    their order, and the drag is over.  The task taken is the one at the
    index of the dragged task's id; when no task of the list has that id,
    it is the last task of the list. *)
Theorem X15_handleDrop_moves_one_task (s : Store) (dropIndex : nat) (dragged : Task)
    (Hdragged : draggedTask (cells s) = Some dragged)
    (Hshown : tasks (cells s) ≠ []) :
  let l := tasks (cells s) in
  let dragIndex := findIndex (hasId (id dragged)) l in
  let s' := exec (handleDrop (cells s) dropIndex) s in
  outcome (handleDrop (cells s) dropIndex) s = Ok ()
  ∧ queries s' = queries s
  ∧ holes s' = holes s
  ∧ tasks (cells s') ≡ₚ l
  ∧ (if (dragIndex =? Z.of_nat dropIndex)%Z then s' = s
     else
       tasks (cells s') !! putAt dropIndex l = l !! takenFrom dragged l
       ∧ delete (putAt dropIndex l) (tasks (cells s')) = delete (takenFrom dragged l) l
       ∧ draggedTask (cells s') = None
       ∧ dragOverIndex (cells s') = None)
  ∧ match l !! takenFrom dragged l with
    | Some item => (id item = id dragged ↔ (0 ≤ dragIndex)%Z)
                   ∧ ((dragIndex < 0)%Z → last l = Some item)
    | None => False
    end.
Proof.
  cbn zeta.
  assert (takenFrom dragged (tasks (cells s)) < length (tasks (cells s))) as Hlt.
  { unfold takenFrom.
    destruct (findIndex_spec (hasId (id dragged)) (tasks (cells s)))
      as [[-> _]|(i & x & -> & Hi & _)].
    - cbn. destruct (tasks (cells s)); [done|cbn; lia].
    - apply lookup_lt_Some in Hi. destruct (Z.ltb_spec (Z.of_nat i) 0); [lia|].
      by rewrite Nat2Z.id. }
  destruct (lookup_lt_is_Some_2 _ _ Hlt) as [item Hitem].
  unfold exec, outcome. rewrite (handleDrop_run _ _ _ _ _ Hdragged Hitem). cbn [fst snd].
  rewrite Hitem.
  assert (putAt dropIndex (tasks (cells s))
          ≤ length (delete (takenFrom dragged (tasks (cells s))) (tasks (cells s))))%nat
    as Hto.
  { unfold putAt. rewrite length_delete by (by rewrite Hitem). lia. }
  split; [done|].
  destruct (_ =? _)%Z eqn:Hsame.
  - apply Z.eqb_eq in Hsame.
    split; [done|]. split; [done|]. split; [done|]. split; [done|].
    unfold takenFrom in Hitem.
    destruct (findIndex_spec (hasId (id dragged)) (tasks (cells s)))
      as [[Hm _]|(i & x & Hm & Hi & Hx)]; [exfalso; lia|]. rewrite Hm in *.
    destruct (Z.ltb_spec (Z.of_nat i) 0); [lia|]. rewrite Nat2Z.id in Hitem.
    simplify_eq. split; [|lia]. split; [lia|]. intros _. by apply hasId_spec.
  - destruct s as [c u qs h]. destruct c as [ts sel ld er dr dov].
    cbn [cells queries holes tasks draggedTask dragOverIndex apply_update constant] in *.
    set (from := takenFrom dragged ts) in *. set (to := putAt dropIndex ts) in *.
    cbn. fold from to. unfold constant.
    split; [done|]. split; [done|].
    split.
    { rewrite <- Permutation_middle, take_drop. symmetry. by apply delete_Permutation. }
    split.
    { split; [|split; [|done]].
      - rewrite list_lookup_middle; [done|]. rewrite length_take. lia.
      - assert (length (take to (delete from ts)) = to) as Hlen
          by (rewrite length_take; lia).
        rewrite <- Hlen at 1. by rewrite delete_middle, take_drop. }
    unfold from, takenFrom in Hitem.
    destruct (findIndex_spec (hasId (id dragged)) ts)
      as [[Hm Hall]|(i & x & Hm & Hi & Hx)]; rewrite Hm in *.
    + cbn in Hitem. split.
      * split; [|lia]. intros Hid. exfalso.
        rewrite Forall_forall in Hall.
        assert (hasId (id dragged) item = false) as Hf
          by (apply Hall; by eapply list_elem_of_lookup_2).
        apply hasId_false in Hf. done.
      * intros _. rewrite last_lookup. rewrite <- Hitem. f_equal. lia.
    + destruct (Z.ltb_spec (Z.of_nat i) 0); [lia|]. rewrite Nat2Z.id in Hitem.
      simplify_eq. split; [|lia]. split; [lia|]. intros _. by apply hasId_spec.
Qed.

(** The theorems above on the list of two tasks. *)

Lemma X11_toggle_twice_from_one_render_witness :
  let s1 := exec (toggleTaskCompletion (cells twoTasks) "t1" "10:00" (Data ())) twoTasks in
  let s2 := exec (toggleTaskCompletion (cells twoTasks) "t1" "10:05" (Data ())) s1 in
  tasks (cells s2) = [writeReport <| status := Completed |>; readPaper].
Proof.
  pose proof (X11_toggle_twice_from_one_render twoTasks "t1" "10:00" "10:05" writeReport
                eq_refl) as (_ & H & _).
  exact H.
Defined.

Lemma X12_toggle_twice_resets_status_witness :
  let s1 := exec (toggleTaskCompletion (cells twoTasks) "t2" "10:00" (Data ())) twoTasks in
  let s2 := exec (toggleTaskCompletion (cells s1) "t2" "10:05" (Data ())) s1 in
  tasks (cells s2) = [writeReport; readPaper <| status := Pending |>].
Proof.
  pose proof (X12_toggle_twice_resets_status twoTasks "t2" "10:00" "10:05" readPaper
                eq_refl) as (_ & H & _).
  exact H.
Defined.

Lemma X14_deleteTask_twice_from_one_render_witness :
  let s1 := exec (deleteTask (cells twoTasks) "t1" (Data ())) twoTasks in
  let s2 := exec (deleteTask (cells twoTasks) "t2" (Data ())) s1 in
  tasks (cells s1) = [readPaper] ∧ writeReport ∈ tasks (cells s2).
Proof.
  split; [reflexivity|].
  apply (X14_deleteTask_twice_from_one_render twoTasks writeReport readPaper).
  - apply list_elem_of_here.
  - apply list_elem_of_further, list_elem_of_here.
  - discriminate.
Defined.

Lemma X15_handleDrop_moves_one_task_witness :
  let s' := exec (handleDrop (cells dragging) 0) dragging in
  tasks (cells s') !! 0 = Some readPaper
  ∧ delete 0 (tasks (cells s')) = [writeReport].
Proof.
  assert (tasks (cells dragging) ≠ []) as Hshown by discriminate.
  pose proof (X15_handleDrop_moves_one_task dragging 0 readPaper eq_refl Hshown)
    as (_ & _ & _ & _ & H & _).
  split; [exact (proj1 H) | exact (proj1 (proj2 H))].
Defined.

Lemma ids_elem (t : Task) (l : list Task) : t ∈ l → id t ∈ map id l.
Proof. intros H. apply list_elem_of_In, in_map, list_elem_of_In, H. Qed.

Lemma ids_filter k (t : Task) (l : list Task) :
  id t ∈ map id l → id t ≠ k → id t ∈ map id (filter (λ task, hasId k task = false) l).
Proof.
  intros (x & Hx & Hin%list_elem_of_In)%list_elem_of_In%in_map_iff Hne.
  rewrite <- Hx. apply ids_elem. apply list_elem_of_filter. split; [|done].
  apply hasId_false. by rewrite Hx.
Qed.

Lemma handleDrop_tasks (s : Store) (dropIndex : nat) :
  tasks (cells s) ≠ [] →
  let s' := exec (handleDrop (cells s) dropIndex) s in
  tasks (cells s') ≡ₚ tasks (cells s)
  ∧ selectedTask (cells s') = selectedTask (cells s)
  ∧ holes s' = holes s.
Proof.
  intros Hne. cbn zeta.
  destruct (draggedTask (cells s)) as [dragged|] eqn:Hd;
    [|unfold exec, handleDrop; by rewrite Hd].
  assert (takenFrom dragged (tasks (cells s)) < length (tasks (cells s))) as Hlt.
  { unfold takenFrom.
    destruct (findIndex_spec (hasId (id dragged)) (tasks (cells s)))
      as [[-> _]|(i & x & -> & Hi & _)].
    - cbn. destruct (tasks (cells s)); [done|cbn; lia].
    - apply lookup_lt_Some in Hi. destruct (Z.ltb_spec (Z.of_nat i) 0); [lia|].
      by rewrite Nat2Z.id. }
  destruct (lookup_lt_is_Some_2 _ _ Hlt) as [item Hitem].
  unfold exec. rewrite (handleDrop_run _ _ _ _ _ Hd Hitem). cbn [snd].
  destruct (_ =? _)%Z; [done|].
  destruct s as [c u qs h]. destruct c as [ts sel ld er dr dov]. cbn in *. unfold constant.
  split; [|done].
  rewrite <- Permutation_middle, take_drop. symmetry. by apply delete_Permutation.
Qed.

Lemma fetchTasks_cells answer s :
  let s' := exec (fetchTasks answer) s in
  holes s' = holes s
  ∧ tasks (cells s')
    = match currentUser s, answer with
      | Some _, Data rows => map transform rows
      | _, _ => tasks (cells s)
      end
  ∧ selectedTask (cells s')
    = match currentUser s, answer with
      | Some _, Data (first :: _) => Some (transform first)
      | _, _ => selectedTask (cells s)
      end.
Proof.
  cbn zeta. unfold exec, fetchTasks, try_finally, try_catch.
  destruct s as [c user qs h]. cbn [currentUser].
  destruct user as [uid|]; [destruct answer as [rows|e|e]|]; cbn; try done.
  by destruct rows.
Qed.

Lemma gesture_oneSelected (g : Gesture) (s : Store) :
  oneSelected (cells s) ∧ holes s = false →
  oneSelected (cells (exec (gesture g) s)) ∧ holes (exec (gesture g) s) = false.
Proof.
  intros [Hsel Hholes]. unfold oneSelected in *.
  destruct g as [answer|i|i now answer|i answer|i|i| |i| ]; cbn [gesture].
  - (* Fetch *)
    destruct (fetchTasks_cells answer s) as (Hh & Ht & Hs).
    rewrite Hh. split; [|done]. rewrite Ht, Hs.
    destruct (currentUser s) as [uid|]; [|done].
    destruct answer as [rows|e|e]; [|done..].
    destruct rows as [|r rows]; [done|].
    intros _. eexists. split; [done|]. apply list_elem_of_here.
  - (* Select *)
    unfold exec, onTask, mbind, T_bind, get.
    destruct (tasks (cells s) !! i) as [task|] eqn:Hi; [|done].
    destruct s as [c user qs h]. destruct c as [ts sel ld er dr dov]. cbn in *.
    split; [|done]. intros _. exists task. split; [done|].
    apply ids_elem. by eapply list_elem_of_lookup_2.
  - (* Toggle *)
    unfold exec, onTask, mbind, T_bind, get.
    destruct (tasks (cells s) !! i) as [task|] eqn:Hi; [|done].
    rewrite toggleTaskCompletion_run. cbn [snd].
    destruct (taskWithId _ _); [|done].
    destruct answer as [[]|e|e]; destruct s as [c user qs h];
      destruct c as [ts sel ld er dr dov]; cbn in *; try done.
    split; [|done]. intros Hne.
    assert (map id (map (toggleIn (id task) (toggledStatus t)) ts) = map id ts) as ->
      by (rewrite List.map_map; apply map_ext; intros ?; apply id_toggleIn).
    apply Hsel. by destruct ts.
  - (* Delete *)
    unfold exec, onTask, mbind, T_bind, get.
    destruct (tasks (cells s) !! i) as [task|] eqn:Hi; [|done].
    rewrite deleteTask_run. cbn [snd].
    destruct answer as [[]|e|e]; destruct s as [c user qs h];
      destruct c as [ts sel ld er dr dov]; cbn in *; try done.
    split; [|done].
    destruct Hsel as (cur & -> & Hcur); [by destruct ts|]. cbn.
    destruct (hasId (id task) cur) eqn:Hk; cbn; unfold constant; intros Hne.
    + destruct (filter _ ts) as [|t rest] eqn:Hf; [done|].
      exists t. split; [done|]. apply list_elem_of_here.
    + exists cur. split; [done|]. apply ids_filter; [done|]. by apply hasId_false.
  - (* DragStart *)
    unfold exec, onTask, mbind, T_bind, get.
    destruct (tasks (cells s) !! i) as [task|] eqn:Hi; [|done].
    destruct s as [c user qs h]. by destruct c.
  - destruct s as [c user qs h]. by destruct c.
  - destruct s as [c user qs h]. by destruct c.
  - (* Drop *)
    unfold exec, mbind, T_bind, get.
    destruct (tasks (cells s)) as [|t ts] eqn:Hts.
    { change (((mret () : T unit) s).2) with s.
      split; [intros Hne; by rewrite Hts in Hne | done]. }
    assert (tasks (cells s) ≠ []) as Hne by (by rewrite Hts).
    destruct (handleDrop_tasks s i Hne) as (Hperm & Hs & Hh). unfold exec in *.
    rewrite Hh. split; [|done].
    intros _. destruct Hsel as (cur & Hcur & Hin); [done|].
    exists cur. split; [congruence|]. rewrite <- Hts in Hin.
    apply list_elem_of_In. apply list_elem_of_In in Hin.
    eapply Permutation_in; [|exact Hin]. symmetry. by apply Permutation_map.
  - destruct s as [c user qs h]. by destruct c.
Qed.

(** X16.  Whenever the list has tasks, one of them is selected.  In every
    state that gestures on the list lead to from the mounted panel, each
    handled by the render that shows the list as it is (loading, selecting,
    toggling, deleting, dragging and dropping, whatever Supabase answers),
    a non-empty list comes with a selection whose id is the id of a task
    of the list, and no [undefined] has got into the list. *)
Theorem X16_a_listed_task_is_selected (user : option string) (l : list Gesture) :
  let s := gestures l (initialStore user) in
  oneSelected (cells s) ∧ holes s = false.
Proof.
  cbn zeta. unfold gestures.
  assert (oneSelected (cells (initialStore user)) ∧ holes (initialStore user) = false) as H0
    by (split; [intros []; reflexivity | reflexivity]).
  revert H0. generalize (initialStore user).
  induction l as [|g l IH]; intros s Hs; [exact Hs|].
  cbn [foldl]. apply IH. by apply gesture_oneSelected.
Qed.

End TaskListProperties.

(** * Starting a session *)

Lemma lift_run {A} (m : M A) (p : Panel) :
  lift m p = (fromRes (m (core p)).1, p <| core := (m (core p)).2 |>).
Proof. unfold lift. by destruct (m (core p)). Qed.

Lemma panel_bind_run {A B} (m : P A) (f : A → P B) (p : Panel) :
  (m ≫= f) p = match m p with
               | (Returned a, p') => f a p'
               | (Raises error, p') => (Raises error, p')
               end.
Proof. reflexivity. Qed.

Lemma total_run (m : P unit) (p : Panel) : total m → m p = (Returned (), panel_exec m p).
Proof.
  intros H. specialize (H p). unfold panel_outcome, panel_exec in *.
  destruct (m p) as [r p']. cbn in *. by subst.
Qed.

Lemma total_seq (m k : P unit) : total m → total k → total (m;; k).
Proof.
  intros Hm Hk p. unfold panel_outcome. rewrite panel_bind_run, (total_run m p Hm).
  apply Hk.
Qed.

Lemma exec_seq (m k : P unit) (p : Panel) :
  total m → panel_exec (m;; k) p = panel_exec k (panel_exec m p).
Proof.
  intros Hm. unfold panel_exec at 1. by rewrite panel_bind_run, (total_run m p Hm).
Qed.

Lemma total_lift (m : M unit) : (∀ w, outcome m w = Ok ()) → total (lift m).
Proof.
  intros H p. unfold panel_outcome. rewrite lift_run. cbn [fst].
  fold (outcome m (core p)). by rewrite H.
Qed.

Lemma total_try_catch (m : P unit) (h : Raised → P unit) :
  (∀ e, total (h e)) → total (panel_try_catch m h).
Proof.
  intros Hh p. unfold panel_outcome, panel_try_catch.
  destruct (m p) as [[[]|e] p']; [done|]. apply Hh.
Qed.

Lemma total_ret : total (mret ()).
Proof. by intros p. Qed.

Lemma total_call c : total (call c).
Proof. by intros p. Qed.

Lemma total_defer d ms : total (defer d ms).
Proof. by intros p. Qed.

Lemma exec_lift (m : M unit) (p : Panel) :
  panel_exec (lift m) p = p <| core := exec m (core p) |>.
Proof. unfold panel_exec. by rewrite lift_run. Qed.

Lemma toggleVideo_total snap gum w : outcome (toggleVideo snap gum) w = Ok ().
Proof.
  unfold outcome, toggleVideo, try_catch.
  by destruct (toggleVideoTry snap gum w) as [[[]|e] w'].
Qed.

Lemma total_toggleScreenShare snap answer : total (toggleScreenShare snap answer).
Proof. apply total_try_catch. intros e. by apply total_lift. Qed.

Lemma total_initMicrophone env : total (initMicrophone env).
Proof. apply total_try_catch. intros _. apply total_ret. Qed.

Lemma total_initCamera snap env : total (initCamera snap env).
Proof.
  unfold initCamera. destruct (_ && _); [|apply total_ret].
  apply total_try_catch. intros _. by apply total_lift.
Qed.

Lemma total_initScreenShare snap env : total (initScreenShare snap env).
Proof.
  unfold initScreenShare. destruct (_ && _); [|apply total_ret].
  apply total_try_catch. intros _. apply total_ret.
Qed.

Lemma total_animation event answer : total (lift (triggerSplineSessionAnimation event answer)).
Proof.
  apply total_lift. intros w. unfold outcome.
  by destruct (triggerSplineSessionAnimation_run event answer w) as (? & ? & ->).
Qed.

Lemma total_startHeartbeat snap sid act : total (lift (startHeartbeat snap sid act)).
Proof.
  apply total_lift. intros w. unfold outcome. rewrite startHeartbeat_run.
  by destruct (heartbeatIntervalRef w).
Qed.

Lemma total_setupRealtimeChannel sid : total (lift (setupRealtimeChannel sid)).
Proof.
  apply total_lift. intros w. unfold outcome, setupRealtimeChannel.
  rewrite bind_run. unfold get at 1. cbn iota.
  by destruct (realtimeChannelRef w).
Qed.

Lemma total_updateSessionState sid : total (lift (updateSessionState sid)).
Proof. by apply total_lift. Qed.

Create HintDb total.

#[local] Hint Resolve total_ret total_call total_defer total_toggleScreenShare
  total_initMicrophone total_initCamera total_initScreenShare total_animation
  total_startHeartbeat total_setupRealtimeChannel total_updateSessionState : total.

Lemma sessionSteps_run snap env sid p :
  sessionSteps snap env sid p
  = (Returned (), sessionOn snap sid (devicesReady snap env sid p)).
Proof.
  assert (total (lift (setState (λ s, s <| showControlPanel := true |>)))) as Hshow
    by (by apply total_lift).
  assert (total (sessionSteps snap env sid)) as Htotal.
  { unfold sessionSteps. repeat (apply total_seq; [auto with total|]). auto with total. }
  rewrite (total_run _ _ Htotal). f_equal.
  unfold sessionSteps, sessionOn, devicesReady.
  repeat (rewrite exec_seq by auto with total). reflexivity.
Qed.

(** ** What the steps of a session start leave alone *)

Lemma keeps_ret {A X} (view : Panel → X) (a : A) : keeps view (mret a).
Proof. by intros p. Qed.

Lemma keeps_bind {A B X} (view : Panel → X) (m : P A) (f : A → P B) :
  keeps view m → (∀ a, keeps view (f a)) → keeps view (m ≫= f).
Proof.
  intros Hm Hk p. specialize (Hm p). unfold panel_exec in *. rewrite panel_bind_run.
  destruct (m p) as [[a|e] p']; cbn [snd] in *; [|done].
  by rewrite <- Hm, <- (Hk a p').
Qed.

Lemma keeps_try_catch {A X} (view : Panel → X) (m : P A) (h : Raised → P A) :
  keeps view m → (∀ e, keeps view (h e)) → keeps view (panel_try_catch m h).
Proof.
  intros Hm Hh p. specialize (Hm p). unfold panel_exec, panel_try_catch in *.
  destruct (m p) as [[a|e] p']; cbn [snd] in *; [done|].
  by rewrite <- Hm, <- (Hh e p').
Qed.

Lemma keeps_lift {A X} (view : World → X) (m : M A) :
  (∀ x, preserves (λ w, view w = x) m) → keeps (λ p, view (core p)) (lift m).
Proof.
  intros H p. unfold panel_exec. rewrite lift_run. cbn [snd].
  destruct p. by apply H.
Qed.

Lemma keeps_lift_rest {A X} (view : Panel → X) (m : M A) :
  (∀ p w, view (p <| core := w |>) = view p) → keeps view (lift m).
Proof. intros H p. unfold panel_exec. rewrite lift_run. apply H. Qed.

Ltac schedule_writes :=
  try (apply preserves_newStream; intros ? ? ? ?);
  first [ assumption
        | match goal with
          | H : ?view ?w = ?x |- ?view _ = ?x => exact H
          end ].

Lemma tryConstraintSets_schedule gum cs x : ∀ i lastError,
  preserves (λ w, (schedule w, realtimeChannelRef w) = x)
            (tryConstraintSets gum i cs lastError).
Proof.
  intros i lastError w H. unfold exec. rewrite tryConstraintSets_run.
  by destruct (loopEnd gum i cs lastError) as [[[ts|] le]|e].
Qed.

Lemma toggleVideo_schedule snap gum x :
  preserves (λ w, (schedule w, realtimeChannelRef w) = x) (toggleVideo snap gum).
Proof.
  unfold toggleVideo, toggleVideoTry, turnOffVideo, startCamera, toggleVideoCatch.
  preserves_auto; try apply tryConstraintSets_schedule; schedule_writes.
Qed.

Lemma initMicrophone_schedule env :
  keeps (λ p, (schedule (core p), realtimeChannelRef (core p))) (initMicrophone env).
Proof.
  apply keeps_try_catch; [|intros _; apply keeps_ret].
  apply (keeps_lift (λ w, (schedule w, realtimeChannelRef w))). intros x.
  preserves_auto; schedule_writes.
Qed.

Lemma initCamera_schedule snap env :
  keeps (λ p, (schedule (core p), realtimeChannelRef (core p))) (initCamera snap env).
Proof.
  unfold initCamera. destruct (_ && _); [|apply keeps_ret].
  apply keeps_try_catch; [|intros _];
    apply (keeps_lift (λ w, (schedule w, realtimeChannelRef w))); intros x.
  - apply toggleVideo_schedule.
  - preserves_auto; schedule_writes.
Qed.

Lemma toggleScreenShare_schedule snap answer :
  keeps (λ p, (schedule (core p), realtimeChannelRef (core p)))
        (toggleScreenShare snap answer).
Proof.
  unfold toggleScreenShare.
  apply keeps_try_catch.
  - destruct (isScreenSharing snap), (screenStream snap) as [ss|];
      [apply (keeps_lift (λ w, (schedule w, realtimeChannelRef w))); intros x;
       unfold stopScreenShare; preserves_auto; schedule_writes|..];
      unfold startScreenShare;
      (apply keeps_bind; [by intros p|intros _]);
      (apply keeps_bind;
       [apply (keeps_lift (λ w, (schedule w, realtimeChannelRef w))); intros x;
        destruct answer; preserves_auto; schedule_writes|intros stream]);
      (apply keeps_bind;
       [apply (keeps_lift (λ w, (schedule w, realtimeChannelRef w))); intros x;
        unfold showScreen; preserves_auto; schedule_writes|intros _]);
      intros p; unfold panel_exec, addEndedListener; by destruct (getVideoTracks _).
  - intros e. apply (keeps_lift (λ w, (schedule w, realtimeChannelRef w))). intros x.
    preserves_auto; schedule_writes.
Qed.

Lemma filter_start_snoc (l : list Call) (c : Call) :
  isStartSession c = false →
  filter (λ c, isStartSession c = true) (l ++ [c]) = filter (λ c, isStartSession c = true) l.
Proof.
  intros Hc. rewrite filter_app, filter_cons_False by (by rewrite Hc).
  by rewrite filter_nil, app_nil_r.
Qed.

Lemma toggleScreenShare_backstage snap answer :
  keeps (λ p, (backstage p, sessionsRequested p)) (toggleScreenShare snap answer).
Proof.
  unfold toggleScreenShare.
  apply keeps_try_catch; [|intros e; by apply keeps_lift_rest].
  destruct (isScreenSharing snap), (screenStream snap) as [ss|];
    [by apply keeps_lift_rest|..];
    unfold startScreenShare;
    (apply keeps_bind;
     [intros p; unfold panel_exec, call, backstage, sessionsRequested; cbn;
      by rewrite filter_start_snoc|intros _]);
    (apply keeps_bind; [by apply keeps_lift_rest|intros stream]);
    (apply keeps_bind; [by apply keeps_lift_rest|intros _]);
    intros p; unfold panel_exec, addEndedListener; by destruct (getVideoTracks _).
Qed.

Lemma setupRealtimeChannel_run sid w :
  setupRealtimeChannel sid w
  = (Ok (),
     (say (match realtimeChannelRef w with
           | Some c => [EvRemoveChannel c]
           | None => []
           end ++ [EvSubscribe ("session:" +:+ sid)]) w)
       <| realtimeChannelRef := Some ("session:" +:+ sid) |>).
Proof.
  unfold setupRealtimeChannel. rewrite bind_run. unfold get at 1. cbn iota.
  destruct w as [s ch ? ? ? ? ? ? ? ? ? ? ? tr].
  destruct ch; unfold mbind, M_bind, emit, modify, say; cbn; [|done].
  by rewrite <- app_assoc.
Qed.

Lemma devicesReady_schedule snap env sid p :
  schedule (core (devicesReady snap env sid p)) = schedule (core p)
  ∧ realtimeChannelRef (core (devicesReady snap env sid p)) = Some ("session:" +:+ sid).
Proof.
  unfold devicesReady.
  set (p1 := panel_exec (lift (setupRealtimeChannel sid)) p).
  assert (schedule (core p1) = schedule (core p)
          ∧ realtimeChannelRef (core p1) = Some ("session:" +:+ sid)) as [Hs Hc].
  { unfold p1. rewrite exec_lift. unfold exec. rewrite setupRealtimeChannel_run.
    by destruct p. }
  rewrite <- Hs, <- Hc.
  assert (∀ q, (schedule (core (panel_exec (lift (triggerSplineSessionAnimation AnimStart
                                                    (start_animation env))) q)),
                realtimeChannelRef (core (panel_exec (lift (triggerSplineSessionAnimation
                                                    AnimStart (start_animation env))) q)))
               = (schedule (core q), realtimeChannelRef (core q))) as Ha.
  { intros q. rewrite exec_lift. unfold exec.
    destruct (triggerSplineSessionAnimation_run AnimStart (start_animation env) (core q))
      as (url & n & ->). by destruct q. }
  pose proof (Ha (panel_exec (initScreenShare snap env)
                    (panel_exec (initCamera snap env) (panel_exec (initMicrophone env) p1))))
    as H1.
  assert (keeps (λ p, (schedule (core p), realtimeChannelRef (core p)))
                (initScreenShare snap env)) as Hscreen.
  { unfold initScreenShare. destruct (_ && _); [|apply keeps_ret].
    apply keeps_try_catch; [apply toggleScreenShare_schedule|intros _; apply keeps_ret]. }
  pose proof (Hscreen (panel_exec (initCamera snap env) (panel_exec (initMicrophone env) p1)))
    as H2.
  pose proof (initCamera_schedule snap env (panel_exec (initMicrophone env) p1)) as H3.
  pose proof (initMicrophone_schedule env p1) as H4.
  cbv beta in *. rewrite H2, H3, H4 in H1.
  split; [exact (f_equal fst H1) | exact (f_equal snd H1)].
Qed.

Lemma devicesReady_backstage snap env sid p :
  backstage (devicesReady snap env sid p) = backstage p
  ∧ sessionsRequested (devicesReady snap env sid p) = sessionsRequested p.
Proof.
  assert (keeps (λ p, (backstage p, sessionsRequested p))
                (lift (setupRealtimeChannel sid);;
                 initMicrophone env;; initCamera snap env;; initScreenShare snap env;;
                 lift (triggerSplineSessionAnimation AnimStart (start_animation env))))
    as H.
  { apply keeps_bind; [by apply keeps_lift_rest|intros _].
    apply keeps_bind; [|intros _].
    { apply keeps_try_catch; [by apply keeps_lift_rest|intros _; apply keeps_ret]. }
    apply keeps_bind; [|intros _].
    { unfold initCamera. destruct (_ && _); [|apply keeps_ret].
      apply keeps_try_catch; [|intros _]; by apply keeps_lift_rest. }
    apply keeps_bind; [|intros _; by apply keeps_lift_rest].
    unfold initScreenShare. destruct (_ && _); [|apply keeps_ret].
    apply keeps_try_catch; [apply toggleScreenShare_backstage|intros _; apply keeps_ret]. }
  specialize (H p). cbv beta in H.
  repeat (rewrite exec_seq in H by auto with total).
  fold (devicesReady snap env sid p) in H.
  split; [exact (f_equal fst H) | exact (f_equal snd H)].
Qed.

Lemma startSailingSession_run snap env task p :
  selectedTask snap = Some task →
  mayStart snap = true →
  startSailingSession snap env p
  = (Returned (),
     startSettled
       match start_session env with
       | SessionStarted sid => sessionOn snap sid (devicesReady snap env sid (requested task p))
       | SessionRejected error => startFailed error (requested task p)
       end).
Proof.
  intros Hsel Hguard. unfold startSailingSession. rewrite Hsel, Hguard.
  destruct p as [w ? ? ? ? ?]. destruct w.
  destruct (start_session env) as [sid|e];
    cbv beta iota zeta delta [mbind P_bind M_bind lift call setState modify mret P_ret M_ret
                              raise fromRes panel_try_finally panel_try_catch fst snd core].
  - rewrite sessionSteps_run. reflexivity.
  - by destruct e.
Qed.

Lemma startHeartbeat_exec snap sid act w :
  exec (startHeartbeat snap sid act) w
  = match heartbeatIntervalRef w with
    | Some _ => w
    | None => started snap sid act w
    end.
Proof. unfold exec. rewrite startHeartbeat_run. by destruct (heartbeatIntervalRef w). Qed.

Lemma sessionOn_run snap sid q :
  sessionOn snap sid q
  = q <| core := (match heartbeatIntervalRef (core q) with
                  | Some _ => λ w, w
                  | None => started snap sid true
                  end ((core q) <| st ::= (λ s, s <| currentSessionId := Some sid |>
                                                 <| isSessionActive := true |>
                                                 <| sessionStartTime := Some (now (core q)) |>) |>))
                   <| st ::= (λ s, s <| showControlPanel := true |>) |> |>
      <| deferred ::= (λ l, l ++ [((now (core q) + 2000)%N, DeferPassiveListening sid)]) |>
      <| calls ::= (λ l, l ++ [CallOnClose]) |>.
Proof.
  unfold sessionOn. rewrite !exec_lift, startHeartbeat_exec.
  destruct q as [w ? ? ? ? ?]. destruct w as [s ? ? ? ? ? hb ? ? ? ? ? ? ?].
  destruct hb; reflexivity.
Qed.

Lemma start_accepted snap env task sid p :
  selectedTask snap = Some task →
  mayStart snap = true →
  start_session env = SessionStarted sid →
  let p' := panel_exec (startSailingSession snap env) p in
  sessionCells (st (core p')) = (Some sid, true, Some (now (core p)), true, false)
  ∧ realtimeChannelRef (core p') = Some ("session:" +:+ sid)
  ∧ sessionsRequested p' = sessionsRequested p ++ [CallStartSession (task_id task)]
  ∧ last (calls p') = Some CallOnClose
  ∧ backstage p' = (deferred p ++ [((now (core p) + 2000)%N, DeferPassiveListening sid)],
                    hasPermissions p, showPermissionPanel p)
  ∧ (now (core p'), currentUser (core p')) = (now (core p), currentUser (core p))
  ∧ (timers (core p'), next_timer (core p'), heartbeatIntervalRef (core p'))
    = match heartbeatIntervalRef (core p) with
      | Some id => (timers (core p), next_timer (core p), Some id)
      | None => (timers (core p) ++ [warmupTimer snap sid true (core p);
                                     heartbeatTimer snap sid true (core p)],
                 S (S (next_timer (core p))), Some (S (next_timer (core p))))
      end.
Proof.
  intros Hsel Hguard Hstart. cbn zeta. unfold panel_exec.
  rewrite (startSailingSession_run _ _ _ _ Hsel Hguard), Hstart. cbn [snd].
  destruct (devicesReady_schedule snap env sid (requested task p)) as [Hs Hc].
  destruct (devicesReady_backstage snap env sid (requested task p)) as [Hb Hr].
  rewrite sessionOn_run.
  set (q := devicesReady snap env sid (requested task p)) in *.
  assert (schedule (core q) = schedule (core p)) as Hs' by (rewrite Hs; by destruct p).
  assert (backstage q = backstage p) as Hb' by (rewrite Hb; by destruct p).
  assert (sessionsRequested q = sessionsRequested p ++ [CallStartSession (task_id task)])
    as Hr'.
  { rewrite Hr. unfold sessionsRequested, requested. destruct p. cbn.
    by rewrite filter_app. }
  clearbody q. clear Hs Hb Hr.
  destruct q as [w hp sp cl el df]. destruct p as [w0 hp0 sp0 cl0 el0 df0].
  unfold schedule, backstage, sessionsRequested in *. cbn [core deferred hasPermissions
    showPermissionPanel calls] in *.
  injection Hs' as Ht Hn Hh Hnow Hu _. injection Hb' as -> -> ->.
  destruct w as [s ch vr sr ve se hb str ns tm nt nw cu tr]. cbn in Ht, Hn, Hh, Hnow, Hu, Hc.
  subst. unfold startSettled.
  destruct (heartbeatIntervalRef w0) as [id|] eqn:Hid; cbn;
    (repeat split; try done);
    try (by rewrite last_snoc);
    try (by rewrite filter_start_snoc).
Qed.

Lemma heartbeatSessions_timers w w' l :
  timers w' = timers w ++ l →
  heartbeatSessions w'
  = heartbeatSessions w
    ++ omap (λ t, match callback t with
                  | CbHeartbeat _ sid _ => Some sid
                  | CbRearmAcknowledgment => None
                  end) l.
Proof. unfold heartbeatSessions. intros ->. apply omap_app. Qed.

(** X17.  A session that the backend accepts starts, whatever the devices
    and the animation webhook answer.  With a task selected and no session
    in its render, [startSailingSession] returns; the session id, the
    active flag, the start time and the control panel are set and the
    starting flag is cleared; the realtime channel is the one of the new
    session; one session was asked of the backend, the last call is
    [onClose], and passive listening is due two seconds later.  If no
    heartbeat was running, the warm-up timeout and the interval of the new
    session are scheduled; if a handle was still there, no timer is added
    and the handle stays: the new session has no heartbeat of its own. *)
Theorem X17_session_starts_whatever_the_devices (snap : State) (env : StartEnv) (p : Panel)
    (task : Task) (sid : string)
    (Hselected : selectedTask snap = Some task)
    (Hguard : mayStart snap = true)
    (Haccepted : start_session env = SessionStarted sid) :
  let p' := panel_exec (startSailingSession snap env) p in
  panel_outcome (startSailingSession snap env) p = Returned ()
  ∧ sessionCells (st (core p')) = (Some sid, true, Some (now (core p)), true, false)
  ∧ realtimeChannelRef (core p') = Some ("session:" +:+ sid)
  ∧ sessionsRequested p' = sessionsRequested p ++ [CallStartSession (task_id task)]
  ∧ last (calls p') = Some CallOnClose
  ∧ deferred p' = deferred p ++ [((now (core p) + 2000)%N, DeferPassiveListening sid)]
  ∧ match heartbeatIntervalRef (core p) with
    | Some id =>
        timers (core p') = timers (core p)
        ∧ heartbeatIntervalRef (core p') = Some id
        ∧ heartbeatSessions (core p') = heartbeatSessions (core p)
    | None =>
        timers (core p') = timers (core p) ++ [warmupTimer snap sid true (core p);
                                               heartbeatTimer snap sid true (core p)]
        ∧ heartbeatIntervalRef (core p') = Some (S (next_timer (core p)))
        ∧ heartbeatSessions (core p') = heartbeatSessions (core p) ++ [sid; sid]
    end.
Proof.
  cbn zeta.
  destruct (start_accepted snap env task sid p Hselected Hguard Haccepted)
    as (Hcells & Hchannel & Hreq & Hlast & Hback & _ & Htimers).
  split.
  { unfold panel_outcome. by rewrite (startSailingSession_run _ _ _ _ Hselected Hguard). }
  split; [exact Hcells|]. split; [exact Hchannel|]. split; [exact Hreq|].
  split; [exact Hlast|]. split; [exact (f_equal (λ x, x.1.1) Hback)|].
  destruct (heartbeatIntervalRef (core p)) as [id|]; injection Htimers as Ht _ Hh.
  - split; [exact Ht|]. split; [exact Hh|]. unfold heartbeatSessions. by rewrite Ht.
  - split; [exact Ht|]. split; [exact Hh|]. by rewrite (heartbeatSessions_timers _ _ _ Ht).
Qed.

(** X18.  A start that gets no session leaves nothing behind but the
    error.  Without a selected task, or with a session starting or active
    in its render, [startSailingSession] does nothing at all.  When
    [auth.startSession] rejects, it returns with the session cells cleared
    and the starting flag off, and [sessionError] shows the message of the
    rejection when that is an [Error] and "Failed to start sailing
    session" when it is any other value; the session request is the only
    call it made: no channel, no device request, no timer, no stream. *)
Theorem X18_start_without_session_only_reports (snap : State) (env : StartEnv) (p : Panel) :
  match selectedTask snap, mayStart snap, start_session env with
  | Some task, true, SessionRejected error =>
      startSailingSession snap env p
      = (Returned (),
         p <| core ::= (λ w, w <| st ::= (λ s,
                          s <| sessionError :=
                                 Some match error with
                                      | RaisedError e => err_message e
                                      | RaisedOther => "Failed to start sailing session"
                                      end |>
                            <| isSessionActive := false |>
                            <| currentSessionId := None |>
                            <| isStartingSession := false |>) |>) |>
           <| calls ::= (λ l, l ++ [CallStartSession (task_id task)]) |>)
  | Some task, true, SessionStarted sid =>
      sessionsRequested (panel_exec (startSailingSession snap env) p)
      = sessionsRequested p ++ [CallStartSession (task_id task)]
  | _, _, _ => startSailingSession snap env p = (Returned (), p)
  end.
Proof.
  destruct (selectedTask snap) as [task|] eqn:Hsel; [|unfold startSailingSession; by rewrite Hsel].
  destruct (mayStart snap) eqn:Hguard;
    [|unfold startSailingSession; by rewrite Hsel, Hguard].
  destruct (start_session env) as [sid|error] eqn:Hstart.
  - by destruct (start_accepted snap env task sid p Hsel Hguard Hstart) as (_ & _ & Hreq & _).
  - rewrite (startSailingSession_run _ _ _ _ Hsel Hguard), Hstart.
    unfold startSettled, startFailed, startErrorShown, requested.
    destruct p as [w ? ? ? ? ?]. by destruct w.
Qed.

(** X20.  The guard does not stop a second call from the same render.
    Two calls of [startSailingSession] that close over the same render (a
    task selected, no session) both ask the backend for a session.  The
    session cells and the realtime channel end up with the second session;
    the heartbeat, started by the first call, is not started again: every
    heartbeat timer that was added reports for the first session. *)
Theorem X20_two_starts_from_one_render (snap : State) (env1 env2 : StartEnv) (p : Panel)
    (task : Task) (sid1 sid2 : string)
    (Hselected : selectedTask snap = Some task)
    (Hguard : mayStart snap = true)
    (Hfirst : start_session env1 = SessionStarted sid1)
    (Hsecond : start_session env2 = SessionStarted sid2)
    (Hidle : heartbeatIntervalRef (core p) = None) :
  let p1 := panel_exec (startSailingSession snap env1) p in
  let p2 := panel_exec (startSailingSession snap env2) p1 in
  sessionsRequested p2
  = sessionsRequested p ++ [CallStartSession (task_id task); CallStartSession (task_id task)]
  ∧ currentSessionId (st (core p2)) = Some sid2
  ∧ realtimeChannelRef (core p2) = Some ("session:" +:+ sid2)
  ∧ heartbeatSessions (core p2) = heartbeatSessions (core p) ++ [sid1; sid1]
  ∧ timers (core p2) = timers (core p1).
Proof.
  cbn zeta.
  destruct (start_accepted snap env1 task sid1 p Hselected Hguard Hfirst)
    as (_ & _ & Hreq1 & _ & _ & _ & Htimers1).
  set (p1 := panel_exec (startSailingSession snap env1) p) in *.
  destruct (start_accepted snap env2 task sid2 p1 Hselected Hguard Hsecond)
    as (Hcells2 & Hchannel2 & Hreq2 & _ & _ & _ & Htimers2).
  rewrite Hidle in Htimers1. injection Htimers1 as Ht1 _ Hh1.
  rewrite Hh1 in Htimers2. injection Htimers2 as Ht2 _ _.
  split; [by rewrite Hreq2, Hreq1, <- app_assoc|].
  split; [exact (f_equal (λ x, x.1.1.1.1) Hcells2)|].
  split; [exact Hchannel2|]. split; [|exact Ht2].
  unfold heartbeatSessions at 1. rewrite Ht2. fold (heartbeatSessions p1.(core)).
  by rewrite (heartbeatSessions_timers _ _ _ Ht1).
Qed.

Lemma handleEndVoyage_failed snap env w sid :
  truthyId (currentSessionId snap) = Some sid →
  sessionEndFails env = true →
  ∃ err, exec (handleEndVoyage snap env) w
         = say [EvRequest (ReqSessionEnd sid)] (w <| st ::= failedEnd err |>).
Proof.
  intros Hsid Hfail. unfold exec, handleEndVoyage. rewrite Hsid.
  repeat (rewrite bind_run; unfold setState at 1, modify at 1; cbn iota).
  unfold try_finally, try_catch.
  match goal with
  | |- context [endVoyageTry snap sid env ?x] =>
      destruct (endVoyageTry_fails snap sid env x Hfail) as [err ->]
  end.
  exists err. destruct w. reflexivity.
Qed.

(** X21.  After an end that left the heartbeat running, the next session
    gets no heartbeat of its own.  When [handleEndVoyage] fails at the
    finalize call, or the session is ended from the other side, the
    session cells are reset and the heartbeat handle stays.  A render of
    that panel passes the guard of [startSailingSession]; the session it
    starts becomes the current one, but [startHeartbeat] finds the old
    handle: no timer is added, and the interval that is left still reports
    for the sessions it reported for before. *)
Theorem X21_next_session_inherits_the_old_heartbeat (ending : M unit) (env : StartEnv)
    (p : Panel) (id : nat) (task : Task) (sid : string)
    (Hending : leavesHeartbeat ending)
    (Hrunning : heartbeatIntervalRef (core p) = Some id)
    (Hsettled : isStartingSession (st (core p)) = false)
    (Hselected : selectedTask (st (core p)) = Some task)
    (Haccepted : start_session env = SessionStarted sid) :
  let p1 := panel_exec (lift ending) p in
  let p2 := panel_exec (startSailingSession (st (core p1)) env) p1 in
  mayStart (st (core p1)) = true
  ∧ timers (core p1) = timers (core p)
  ∧ currentSessionId (st (core p2)) = Some sid
  ∧ isSessionActive (st (core p2)) = true
  ∧ timers (core p2) = timers (core p)
  ∧ heartbeatIntervalRef (core p2) = Some id
  ∧ heartbeatSessions (core p2) = heartbeatSessions (core p).
Proof.
  cbn zeta. set (p1 := panel_exec (lift ending) p).
  assert (mayStart (st (core p1)) = true
          ∧ selectedTask (st (core p1)) = Some task
          ∧ timers (core p1) = timers (core p)
          ∧ heartbeatIntervalRef (core p1) = Some id) as (Hguard & Hsel & Ht & Hh).
  { unfold p1. rewrite exec_lift.
    destruct Hending as [snap envEnd sidOld Hsid Hfail|].
    - destruct (handleEndVoyage_failed snap envEnd (core p) sidOld Hsid Hfail) as [err ->].
      destruct p as [w ? ? ? ? ?]. destruct w as [s ? ? ? ? ? ? ? ? ? ? ? ? ?].
      by destruct s.
    - destruct p as [w ? ? ? ? ?]. destruct w as [s ? ? ? ? ? ? ? ? ? ? ? ? ?].
      destruct s. cbn in *. unfold mayStart. cbn. by rewrite Hsettled. }
  destruct (start_accepted _ env task sid p1 Hsel Hguard Haccepted)
    as (Hcells & _ & _ & _ & _ & _ & Htimers).
  rewrite Hh in Htimers. injection Htimers as Ht2 _ Hh2.
  split; [exact Hguard|]. split; [exact Ht|].
  split; [exact (f_equal (λ x, x.1.1.1.1) Hcells)|].
  split; [exact (f_equal (λ x, x.1.1.1.2) Hcells)|].
  split; [by rewrite Ht2|]. split; [exact Hh2|].
  unfold heartbeatSessions. by rewrite Ht2, Ht.
Qed.

Lemma loopEnd_rejected gum e :
  (∀ i, gum i = GumReject e) →
  loopEnd gum 0 constraintSets None
  = if isPermissionError e then Throw e else Ok (None, Some e).
Proof.
  intros H. unfold constraintSets. cbn [loopEnd]. rewrite !H.
  by destruct (isPermissionError e).
Qed.

Lemma initCamera_is_toggleVideo snap env p :
  negb (isVideoOn snap) && isNull (videoStream snap) = true →
  initCamera snap env p = lift (toggleVideo snap (start_camera env)) p.
Proof.
  intros Hc. unfold initCamera, panel_try_catch. rewrite Hc, lift_run.
  pose proof (toggleVideo_total snap (start_camera env) (core p)) as Ht.
  unfold outcome in Ht. by rewrite Ht.
Qed.

Lemma animation_st event answer q :
  st (core (panel_exec (lift (triggerSplineSessionAnimation event answer)) q)) = st (core q).
Proof.
  rewrite exec_lift. unfold exec.
  destruct (triggerSplineSessionAnimation_run event answer (core q)) as (url & n & ->).
  by destruct q.
Qed.

Lemma initCamera_exec snap env q :
  isVideoOn snap = false → videoStream snap = None →
  core (panel_exec (initCamera snap env) q) = acquired snap (start_camera env) (core q).
Proof.
  intros Hoff Hnone. unfold panel_exec.
  rewrite initCamera_is_toggleVideo by (by rewrite Hoff, Hnone).
  rewrite lift_run. cbn [snd]. fold (exec (toggleVideo snap (start_camera env)) (core q)).
  rewrite toggleVideo_acquire
    by (unfold turnsOff, guarded; rewrite ?Hoff, ?Hnone; reflexivity).
  by destruct q.
Qed.

Lemma acquired_rejected snap gum e w :
  (∀ i, gum i = GumReject e) →
  sessionError (st (acquired snap gum w)) = Some (cameraErrorMessage e)
  ∧ isVideoOn (st (acquired snap gum w)) = false.
Proof.
  intros H. unfold acquired. cbn zeta. rewrite (loopEnd_rejected _ _ H).
  by destruct (isPermissionError e).
Qed.

(** X19.  The error of a camera that could not be started outlives the
    start of the session.  [toggleVideo] never throws, so the [catch] of
    step 3.5 that clears the error (the camera being optional) never
    runs: that step is [toggleVideo] and nothing else.  When every
    attempt at the camera is rejected, and no screen stream is waiting,
    the session starts all the same, active and with the control panel
    shown, but [sessionError] holds the camera message. *)
Theorem X19_camera_error_outlives_the_start (snap : State) (env : StartEnv) (p : Panel)
    (task : Task) (sid : string) (e : JsError)
    (Hselected : selectedTask snap = Some task)
    (Hguard : mayStart snap = true)
    (Haccepted : start_session env = SessionStarted sid)
    (Hoff : isVideoOn snap = false)
    (Hnone : videoStream snap = None)
    (Hscreen : screenStream snap = None)
    (Hrejected : ∀ i, start_camera env i = GumReject e) :
  let p' := panel_exec (startSailingSession snap env) p in
  (∀ q, initCamera snap env q = lift (toggleVideo snap (start_camera env)) q)
  ∧ isSessionActive (st (core p')) = true
  ∧ showControlPanel (st (core p')) = true
  ∧ isVideoOn (st (core p')) = false
  ∧ sessionError (st (core p')) = Some (cameraErrorMessage e).
Proof.
  cbn zeta.
  assert (negb (isVideoOn snap) && isNull (videoStream snap) = true) as Hc
    by (by rewrite Hoff, Hnone).
  split; [intros q; by apply initCamera_is_toggleVideo|].
  unfold panel_exec at 1 2 3 4.
  rewrite (startSailingSession_run _ _ _ _ Hselected Hguard), Haccepted. cbn [snd].
  rewrite sessionOn_run.
  assert (sessionError (st (core (devicesReady snap env sid (requested task p))))
          = Some (cameraErrorMessage e)
          ∧ isVideoOn (st (core (devicesReady snap env sid (requested task p)))) = false)
    as [Herr Hvideo].
  { unfold devicesReady, initScreenShare. rewrite Hscreen. cbn [isNull negb andb].
    change (panel_exec (mret ()) ?x) with x.
    rewrite animation_st, (initCamera_exec _ _ _ Hoff Hnone).
    by apply acquired_rejected. }
  destruct (devicesReady snap env sid (requested task p)) as [w ? ? ? ? ?].
  destruct w as [s ? ? ? ? ? hb ? ? ? ? ? ? ?]. destruct s.
  cbn in Herr, Hvideo. subst. by destruct hb.
Qed.

(** The theorems of this part on a panel with a task chosen. *)

Lemma X17_session_starts_whatever_the_devices_witness :
  let p' := panel_exec (startSailingSession taskChosen (devicesDenied "s1")) readyPanel in
  sessionCells (st (core p')) = (Some "s1", true, Some 0%N, true, false)
  ∧ sessionsRequested p' = [CallStartSession "t1"]
  ∧ deferred p' = [(2000%N, DeferPassiveListening "s1")].
Proof.
  pose proof (X17_session_starts_whatever_the_devices taskChosen (devicesDenied "s1")
                readyPanel _ "s1" eq_refl eq_refl eq_refl) as (_ & H1 & _ & H2 & _ & H3 & _).
  split; [exact H1|]. split; [exact H2 | exact H3].
Defined.

Lemma X19_camera_error_outlives_the_start_witness :
  let p' := panel_exec (startSailingSession taskChosen (devicesDenied "s1")) readyPanel in
  isSessionActive (st (core p')) = true
  ∧ sessionError (st (core p'))
    = Some "Failed to access camera. Please allow camera access in your browser settings.".
Proof.
  pose proof (X19_camera_error_outlives_the_start taskChosen (devicesDenied "s1")
                readyPanel _ "s1" _ eq_refl eq_refl eq_refl eq_refl eq_refl eq_refl
                (λ _, eq_refl)) as (_ & H1 & _ & _ & H2).
  split; [exact H1 | exact H2].
Defined.

Lemma X20_two_starts_from_one_render_witness :
  let p1 := panel_exec (startSailingSession taskChosen (allGranted "s1")) readyPanel in
  let p2 := panel_exec (startSailingSession taskChosen (allGranted "s2")) p1 in
  sessionsRequested p2 = [CallStartSession "t1"; CallStartSession "t1"]
  ∧ currentSessionId (st (core p2)) = Some "s2"
  ∧ heartbeatSessions (core p2) = ["s1"; "s1"].
Proof.
  pose proof (X20_two_starts_from_one_render taskChosen (allGranted "s1") (allGranted "s2")
                readyPanel _ "s1" "s2" eq_refl eq_refl eq_refl eq_refl eq_refl)
    as (H1 & H2 & _ & H3 & _).
  split; [exact H1|]. split; [exact H2 | exact H3].
Defined.

Lemma X21_next_session_inherits_the_old_heartbeat_witness :
  let p1 := panel_exec (lift (handleEndVoyage (st sessionRunning) backendDown))
              sessionRunningPanel in
  let p2 := panel_exec (startSailingSession (st (core p1)) (allGranted "s2")) p1 in
  currentSessionId (st (core p2)) = Some "s2"
  ∧ heartbeatSessions (core p2) = ["s1"; "s1"].
Proof.
  pose proof (X21_next_session_inherits_the_old_heartbeat
                (handleEndVoyage (st sessionRunning) backendDown) (allGranted "s2")
                sessionRunningPanel 2 _ "s2"
                (failed_end (st sessionRunning) backendDown "s1" eq_refl eq_refl) eq_refl eq_refl eq_refl eq_refl)
    as (_ & _ & H1 & _ & _ & _ & H2).
  split; [exact H1 | exact H2].
Defined.

(** ** The screen cells agree *)

Lemma screenCoherent_view w w' :
  screenView w' = screenView w → screenCoherent w → screenCoherent w'.
Proof. unfold screenView, screenCoherent. intros [= -> -> ->]. done. Qed.

Ltac screen_writes :=
  try (apply preserves_newStream; intros ? ? ? ?);
  try (apply preserves_setTimeout; intros ? ? ? ?);
  try (apply preserves_setInterval; intros ? ? ? ?);
  first [ assumption
        | match goal with
          | H : screenCoherent ?w |- screenCoherent _ =>
              apply (screenCoherent_view w); [reflexivity | exact H]
          end ].

Lemma tryConstraintSets_screen gum cs : ∀ i lastError,
  preserves screenCoherent (tryConstraintSets gum i cs lastError).
Proof.
  intros i lastError w H. unfold exec. rewrite tryConstraintSets_run.
  destruct (loopEnd gum i cs lastError) as [[[ts|] le]|e];
    (apply (screenCoherent_view w); [reflexivity | exact H]).
Qed.

Lemma triggerSplineDriftScene_screen answer b retries :
  preserves screenCoherent (triggerSplineDriftScene answer b retries).
Proof.
  intros w H. unfold exec. rewrite triggerSplineDriftScene_run.
  apply (screenCoherent_view w); [reflexivity | exact H].
Qed.

Lemma toggleVideo_screen snap gum : preserves screenCoherent (toggleVideo snap gum).
Proof.
  unfold toggleVideo, toggleVideoTry, turnOffVideo, startCamera, toggleVideoCatch.
  preserves_auto; try apply tryConstraintSets_screen; screen_writes.
Qed.

Lemma cleanupMediaStreams_screen snap : preserves screenCoherent (cleanupMediaStreams snap).
Proof.
  intros w H. unfold exec, cleanupMediaStreams.
  destruct (videoStream snap), (screenStream snap), (micStream snap);
    destruct w as [s ? ? ? ? ? ? ? ? ? ? ? ? ?]; destruct s; cbn in *; try exact H; done.
Qed.

Lemma stopHeartbeat_screen : preserves screenCoherent stopHeartbeat.
Proof.
  intros w H. unfold exec. rewrite stopHeartbeat_run.
  destruct (heartbeatIntervalRef w); [|exact H].
  apply (screenCoherent_view w); [reflexivity | exact H].
Qed.

Lemma startHeartbeat_screen snap sid act :
  preserves screenCoherent (startHeartbeat snap sid act).
Proof.
  intros w H. rewrite startHeartbeat_exec.
  destruct (heartbeatIntervalRef w); [exact H|].
  apply (screenCoherent_view w); [reflexivity | exact H].
Qed.

Lemma cleanupRealtimeChannel_screen : preserves screenCoherent cleanupRealtimeChannel.
Proof. unfold cleanupRealtimeChannel. preserves_auto; screen_writes. Qed.

Lemma sendHeartbeat_screen snap sid act env :
  preserves screenCoherent (sendHeartbeat snap sid act env).
Proof.
  unfold sendHeartbeat, captureCameraFrame, captureScreenFrame, captureStream.
  preserves_auto; try apply triggerSplineDriftScene_screen; screen_writes.
Qed.

Lemma handleEndVoyage_screen snap env : preserves screenCoherent (handleEndVoyage snap env).
Proof.
  unfold handleEndVoyage, endVoyageTry, endVoyageSummary, endVoyageCatch,
    triggerSplineSessionAnimation.
  preserves_auto;
    try apply cleanupRealtimeChannel_screen;
    try apply cleanupMediaStreams_screen;
    try apply stopHeartbeat_screen;
    screen_writes.
Qed.

Lemma perform_screen a : preserves screenCoherent (perform a).
Proof.
  destruct a; cbn [perform].
  - apply toggleVideo_screen.
  - apply cleanupMediaStreams_screen.
  - apply sendHeartbeat_screen.
  - apply startHeartbeat_screen.
  - apply stopHeartbeat_screen.
  - intros w H. unfold exec. rewrite handleContinueWorking_run. cbn [snd].
    apply (screenCoherent_view w); [reflexivity | exact H].
  - apply handleEndVoyage_screen.
  - unfold setupRealtimeChannel. preserves_auto; screen_writes.
  - apply preserves_ret.
  - unfold on_session_ended. preserves_auto; screen_writes.
  - apply cleanupRealtimeChannel_screen.
  - unfold acknowledgeDrift. preserves_auto; screen_writes.
  - unfold fireTimer, runCallback.
    preserves_auto; try apply sendHeartbeat_screen; screen_writes.
  - unfold advance. preserves_auto; screen_writes.
Qed.

Lemma upholds_ret {A} (Q : World → Prop) (a : A) : upholds Q (mret a).
Proof. by intros p. Qed.

Lemma upholds_bind {A B} (Q : World → Prop) (m : P A) (f : A → P B) :
  upholds Q m → (∀ a, upholds Q (f a)) → upholds Q (m ≫= f).
Proof.
  intros Hm Hk p H. specialize (Hm p H). unfold panel_exec in *. rewrite panel_bind_run.
  destruct (m p) as [[a|e] p']; cbn [snd] in *; [|done].
  by apply (Hk a p').
Qed.

Lemma upholds_try_catch {A} (Q : World → Prop) (m : P A) (h : Raised → P A) :
  upholds Q m → (∀ e, upholds Q (h e)) → upholds Q (panel_try_catch m h).
Proof.
  intros Hm Hh p H. specialize (Hm p H). unfold panel_exec, panel_try_catch in *.
  destruct (m p) as [[a|e] p']; cbn [snd] in *; [done|].
  by apply (Hh e p').
Qed.

Lemma upholds_lift {A} (Q : World → Prop) (m : M A) : preserves Q m → upholds Q (lift m).
Proof.
  intros Hm p H. unfold panel_exec. rewrite lift_run. cbn [snd].
  destruct p. by apply Hm.
Qed.

(** What leaves the world of the panel alone upholds everything. *)
Lemma upholds_backstage {A} (Q : World → Prop) (m : P A) :
  (∀ p, core (panel_exec m p) = core p) → upholds Q m.
Proof. intros Hm p H. by rewrite Hm. Qed.

Lemma toggleScreenShare_screen snap answer :
  upholds screenCoherent (toggleScreenShare snap answer).
Proof.
  unfold toggleScreenShare. apply upholds_try_catch.
  - destruct (isScreenSharing snap), (screenStream snap) as [ss|].
    1: { apply upholds_lift. intros w H. unfold exec, stopScreenShare.
         destruct w as [s ? ? ? ? ? ? ? ? ? ? ? ? ?]. by destruct s. }
    all: unfold startScreenShare;
      (apply upholds_bind; [by apply upholds_backstage|intros _]);
      intros p H; unfold panel_exec; rewrite panel_bind_run, lift_run;
      destruct answer as [ts|e]; cbn [fst snd throw newStream fromRes];
        [|destruct p; exact H];
      rewrite panel_bind_run, lift_run; cbn [fst snd fromRes];
      unfold addEndedListener, raise;
      destruct (getVideoTracks _); cbn [snd];
      destruct p as [w ? ? ? ? ?]; destruct w as [s ? ? ? ? ? ? ? ? ? ? ? ? ?];
      by destruct s.
  - intros e. apply upholds_lift. preserves_auto; screen_writes.
Qed.

Lemma startSailingSession_screen snap env :
  upholds screenCoherent (startSailingSession snap env).
Proof.
  intros p H.
  destruct (selectedTask snap) as [task|] eqn:Hsel;
    [|unfold panel_exec, startSailingSession; by rewrite Hsel].
  destruct (mayStart snap) eqn:Hguard;
    [|unfold panel_exec, startSailingSession; by rewrite Hsel, Hguard].
  unfold panel_exec. rewrite (startSailingSession_run _ _ _ _ Hsel Hguard). cbn [snd].
  assert (screenCoherent (core (requested task p))) as H0
    by (destruct p as [w ? ? ? ? ?]; destruct w as [s ? ? ? ? ? ? ? ? ? ? ? ? ?];
        by destruct s).
  destruct (start_session env) as [sid|e].
  - assert (screenCoherent (core (devicesReady snap env sid (requested task p)))) as H1.
    { unfold devicesReady.
      assert (upholds screenCoherent
                (lift (triggerSplineSessionAnimation AnimStart (start_animation env)))) as Ha.
      { apply upholds_lift. intros w Hw. unfold exec.
        destruct (triggerSplineSessionAnimation_run AnimStart (start_animation env) w)
          as (url & n & ->).
        apply (screenCoherent_view w); [reflexivity | exact Hw]. }
      apply Ha.
      assert (upholds screenCoherent (initScreenShare snap env)) as Hs.
      { unfold initScreenShare. destruct (_ && _); [|apply upholds_ret].
        apply upholds_try_catch; [apply toggleScreenShare_screen|intros _; apply upholds_ret]. }
      apply Hs.
      assert (upholds screenCoherent (initCamera snap env)) as Hc.
      { unfold initCamera. destruct (_ && _); [|apply upholds_ret].
        apply upholds_try_catch; [apply upholds_lift, toggleVideo_screen|intros _].
        apply upholds_lift. preserves_auto; screen_writes. }
      apply Hc.
      assert (upholds screenCoherent (initMicrophone env)) as Hm.
      { apply upholds_try_catch; [|intros _; apply upholds_ret].
        apply upholds_lift. preserves_auto; screen_writes. }
      apply Hm.
      assert (upholds screenCoherent (lift (setupRealtimeChannel sid))) as Hch.
      { apply upholds_lift. unfold setupRealtimeChannel. preserves_auto; screen_writes. }
      by apply Hch. }
    rewrite sessionOn_run.
    destruct (devicesReady snap env sid (requested task p)) as [w ? ? ? ? ?].
    destruct w as [s ? ? ? ? ? hb ? ? ? ? ? ? ?]. destruct s. by destruct hb.
  - destruct p as [w ? ? ? ? ?]. destruct w as [s ? ? ? ? ? ? ? ? ? ? ? ? ?]. by destruct s.
Qed.

Lemma panel_perform_screen a : upholds screenCoherent (panel_perform a).
Proof.
  destruct a; cbn [panel_perform].
  - apply upholds_lift, perform_screen.
  - apply upholds_lift. intros w H. unfold exec. rewrite toggleMic_run.
    destruct (micStream snap) as [ms|].
    + destruct (getAudioTracks (tracksOf w ms)); [exact H|].
      apply (screenCoherent_view w); [reflexivity | exact H].
    + destruct answer; (apply (screenCoherent_view w); [reflexivity | exact H]).
  - apply upholds_lift. intros w H. unfold exec. rewrite unmount_run. cbn [snd].
    unfold unmounted.
    destruct (heartbeatIntervalRef w), (realtimeChannelRef w);
      (apply (screenCoherent_view w); [reflexivity | exact H]).
  - apply toggleScreenShare_screen.
  - intros p H. unfold panel_exec, browserStopsSharing.
    destruct (bool_decide _); rewrite lift_run; cbn [snd];
      destruct p as [w ? ? ? ? ?]; destruct w as [s ? ? ? ? ? ? ? ? ? ? ? ? ?];
      by destruct s.
  - by apply upholds_backstage.
  - destruct incoming as [ts|].
    + intros p H. unfold panel_exec. rewrite panel_bind_run, lift_run.
      cbn [fst snd newStream]. unfold handlePermissionsGranted.
      destruct p as [w ? ? ? ? ?]. destruct w as [s ? ? ? ? ? ? ? ? ? ? ? ? ?].
      destruct s. by destruct (screenStream snap), hasEssentialPermissions.
    + intros p H. unfold panel_exec, handlePermissionsGranted.
      destruct p as [w ? ? ? ? ?]. destruct w as [s ? ? ? ? ? ? ? ? ? ? ? ? ?].
      destruct s. by destruct hasEssentialPermissions.
  - apply upholds_backstage. intros p. unfold handleStartJourney.
    by destruct (selectedTask snap).
  - apply upholds_backstage. intros p. unfold permissionPanelClosed.
    by destruct (_ && _).
  - apply startSailingSession_screen.
  - intros p H. unfold panel_exec, handleCloseSummary.
    destruct p as [w ? ? ? ? ?]. destruct w as [s ? ? ? ? ? ? ? ? ? ? ? ? ?]. by destruct s.
  - intros p H. unfold panel_exec, fireDeferred.
    destruct (deferred p !! i) as [[due d]|]; [|exact H].
    destruct (due <=? now (core p))%N; [|exact H].
    destruct d as [sid|snap].
    + by destruct p.
    + apply (startSailingSession_screen snap env). by destruct p.
Qed.

Lemma panel_run_upholds (Q : World → Prop) :
  (∀ a, upholds Q (panel_perform a)) → ∀ l p, Q (core p) → Q (core (panel_run l p)).
Proof.
  intros H l. unfold panel_run.
  induction l as [|a l IH]; intros p Hp; [exact Hp|].
  cbn [foldl]. apply IH. by apply H.
Qed.

Lemma devicesReady_calls snap env sid q :
  negb (isNull (screenStream snap)) && negb (isScreenSharing snap) = false →
  calls (devicesReady snap env sid q) = calls q.
Proof.
  intros Hdead.
  assert (keeps calls
                (lift (setupRealtimeChannel sid);;
                 initMicrophone env;; initCamera snap env;; initScreenShare snap env;;
                 lift (triggerSplineSessionAnimation AnimStart (start_animation env))))
    as H.
  { apply keeps_bind; [by apply keeps_lift_rest|intros _].
    apply keeps_bind; [|intros _].
    { apply keeps_try_catch; [by apply keeps_lift_rest|intros _; apply keeps_ret]. }
    apply keeps_bind; [|intros _].
    { unfold initCamera.
      destruct (negb (isVideoOn snap) && isNull (videoStream snap)); [|apply keeps_ret].
      apply keeps_try_catch; [|intros _]; by apply keeps_lift_rest. }
    apply keeps_bind; [|intros _; by apply keeps_lift_rest].
    unfold initScreenShare. rewrite Hdead. apply keeps_ret. }
  specialize (H q). cbv beta in H.
  repeat (rewrite exec_seq in H by auto with total). exact H.
Qed.

(** X22.  A session start never asks for the screen.  In every panel that
    a history leads to from the mounted panel, the three places that say
    whether the screen is shared agree: [isScreenSharing] is true exactly
    when [screenStream] holds a stream, and the ref holds that stream.  So
    for a render of such a panel the test of step 4 of
    [startSailingSession], a screen stream that is not being shared, is
    false: the step does nothing, and [startSailingSession] calls nothing
    but [auth.startSession] and [onClose]. *)
Theorem X22_session_start_never_asks_for_the_screen (user : option string)
    (l : list PanelAction) (env : StartEnv) (q : Panel) :
  let snap := st (core (panel_run l (initialPanel user))) in
  screenCoherent (core (panel_run l (initialPanel user)))
  ∧ initScreenShare snap env q = (Returned (), q)
  ∧ ∃ made, calls (panel_exec (startSailingSession snap env) q) = calls q ++ made
            ∧ Forall (λ c, c ≠ CallGetDisplayMedia) made.
Proof.
  cbn zeta.
  assert (screenCoherent (core (panel_run l (initialPanel user)))) as H.
  { apply panel_run_upholds; [apply panel_perform_screen|]. by split. }
  split; [exact H|].
  set (snap := st (core (panel_run l (initialPanel user)))) in *.
  assert (negb (isNull (screenStream snap)) && negb (isScreenSharing snap) = false) as Hdead.
  { destruct H as [H _]. fold snap in H. rewrite H. by destruct (screenStream snap). }
  split; [unfold initScreenShare; by rewrite Hdead|].
  destruct (selectedTask snap) as [task|] eqn:Hsel;
    [|exists []; unfold panel_exec, startSailingSession; rewrite Hsel, app_nil_r; by split].
  destruct (mayStart snap) eqn:Hguard;
    [|exists []; unfold panel_exec, startSailingSession; rewrite Hsel, Hguard, app_nil_r;
      by split].
  unfold panel_exec. rewrite (startSailingSession_run _ _ _ _ Hsel Hguard). cbn [snd].
  destruct (start_session env) as [sid|e].
  - exists [CallStartSession (task_id task); CallOnClose].
    split; [|by repeat constructor].
    rewrite sessionOn_run.
    pose proof (devicesReady_calls snap env sid (requested task q) Hdead) as Hc.
    destruct (devicesReady snap env sid (requested task q)) as [w ? ? cl ? ?].
    cbn in Hc. subst cl. destruct q. cbn. by rewrite <- app_assoc.
  - exists [CallStartSession (task_id task)]. split; [|by repeat constructor].
    by destruct q.
Qed.

Lemma showScreen_run stream w : showScreen stream w = (Ok (), screenShown stream w).
Proof. reflexivity. Qed.

Lemma startScreenShare_run ts p :
  getVideoTracks ts ≠ [] →
  startScreenShare (GumStream ts) p
  = (Returned (),
     p <| core := screenShown (next_stream (core p)) (addStream ts (core p)) |>
       <| calls ::= (λ l, l ++ [CallGetDisplayMedia]) |>
       <| endedListeners ::= (λ l, l ++ [next_stream (core p)]) |>).
Proof.
  intros Hv. unfold startScreenShare. rewrite panel_bind_run. unfold call at 1. cbn iota.
  rewrite panel_bind_run, lift_run.
  change (newStream ts ?w) with (Ok (next_stream w), addStream ts w).
  cbn [fst snd fromRes]. rewrite panel_bind_run, lift_run, showScreen_run.
  cbn [fst snd fromRes].
  unfold addEndedListener.
  assert (∀ w, tracksOf (screenShown (next_stream w) (addStream ts w)) (next_stream w) = ts)
    as Ht.
  { intros w. unfold tracksOf, screenShown, addStream. cbn [streams apply_update constant].
    by rewrite lookup_insert_eq. }
  destruct p as [w ? ? ? ? ?].
  change (core ({| core := w; hasPermissions := _; showPermissionPanel := _; calls := _;
                   endedListeners := _; deferred := _ |} <| calls ::= _ |>)) with w.
  repeat progress change (core (?q <| core := ?x |>)) with x.
  rewrite (Ht w). destruct (getVideoTracks ts); [done|]. reflexivity.
Qed.

(** X23.  A screen stream taken over from the permission panel is not
    watched.  [toggleScreenShare] and [handlePermissionsGranted] both
    install a stream in the three screen places, but only
    [toggleScreenShare] listens for the end of its video track.  When the
    user stops sharing in the browser, a stream started by
    [toggleScreenShare] is taken out of the cells; a stream taken over
    from the permission panel stays in them, marked as shared, with all
    its tracks ended. *)
Theorem X23_reused_screen_stream_is_not_watched (p : Panel) (snap : State) (granted : bool)
    (ts : list Track)
    (Hnone : screenStream snap = None)
    (Hfresh : next_stream (core p) ∉ endedListeners p)
    (Hvideo : getVideoTracks ts ≠ []) :
  let s := next_stream (core p) in
  let reused := panel_exec (panel_perform (ActPermissionsGranted snap granted (Some ts))) p in
  let started := panel_exec (toggleScreenShare snap (GumStream ts)) p in
  screenView (core reused) = (Some s, true, Some s)
  ∧ screenView (core started) = (Some s, true, Some s)
  ∧ endedListeners reused = endedListeners p
  ∧ endedListeners started = endedListeners p ++ [s]
  ∧ screenView (core (panel_exec (browserStopsSharing s) started)) = (None, false, None)
  ∧ screenView (core (panel_exec (browserStopsSharing s) reused)) = (Some s, true, Some s)
  ∧ released s (core (panel_exec (browserStopsSharing s) reused)).
Proof.
  cbn zeta.
  assert (panel_exec (panel_perform (ActPermissionsGranted snap granted (Some ts))) p
          = p <| core := (screenShown (next_stream (core p)) (addStream ts (core p)))
                           <| st ::= (λ st, st <| sessionError ::=
                                                    (λ e, if granted then None else e) |>) |> |>
                <| hasPermissions := granted |>) as ->.
  { unfold panel_exec. cbn [panel_perform]. rewrite panel_bind_run, lift_run.
    change (newStream ts ?w) with (Ok (next_stream w), addStream ts w).
    cbn [fst snd fromRes]. unfold handlePermissionsGranted. rewrite Hnone.
    rewrite panel_bind_run. unfold setHasPermissions at 1. cbn iota.
    rewrite panel_bind_run, lift_run, showScreen_run. cbn [fst snd fromRes].
    destruct p as [w ? ? ? ? ?]. destruct w as [s ? ? ? ? ? ? ? ? ? ? ? ? ?].
    destruct s. by destruct granted. }
  assert (panel_exec (toggleScreenShare snap (GumStream ts)) p
          = p <| core := screenShown (next_stream (core p)) (addStream ts (core p)) |>
              <| calls ::= (λ l, l ++ [CallGetDisplayMedia]) |>
              <| endedListeners ::= (λ l, l ++ [next_stream (core p)]) |>) as ->.
  { unfold panel_exec, toggleScreenShare, panel_try_catch. rewrite Hnone.
    destruct (isScreenSharing snap); by rewrite (startScreenShare_run _ _ Hvideo). }
  destruct p as [w hp sp cl el df]. destruct w as [s ? ? ? ? ? ? str ns ? ? ? ? ?].
  cbn in Hfresh. unfold panel_exec, browserStopsSharing.
  cbn [endedListeners core next_stream apply_update constant].
  rewrite bool_decide_true by (apply elem_of_app; right; apply list_elem_of_here).
  rewrite bool_decide_false by done.
  rewrite !lift_run.
  destruct s. split; [done|]. split; [done|]. split; [done|]. split; [done|].
  split; [done|]. split; [done|].
  cbn. unfold released, tracksOf. cbn. rewrite lookup_alter_eq, lookup_insert_eq. cbn.
  apply stop_not_live.
Qed.

Lemma X23_reused_screen_stream_is_not_watched_witness :
  let reused := panel_exec (panel_perform (ActPermissionsGranted taskChosen true
                                             (Some sharedScreen))) readyPanel in
  let started := panel_exec (toggleScreenShare taskChosen (GumStream sharedScreen))
                   readyPanel in
  isScreenSharing (st (core (panel_exec (browserStopsSharing 0) started))) = false
  ∧ isScreenSharing (st (core (panel_exec (browserStopsSharing 0) reused))) = true
  ∧ active (tracksOf (core (panel_exec (browserStopsSharing 0) reused)) 0) = false.
Proof.
  assert (0 ∉ endedListeners readyPanel) as Hfresh by apply not_elem_of_nil.
  assert (getVideoTracks sharedScreen ≠ []) as Hvideo by discriminate.
  pose proof (X23_reused_screen_stream_is_not_watched readyPanel taskChosen true sharedScreen
                eq_refl Hfresh Hvideo) as (_ & _ & _ & _ & H1 & H2 & _).
  split; [exact (f_equal (λ x, x.1.2) H1)|].
  split; [exact (f_equal (λ x, x.1.2) H2)|]. reflexivity.
Defined.

Lemma toggleScreenShare_start snap ts p :
  screenStream snap = None →
  getVideoTracks ts ≠ [] →
  panel_exec (toggleScreenShare snap (GumStream ts)) p
  = p <| core := screenShown (next_stream (core p)) (addStream ts (core p)) |>
      <| calls ::= (λ l, l ++ [CallGetDisplayMedia]) |>
      <| endedListeners ::= (λ l, l ++ [next_stream (core p)]) |>.
Proof.
  intros Hnone Hvideo. unfold panel_exec, toggleScreenShare, panel_try_catch. rewrite Hnone.
  destruct (isScreenSharing snap); by rewrite (startScreenShare_run _ _ Hvideo).
Qed.

Lemma browser_stop_streams s w :
  streams ((stopTracks s;; onScreenEnded) w).2 = alter (map stop) s (streams w).
Proof. by destruct w. Qed.

(** X24.  Nothing guards a second screen share from the same render.  Two
    calls of [toggleScreenShare] that close over a render without a screen
    stream both ask the browser for the screen.  The cells and the ref end
    up with the second stream; the first stream is neither stopped nor
    held by any cell, but its listener is still installed: when the user
    stops that first stream in the browser, the cells are cleared although
    the second stream is still being shared. *)
Theorem X24_two_screen_shares_from_one_render (p : Panel) (snap : State)
    (ts1 ts2 : list Track)
    (Hnone : screenStream snap = None)
    (Hvideo1 : getVideoTracks ts1 ≠ [])
    (Hvideo2 : getVideoTracks ts2 ≠ []) :
  let s := next_stream (core p) in
  let p1 := panel_exec (toggleScreenShare snap (GumStream ts1)) p in
  let p2 := panel_exec (toggleScreenShare snap (GumStream ts2)) p1 in
  let p3 := panel_exec (browserStopsSharing s) p2 in
  calls p2 = calls p ++ [CallGetDisplayMedia; CallGetDisplayMedia]
  ∧ screenView (core p2) = (Some (S s), true, Some (S s))
  ∧ tracksOf (core p2) s = ts1
  ∧ tracksOf (core p2) (S s) = ts2
  ∧ screenView (core p3) = (None, false, None)
  ∧ tracksOf (core p3) (S s) = ts2.
Proof.
  cbn zeta. rewrite !toggleScreenShare_start by done.
  destruct p as [w hp sp cl el df]. destruct w as [s ? ? ? ? ? ? str ns ? ? ? ? ?].
  unfold panel_exec, browserStopsSharing.
  cbn [endedListeners core next_stream apply_update constant screenShown addStream].
  rewrite bool_decide_true
    by (apply elem_of_app; left; apply elem_of_app; right; apply list_elem_of_here).
  rewrite lift_run. destruct s.
  split; [cbn; by rewrite <- app_assoc|]. split; [done|].
  unfold tracksOf. cbn. unfold constant.
  rewrite lookup_insert_ne, !lookup_insert_eq by lia.
  split; [done|]. split; [done|]. split; [done|].
  rewrite browser_stop_streams. cbn [streams].
  by rewrite lookup_alter_ne, lookup_insert_eq by lia.
Qed.

Lemma X24_two_screen_shares_from_one_render_witness :
  let p1 := panel_exec (toggleScreenShare taskChosen (GumStream sharedScreen)) readyPanel in
  let p2 := panel_exec (toggleScreenShare taskChosen (GumStream sharedScreen)) p1 in
  let p3 := panel_exec (browserStopsSharing 0) p2 in
  screenView (core p2) = (Some 1, true, Some 1)
  ∧ active (tracksOf (core p2) 0) = true
  ∧ screenView (core p3) = (None, false, None)
  ∧ active (tracksOf (core p3) 1) = true.
Proof.
  assert (getVideoTracks sharedScreen ≠ []) as Hvideo by discriminate.
  pose proof (X24_two_screen_shares_from_one_render readyPanel taskChosen sharedScreen
                sharedScreen eq_refl Hvideo Hvideo) as (_ & H1 & H2 & _ & H3 & H4).
  split; [exact H1|]. split; [exact (f_equal active H2)|].
  split; [exact H3 | exact (f_equal active H4)].
Defined.

(** X25.  The permission panel starts the session through the render that
    closed it.  Closing the panel hides it and, when the render of the
    [onClose] saw the permissions granted and no session, schedules
    [startSailingSession] half a second later; the callback does nothing
    before that, and then runs once, through the closures of that render,
    and is gone.  A render that did not see the permissions yet schedules
    nothing, even if [handlePermissionsGranted] has just set the
    [hasPermissions] cell. *)
Theorem X25_permission_panel_starts_the_session (p : Panel) (snap : State)
    (env : StartEnv) (dt : N)
    (Hidle : isSessionActive snap = false ∧ isStartingSession snap = false) :
  let closed := panel_exec (permissionPanelClosed snap true) p in
  let unseen := panel_exec (permissionPanelClosed snap false)
                  (panel_exec (handlePermissionsGranted snap true None) p) in
  let i := length (deferred p) in
  let later := panel_exec (lift (advance dt)) closed in
  showPermissionPanel closed = false
  ∧ deferred closed = deferred p ++ [((now (core p) + 500)%N, DeferStartSailingSession snap)]
  ∧ hasPermissions unseen = true
  ∧ deferred unseen = deferred p
  ∧ (if (500 <=? dt)%N
     then fireDeferred i env later
          = startSailingSession snap env (later <| deferred := deferred p |>)
     else fireDeferred i env later = (Returned (), later)).
Proof.
  cbn zeta. destruct Hidle as [Ha Hs].
  assert (panel_exec (permissionPanelClosed snap true) p
          = p <| showPermissionPanel := false |>
              <| deferred ::= (λ l, l ++ [((now (core p) + 500)%N,
                                           DeferStartSailingSession snap)]) |>) as ->.
  { unfold panel_exec, permissionPanelClosed. rewrite Ha, Hs. by destruct p. }
  assert (panel_exec (permissionPanelClosed snap false)
            (panel_exec (handlePermissionsGranted snap true None) p)
          = p <| core ::= (λ w, w <| st ::= (λ s, s <| sessionError := None |>) |>) |>
              <| hasPermissions := true |> <| showPermissionPanel := false |>) as ->.
  { unfold panel_exec, permissionPanelClosed, handlePermissionsGranted.
    destruct p as [w ? ? ? ? ?]. by destruct w. }
  split; [by destruct p|]. split; [by destruct p|]. split; [by destruct p|].
  split; [by destruct p|].
  rewrite exec_lift.
  destruct p as [w hp sp cl el df]. destruct w as [s ? ? ? ? ? ? ? ? ? ? nw ? ?].
  unfold fireDeferred. cbn [deferred core now apply_update constant exec advance modify snd].
  rewrite list_lookup_middle by done. cbn [now apply_update constant].
  destruct (N.leb_spec 500 dt) as [Hle|Hlt].
  - rewrite (proj2 (N.leb_le _ _)) by lia.
    by rewrite delete_middle, app_nil_r.
  - rewrite (proj2 (N.leb_gt _ _)) by lia. reflexivity.
Qed.

Lemma X25_permission_panel_starts_the_session_witness :
  let closed := panel_exec (permissionPanelClosed taskChosen true) readyPanel in
  let later := panel_exec (lift (advance 500)) closed in
  deferred closed = [(500%N, DeferStartSailingSession taskChosen)]
  ∧ currentSessionId (st (core (panel_exec (fireDeferred 0 (allGranted "s1")) later)))
    = Some "s1".
Proof.
  pose proof (X25_permission_panel_starts_the_session readyPanel taskChosen (allGranted "s1")
                500 (conj eq_refl eq_refl)) as (_ & H1 & _ & _ & H2).
  split; [exact H1|]. cbn zeta in H2. unfold panel_exec at 1.
  unfold readyPanel at 1 in H2. cbn [deferred initialPanel apply_update constant length] in H2.
  change (500 <=? 500)%N with true in H2. cbv iota in H2.
  rewrite H2. reflexivity.
Defined.

(** * The heartbeat timer, in every panel *)

(** ** Invariants that read the schedule only *)

Section ScheduleInvariants.

Variable Q : World → Prop.
Hypothesis Q_schedule : ∀ w w', schedule w' = schedule w → Q w → Q w'.
Hypothesis Q_startHeartbeat : ∀ snap sid act, preserves Q (startHeartbeat snap sid act).

Lemma upholds_schedule {A} (m : P A) :
  keeps (λ p, schedule (core p)) m → upholds Q m.
Proof. intros Hm p H. apply (Q_schedule (core p)); [apply Hm | exact H]. Qed.

Lemma upholds_lift_schedule {A} (m : M A) :
  (∀ x, preserves (λ w, schedule w = x) m) → upholds Q (lift m).
Proof. intros Hm. apply upholds_schedule, (keeps_lift schedule), Hm. Qed.

Lemma startSailingSession_upholds snap env : upholds Q (startSailingSession snap env).
Proof.
  intros p H.
  destruct (selectedTask snap) as [task|] eqn:Hsel;
    [|unfold panel_exec, startSailingSession; by rewrite Hsel].
  destruct (mayStart snap) eqn:Hguard;
    [|unfold panel_exec, startSailingSession; by rewrite Hsel, Hguard].
  unfold panel_exec. rewrite (startSailingSession_run _ _ _ _ Hsel Hguard). cbn [snd].
  destruct (start_session env) as [sid|error].
  - destruct (devicesReady_schedule snap env sid (requested task p)) as [Hs _].
    set (q := devicesReady snap env sid (requested task p)) in *.
    assert (Q (core q)) as Hq.
    { apply (Q_schedule (core p)); [|exact H]. rewrite Hs. by destruct p. }
    rewrite sessionOn_run.
    pose proof (Q_startHeartbeat snap sid true (core q) Hq) as Hstart.
    rewrite startHeartbeat_exec in Hstart.
    clearbody q. clear Hs. destruct q as [w ? ? ? ? ?]. cbn [core] in *.
    destruct (heartbeatIntervalRef w) eqn:Hh.
    + apply (Q_schedule w); [|exact Hq]. by destruct w.
    + apply (Q_schedule (started snap sid true w)); [|exact Hstart]. by destruct w.
  - apply (Q_schedule (core p)); [|exact H]. by destruct p.
Qed.

Lemma panel_perform_upholds a :
  match a with
  | ActCore c => preserves Q (perform c)
  | ActUnmount => preserves Q unmount
  | _ => True
  end →
  upholds Q (panel_perform a).
Proof.
  destruct a; cbn [panel_perform]; intros Ha.
  - by apply upholds_lift.
  - apply upholds_lift_schedule. intros x. unfold toggleMic.
    preserves_auto; schedule_writes.
  - by apply upholds_lift.
  - apply upholds_schedule. intros p.
    exact (f_equal fst (toggleScreenShare_schedule snap answer p)).
  - apply upholds_schedule. intros p. unfold panel_exec, browserStopsSharing.
    destruct (bool_decide _); rewrite lift_run; cbn [snd]; by destruct p.
  - by apply upholds_backstage.
  - apply upholds_schedule. intros p. destruct incoming as [ts|].
    + unfold panel_exec. rewrite panel_bind_run, lift_run.
      cbn [fst snd newStream fromRes]. unfold handlePermissionsGranted.
      destruct p as [w ? ? ? ? ?]. destruct w as [s ? ? ? ? ? ? ? ? ? ? ? ? ?].
      destruct s. by destruct (screenStream snap), hasEssentialPermissions.
    + unfold panel_exec, handlePermissionsGranted.
      destruct p as [w ? ? ? ? ?]. destruct w as [s ? ? ? ? ? ? ? ? ? ? ? ? ?].
      destruct s. by destruct hasEssentialPermissions.
  - apply upholds_backstage. intros p. unfold handleStartJourney.
    by destruct (selectedTask snap).
  - apply upholds_backstage. intros p. unfold permissionPanelClosed.
    by destruct (_ && _).
  - apply startSailingSession_upholds.
  - apply upholds_schedule. intros p. unfold panel_exec, handleCloseSummary.
    by destruct p.
  - intros p H. unfold panel_exec, fireDeferred.
    destruct (deferred p !! i) as [[due d]|]; [|exact H].
    destruct (due <=? now (core p))%N; [|exact H].
    destruct d as [sid|snap].
    + by destruct p.
    + apply (startSailingSession_upholds snap env). by destruct p.
Qed.

End ScheduleInvariants.

Lemma unmount_heartbeat_inv : preserves heartbeat_inv unmount.
Proof.
  unfold unmount.
  apply preserves_bind; [apply cleanupRealtimeChannel_heartbeat_inv|intros _].
  apply preserves_bind; [apply cleanupMediaStreams_heartbeat_inv|intros _].
  apply stopHeartbeat_heartbeat_inv.
Qed.

Lemma unmount_fresh : preserves timers_fresh unmount.
Proof.
  unfold unmount.
  apply preserves_bind; [apply cleanupRealtimeChannel_fresh|intros _].
  apply preserves_bind; [apply cleanupMediaStreams_fresh|intros _].
  apply stopHeartbeat_fresh.
Qed.

Lemma panel_perform_heartbeat_inv a : upholds heartbeat_inv (panel_perform a).
Proof.
  apply panel_perform_upholds.
  - intros w w' [= Ht _ Hh _ _ Ha]. apply heartbeat_inv_view.
    unfold heartbeat_view. by rewrite Ht, Hh, Ha.
  - apply startHeartbeat_heartbeat_inv.
  - destruct a; try exact I; [apply perform_heartbeat_inv | apply unmount_heartbeat_inv].
Qed.

Lemma panel_perform_fresh a : upholds timers_fresh (panel_perform a).
Proof.
  apply panel_perform_upholds.
  - intros w w' [= Ht Hn _ _ _ _]. by apply timers_fresh_view.
  - apply startHeartbeat_fresh.
  - destruct a; try exact I; [apply perform_fresh | apply unmount_fresh].
Qed.

Lemma panel_perform_hasHandle a :
  panelStopsHeartbeat a = false → upholds hasHandle (panel_perform a).
Proof.
  intros Ha. apply panel_perform_upholds.
  - intros w w' [= _ _ Hh _ _ _]. by apply hasHandle_view.
  - intros snap sid act. apply (perform_hasHandle (ActStartHeartbeat snap sid act) eq_refl).
  - destruct a; try exact I; [by apply perform_hasHandle | discriminate].
Qed.

Lemma panel_run_hasHandle l : ∀ p,
  Forall (λ a, panelStopsHeartbeat a = false) l →
  hasHandle (core p) → hasHandle (core (panel_run l p)).
Proof.
  unfold panel_run. induction l as [|a l IH]; intros p Hl Hp; [exact Hp|].
  inversion Hl as [|? ? Ha Hl']; subst. cbn [foldl].
  apply IH; [exact Hl'|]. by apply panel_perform_hasHandle.
Qed.

(** ** Reachable worlds *)

Lemma reachable_heartbeat_inv w : reachable w → heartbeat_inv w.
Proof.
  intros (user & l & ->).
  apply panel_run_upholds; [apply panel_perform_heartbeat_inv | apply initial_heartbeat_inv].
Qed.

Lemma reachable_fresh w : reachable w → timers_fresh w.
Proof.
  intros (user & l & ->).
  apply panel_run_upholds; [apply panel_perform_fresh | constructor].
Qed.

Lemma panel_run_app l l' p : panel_run (l ++ l') p = panel_run l' (panel_run l p).
Proof. unfold panel_run. apply foldl_app. Qed.

Lemma reachable_panel_run user l l' :
  reachable (core (panel_run l' (panel_run l (initialPanel user)))).
Proof. exists user, (l ++ l'). by rewrite panel_run_app. Qed.

(** The histories of the session core are histories of the panel. *)
Lemma reachable_run l w : reachable w → reachable (run l w).
Proof.
  intros (user & l0 & ->). exists user, (l0 ++ (ActCore <$> l)).
  rewrite panel_run_app. generalize (panel_run l0 (initialPanel user)). clear.
  induction l as [|a l IH]; intros p; [reflexivity|].
  cbn [fmap list_fmap run foldl panel_run]. fold (run l (step (core p) a)).
  fold (panel_run (ActCore <$> l) (panel_step p (ActCore a))). rewrite <- IH. f_equal.
  unfold panel_step, step. cbn [panel_perform]. by rewrite exec_lift.
Qed.

(** At most one heartbeat interval, in every reachable world. *)
Lemma reachable_one_interval w :
  reachable w →
  (length (intervals w) ≤ 1)%nat
  ∧ (heartbeatIntervalRef w = None ↔ intervals w = [])
  ∧ (heartbeatIntervalRef w = None ↔ isHeartbeatActive (st w) = false).
Proof.
  intros Hw. destruct (reachable_heartbeat_inv w Hw) as [Hh Ha _].
  destruct (heartbeatIntervalRef w) as [id|].
  - destruct Hh as (t & Ht & _). rewrite Ht, Ha. cbn. repeat split; (lia || done).
  - rewrite Hh, Ha. cbn. repeat split; (lia || done).
Qed.

(** A panel with a session is reachable: the session cells are written by
    [startSailingSession], an action of the panel. *)
Example reachable_with_a_session :
  let w := core (panel_exec (startSailingSession taskChosen (allGranted "s1"))
                            (initialPanel (Some "user-1"))) in
  reachable w
  ∧ currentSessionId (st w) = Some "s1" ∧ isSessionActive (st w) = true
  ∧ heartbeatIntervalRef w = Some 2.
Proof.
  cbn zeta. split.
  - exists (Some "user-1"), [ActStartSailingSession taskChosen (allGranted "s1")].
    reflexivity.
  - vm_compute. repeat split.
Qed.

(** ** C6: starting the heartbeat twice *)

Lemma one_interval w :
  heartbeat_inv w → hasHandle w →
  startHeartbeat_noop_at w
  ∧ ∃ t, intervals w = [t]
         ∧ recurring t = Some 60000%N
         ∧ isHeartbeatTimer t = true
         ∧ heartbeatIntervalRef w = Some (timer_id t).
Proof.
  intros [Hi _ Hp] Hh. unfold hasHandle in Hh. unfold startHeartbeat_noop_at.
  destruct (heartbeatIntervalRef w) as [id|] eqn:Hid; [|done].
  split; [intros snap sid act; by rewrite startHeartbeat_run, Hid|].
  destruct Hi as (t & Ht & Hidt). exists t.
  rewrite Ht in Hp. inversion Hp as [|? ? [Hr Hb] _]; subst. done.
Qed.

(** C6.  Take any panel that a history leads to from the mounted panel,
    sessions included.  (1) Start the heartbeat, let anything happen that
    does not stop it, and start it again: the second call changes nothing
    at all (it schedules nothing), and there is exactly one interval
    timer, of period 60000 ms, running heartbeats, which is the one the
    handle names.  (2) The same for the calls the panel makes itself, in
    step 6 of [startSailingSession]: after a session start that the
    backend accepted and any history that does not stop the heartbeat, a
    second accepted session start adds no timer and leaves the handle as
    it is, and there is exactly one interval timer, of period 60000 ms,
    which the handle names. *)
Theorem C6_second_start_is_noop (user : option string) (before between : list PanelAction)
    (snap snap' : State) (sid sid' : string) (act act' : bool) :
  Forall (λ a, panelStopsHeartbeat a = false) between →
  let p := panel_run before (initialPanel user) in
  (let p2 := panel_run between (panel_exec (lift (startHeartbeat snap sid act)) p) in
   startHeartbeat snap' sid' act' (core p2) = (Ok (), core p2)
   ∧ ∃ t, intervals (core p2) = [t]
          ∧ recurring t = Some 60000%N
          ∧ isHeartbeatTimer t = true
          ∧ heartbeatIntervalRef (core p2) = Some (timer_id t))
  ∧ (∀ env env' task task',
       selectedTask snap = Some task → mayStart snap = true →
       start_session env = SessionStarted sid →
       selectedTask snap' = Some task' → mayStart snap' = true →
       start_session env' = SessionStarted sid' →
       let q2 := panel_run between (panel_exec (startSailingSession snap env) p) in
       let q3 := panel_exec (startSailingSession snap' env') q2 in
       currentSessionId (st (core q3)) = Some sid'
       ∧ timers (core q3) = timers (core q2)
       ∧ next_timer (core q3) = next_timer (core q2)
       ∧ heartbeatIntervalRef (core q3) = heartbeatIntervalRef (core q2)
       ∧ ∃ t, intervals (core q3) = [t]
              ∧ recurring t = Some 60000%N
              ∧ isHeartbeatTimer t = true
              ∧ heartbeatIntervalRef (core q3) = Some (timer_id t)).
Proof.
  intros Hbetween p.
  assert (heartbeat_inv (core p)) as Hp
    by (apply reachable_heartbeat_inv; by exists user, before).
  split.
  - cbn zeta. set (p1 := panel_exec (lift (startHeartbeat snap sid act)) p).
    assert (heartbeat_inv (core p1)) as Hinv1
      by (apply (upholds_lift heartbeat_inv), Hp; apply startHeartbeat_heartbeat_inv).
    assert (hasHandle (core p1)) as Hh1.
    { unfold p1. rewrite exec_lift.
      assert (∀ (q : Panel) w, core (q <| core := w |>) = w) as Hcore by (by intros []).
      rewrite Hcore, startHeartbeat_exec. unfold hasHandle.
      destruct (heartbeatIntervalRef (core p)) eqn:Hh; [by rewrite Hh | done]. }
    destruct (one_interval (core (panel_run between p1))) as [Hnoop Hone].
    + apply panel_run_upholds; [apply panel_perform_heartbeat_inv | exact Hinv1].
    + by apply panel_run_hasHandle.
    + split; [apply Hnoop | exact Hone].
  - intros env env' task task' Hsel Hguard Hacc Hsel' Hguard' Hacc'. cbn zeta.
    set (q1 := panel_exec (startSailingSession snap env) p).
    assert (heartbeat_inv (core q1)) as Hinv1
      by apply (panel_perform_heartbeat_inv (ActStartSailingSession snap env)), Hp.
    assert (hasHandle (core q1)) as Hh1.
    { destruct (start_accepted snap env task sid p Hsel Hguard Hacc)
        as (_ & _ & _ & _ & _ & _ & Ht).
      fold q1 in Ht. unfold hasHandle.
      destruct (heartbeatIntervalRef (core p)); injection Ht as _ _ ->; done. }
    set (q2 := panel_run between q1).
    destruct (one_interval (core q2)) as [_ (t & Ht & Hr & Hb & Hid)].
    { apply panel_run_upholds; [apply panel_perform_heartbeat_inv | exact Hinv1]. }
    { by apply panel_run_hasHandle. }
    destruct (start_accepted snap' env' task' sid' q2 Hsel' Hguard' Hacc')
      as (Hcells & _ & _ & _ & _ & _ & Htimers).
    rewrite Hid in Htimers. injection Htimers as Ht3 Hn3 Hh3.
    split; [exact (f_equal (λ x, x.1.1.1.1) Hcells)|].
    split; [exact Ht3|]. split; [exact Hn3|]. split; [by rewrite Hh3, Hid|].
    exists t. unfold intervals in *. rewrite Ht3, Hh3. done.
Qed.

Lemma C6_second_start_is_noop_witness :
  let p := initialPanel (Some "user-1") in
  let q2 := panel_run [ActCore (ActAdvance 1000); ActCore ActSessionEnded]
                      (panel_exec (startSailingSession taskChosen (allGranted "s1")) p) in
  let q3 := panel_exec (startSailingSession taskChosen (allGranted "s2")) q2 in
  currentSessionId (st (core q3)) = Some "s2"
  ∧ timers (core q3) = timers (core q2)
  ∧ ∃ t, intervals (core q3) = [t]
         ∧ recurring t = Some 60000%N
         ∧ heartbeatIntervalRef (core q3) = Some (timer_id t).
Proof.
  destruct (C6_second_start_is_noop (Some "user-1") []
              [ActCore (ActAdvance 1000); ActCore ActSessionEnded]
              taskChosen taskChosen "s1" "s2" true true) as [_ Hstarts].
  { repeat constructor. }
  destruct (Hstarts (allGranted "s1") (allGranted "s2") _ _
              eq_refl eq_refl eq_refl eq_refl eq_refl eq_refl)
    as (Hsession & Htimers & _ & _ & t & Ht & Hr & _ & Hid).
  cbn zeta. split; [exact Hsession|]. split; [exact Htimers|].
  exists t. split; [exact Ht|]. split; [exact Hr | exact Hid].
Defined.

(** * The Spline webhook *)

Section WebhookProperties.
Import SplineWebhook.

(** X1.  Whatever the request and the environment, the handler answers 200
    or 500 with the CORS headers, and gives at most one row to [insert].
    A request other than the preflight is answered 200 exactly when one row
    was given to [insert] and the insert did not fail; the answer then
    names the event and the modal of that row.  A row is inserted only
    when both environment variables are set, [createClient] handed over a
    client for them and the body was read.  When [createClient] throws,
    the answer is 500 with the message of that error.  The [user_id] of a
    row is [null] or a truthy value. *)
Theorem X1_webhook_response_matches_insert (env : Env) (req : Request) :
  let r := (handler env req).1 in
  let rows := (handler env req).2 in
  (status r = 200 ∨ status r = 500)
  ∧ corsHeaders `prefix_of` headers r
  ∧ (length rows ≤ 1)%nat
  ∧ (method req ≠ "OPTIONS" →
       (status r = 200 ↔ insert env = Inserted ∧ length rows = 1)
       ∧ (status r = 200 →
            ∃ row modal,
              rows = [row]
              ∧ prop "modalType" (event_data row) = Some (JStr modal)
              ∧ chain (content r) (prop "triggeredEvent")
                = Some (JObj [ ("eventName", JStr (event_name row));
                               ("modalType", JStr modal) ])))
  ∧ (rows ≠ [] →
       unset (SUPABASE_URL env) = false ∧ unset (SUPABASE_SERVICE_ROLE_KEY env) = false
       ∧ (∃ raw, body req = BodyJson raw)
       ∧ ∀ url key, SUPABASE_URL env = Some url → SUPABASE_SERVICE_ROLE_KEY env = Some key →
                    createClient env url key = Client)
  ∧ (∀ url key msg,
       method req ≠ "OPTIONS" →
       SUPABASE_URL env = Some url → url ≠ "" →
       SUPABASE_SERVICE_ROLE_KEY env = Some key → key ≠ "" →
       createClient env url key = ClientThrows msg →
       r = internalError msg ∧ rows = [])
  ∧ Forall (λ row, user_id row = None ∨ truthy (user_id row) = true) rows.
Proof.
  cbn zeta. unfold handler.
  destruct (String.eqb_spec (method req) "OPTIONS") as [Hm|Hm];
    [|destruct (unset (SUPABASE_URL env)) eqn:Hu; cbn [orb];
      [|destruct (unset (SUPABASE_SERVICE_ROLE_KEY env)) eqn:Hk;
        [|destruct (createClient env _ _) as [|cmsg] eqn:Hc;
          [destruct (body req) as [raw|msg] eqn:Hb;
           [destruct (extractPayload env raw) as [|b|q|s|items|ms] eqn:Hp;
            [|destruct (insert env) eqn:Hi..]|]|]]]].
  all: cbn [fst snd status headers content length chain prop member String.eqb Ascii.eqb
            Bool.eqb event_data event_name user_id eventRow].
  all: split; [first [by left | by right]|].
  all: split; [first [done | by apply prefix_app_r]|].
  all: split; [lia|].
  all: split; [intros Hne; try done;
                 (split; [split; [try done | intros [? ?]; try done; congruence]
                         |intros ?; try done; eexists _, _; done])|].
  all: split; [intros ?; try done;
                 (split; [done|]; split; [done|]; split; [by eexists|];
                  intros url key Hu' Hk'; rewrite Hu', Hk' in Hc; exact Hc)|].
  all: split;
    [intros url key msg' Hm' Hu' Hune Hk' Hkne Hc'; try done;
     try (rewrite Hu' in Hu; cbn in Hu; by apply String.eqb_eq in Hu);
     try (rewrite Hk' in Hk; cbn in Hk; by apply String.eqb_eq in Hk);
     rewrite Hu', Hk' in Hc; simpl in Hc; rewrite Hc' in Hc;
     first [discriminate | by injection Hc as ->]|].
  all: try by constructor.
  all: apply Forall_singleton; cbn [user_id eventRow].
  all: match goal with
       | |- (if truthy ?x then _ else _) = _ ∨ _ =>
           destruct (truthy x) eqn:Ht; [by right | by left]
       end.
Qed.

(** X2.  A body that is neither an object nor an array (a number, a
    string, a boolean, [null]), and a rich-text body whose text
    [JSON.parse] rejects, are answered exactly as the body [{ number: 1 }]
    is: same response, same row.  With both environment variables set, a
    client from [createClient] and the insert accepted, that row is
    [show_goals_modal] for no user. *)
Theorem X2_webhook_unreadable_payload_is_goals (env : Env) (req : Request) (raw : Json)
    (Hbody : body req = BodyJson raw)
    (Hraw : match raw with
            | JObj _ => False
            | JArr items => truthy (richText items) = true
                            ∧ ∀ text, richText items = Some text → JSON_parse env text = None
            | _ => True
            end) :
  handler env req = handler env {| method := method req; body := BodyJson defaultPayload |}
  ∧ (∀ url key,
     method req ≠ "OPTIONS" →
     SUPABASE_URL env = Some url → url ≠ "" →
     SUPABASE_SERVICE_ROLE_KEY env = Some key → key ≠ "" →
     createClient env url key = Client →
     insert env = Inserted →
     status (handler env req).1 = 200
     ∧ ∃ row, (handler env req).2 = [row]
              ∧ event_name row = "show_goals_modal"
              ∧ user_id row = None
              ∧ prop "originalPayload" (event_data row) = Some defaultPayload).
Proof.
  assert (extractPayload env raw = defaultPayload) as Hp.
  { destruct raw as [|b|q|s|items|ms]; try done.
    destruct Hraw as [Ht Hparse]. unfold extractPayload. rewrite Ht.
    destruct (richText items) as [text|]; [|done].
    by rewrite (Hparse text eq_refl). }
  split.
  - unfold handler. cbn [method body]. rewrite Hbody, Hp. reflexivity.
  - intros url key Hm Hu Hune Hk Hkne Hc Hi. unfold handler.
    destruct (String.eqb_spec (method req) "OPTIONS") as [|_]; [done|].
    rewrite Hu, Hk. simpl.
    apply String.eqb_neq in Hune, Hkne. rewrite Hune, Hkne. cbn [orb].
    rewrite Hc, Hbody, Hp, Hi. cbn. split; [done|]. by eexists.
Qed.

(** X3.  Rich text is transparent for objects: when the text of a
    rich-text body parses to an object, the handler answers and inserts
    exactly as for that object sent as the body itself. *)
Theorem X3_webhook_rich_text_is_transparent (env : Env) (req : Request)
    (items : list Json) (text : Json) (members : list (string * Json))
    (Hbody : body req = BodyJson (JArr items))
    (Htext : richText items = Some text)
    (Htruthy : truthy (Some text) = true)
    (Hparse : JSON_parse env text = Some (JObj members)) :
  handler env req
  = handler env {| method := method req; body := BodyJson (JObj members) |}.
Proof.
  unfold handler. cbn [method body]. rewrite Hbody.
  assert (extractPayload env (JArr items) = JObj members) as ->; [|done].
  unfold extractPayload. by rewrite Htext, Htruthy, Hparse.
Qed.

(** X4.  The text [null] in rich text is not caught: when the text parses
    to [null], reading [payload.user_id] throws; with both environment
    variables set and a client from [createClient], the answer is 500 with
    the details of that error and nothing is inserted, whatever the insert
    would have answered.  The body [null] itself is answered as
    [{ number: 1 }] is. *)
Theorem X4_webhook_rich_text_null_is_an_error (env : Env) (req : Request)
    (items : list Json) (text : Json) (url key : string)
    (Hmethod : method req ≠ "OPTIONS")
    (Hurl : SUPABASE_URL env = Some url) (Hurl_set : url ≠ "")
    (Hkey : SUPABASE_SERVICE_ROLE_KEY env = Some key) (Hkey_set : key ≠ "")
    (Hclient : createClient env url key = Client)
    (Hbody : body req = BodyJson (JArr items))
    (Htext : richText items = Some text)
    (Htruthy : truthy (Some text) = true)
    (Hparse : JSON_parse env text = Some JNull) :
  handler env req
  = (internalError "Cannot read properties of null (reading 'user_id')", [])
  ∧ handler env {| method := method req; body := BodyJson JNull |}
    = handler env {| method := method req; body := BodyJson defaultPayload |}.
Proof.
  split; [|done].
  unfold handler.
  destruct (String.eqb_spec (method req) "OPTIONS") as [|_]; [done|].
  rewrite Hurl, Hkey. simpl.
  apply String.eqb_neq in Hurl_set, Hkey_set. rewrite Hurl_set, Hkey_set. cbn [orb].
  rewrite Hclient, Hbody.
  assert (extractPayload env (JArr items) = JNull) as ->; [|done].
  unfold extractPayload. by rewrite Htext, Htruthy, Hparse.
Qed.

(** X5.  What is inserted is decided by the payload's [number] and
    [action] alone, with [goals] first: a row's [modalType] is [goals] or
    [welcome] and its [source] is [spline-webhook]; it is [welcome], under
    the name [show_welcome_modal], exactly when [number] is 2 or [action]
    is [welcome] while [number] is not 1 and [action] is not [goals];
    otherwise the name is [show_goals_modal] when [number] is 1 or
    [action] is [goals], and [show_modal_default] when not. *)
Theorem X5_webhook_row_follows_number_and_action (env : Env) (req : Request) (row : EventRow)
    (Hrow : row ∈ (handler env req).2) :
  ∃ payload,
    prop "originalPayload" (event_data row) = Some payload
    ∧ prop "source" (event_data row) = Some (JStr "spline-webhook")
    ∧ let goals := isNumber 1 (prop "number" payload) || isString "goals" (prop "action" payload) in
      let welcome := isNumber 2 (prop "number" payload) || isString "welcome" (prop "action" payload) in
      prop "modalType" (event_data row)
      = Some (JStr (if negb goals && welcome then "welcome" else "goals"))
      ∧ event_name row
        = (if goals then "show_goals_modal"
           else if welcome then "show_welcome_modal" else "show_modal_default").
Proof.
  revert Hrow. unfold handler.
  destruct (String.eqb (method req) "OPTIONS"); [by intros ?%elem_of_nil|].
  destruct (unset (SUPABASE_URL env) || unset (SUPABASE_SERVICE_ROLE_KEY env));
    [by intros ?%elem_of_nil|].
  destruct (createClient env _ _); [|by intros ?%elem_of_nil].
  destruct (body req) as [raw|msg]; [|by intros ?%elem_of_nil].
  set (payload := extractPayload env raw).
  assert (row = eventRow env payload
                  (if truthy (prop "user_id" payload) then prop "user_id" payload else None) →
          ∃ payload,
            prop "originalPayload" (event_data row) = Some payload
            ∧ prop "source" (event_data row) = Some (JStr "spline-webhook")
            ∧ let goals := isNumber 1 (prop "number" payload) || isString "goals" (prop "action" payload) in
              let welcome := isNumber 2 (prop "number" payload) || isString "welcome" (prop "action" payload) in
              prop "modalType" (event_data row)
              = Some (JStr (if negb goals && welcome then "welcome" else "goals"))
              ∧ event_name row
                = (if goals then "show_goals_modal"
                   else if welcome then "show_welcome_modal" else "show_modal_default")) as Hgen.
  { intros ->. exists payload. unfold eventRow, decide_modal.
    destruct (isNumber 1 _ || isString "goals" _);
      destruct (isNumber 2 _ || isString "welcome" _); done. }
  destruct payload; [by intros ?%elem_of_nil|..];
    destruct (insert env); cbn [snd]; intros ->%list_elem_of_singleton; by apply Hgen.
Qed.

(** Requests and environments of the webhook used below: the project URL
    parses, and [createClient] refuses a URL without a scheme. *)

Lemma X2_webhook_unreadable_payload_is_goals_witness :
  let env := {| SUPABASE_URL := Some "https://project.supabase.co";
                SUPABASE_SERVICE_ROLE_KEY := Some "service-key";
                createClient := λ url _, if String.prefix "https://" url then Client
                                         else ClientThrows "Invalid URL";
                JSON_parse := λ _, None;
                timestamp := "2025-01-01T00:00:00.000Z";
                insert := Inserted |} in
  let req := {| method := "POST";
                body := BodyJson (JArr [JObj [("children", JArr [JObj [("text", JStr "number: 2")]])]]) |} in
  handler env req = handler env {| method := method req; body := BodyJson defaultPayload |}
  ∧ status (handler env req).1 = 200
  ∧ ∃ row, (handler env req).2 = [row]
           ∧ event_name row = "show_goals_modal"
           ∧ user_id row = None
           ∧ prop "originalPayload" (event_data row) = Some defaultPayload.
Proof.
  intros env req.
  destruct (X2_webhook_unreadable_payload_is_goals env req
              (JArr [JObj [("children", JArr [JObj [("text", JStr "number: 2")]])]]))
    as [Hsame Hgoals]; [reflexivity | split; [reflexivity | intros; reflexivity] |].
  split; [exact Hsame|].
  apply (Hgoals "https://project.supabase.co" "service-key");
    first [reflexivity | discriminate].
Defined.

Lemma X3_webhook_rich_text_is_transparent_witness :
  let env := {| SUPABASE_URL := Some "https://project.supabase.co";
                SUPABASE_SERVICE_ROLE_KEY := Some "service-key";
                createClient := λ url _, if String.prefix "https://" url then Client
                                         else ClientThrows "Invalid URL";
                JSON_parse := λ _, Some (JObj [("number", JNum 2); ("user_id", JStr "u1")]);
                timestamp := "2025-01-01T00:00:00.000Z";
                insert := Inserted |} in
  let req := {| method := "POST";
                body := BodyJson (JArr [JObj [("children", JArr [JObj [("text", JStr "welcome")]])]]) |} in
  handler env req
  = handler env {| method := "POST";
                   body := BodyJson (JObj [("number", JNum 2); ("user_id", JStr "u1")]) |}.
Proof.
  intros env req.
  apply (X3_webhook_rich_text_is_transparent env req
           [JObj [("children", JArr [JObj [("text", JStr "welcome")]])]]
           (JStr "welcome")); reflexivity.
Defined.

Lemma X4_webhook_rich_text_null_is_an_error_witness :
  let env := {| SUPABASE_URL := Some "https://project.supabase.co";
                SUPABASE_SERVICE_ROLE_KEY := Some "service-key";
                createClient := λ url _, if String.prefix "https://" url then Client
                                         else ClientThrows "Invalid URL";
                JSON_parse := λ _, Some JNull;
                timestamp := "2025-01-01T00:00:00.000Z";
                insert := Inserted |} in
  let req := {| method := "POST";
                body := BodyJson (JArr [JObj [("children", JArr [JObj [("text", JStr "null")]])]]) |} in
  handler env req
  = (internalError "Cannot read properties of null (reading 'user_id')", [])
  ∧ handler env {| method := method req; body := BodyJson JNull |}
    = handler env {| method := method req; body := BodyJson defaultPayload |}.
Proof.
  intros env req.
  apply (X4_webhook_rich_text_null_is_an_error env req
           [JObj [("children", JArr [JObj [("text", JStr "null")]])]]
           (JStr "null") "https://project.supabase.co" "service-key");
    first [reflexivity | discriminate].
Defined.

Lemma X5_webhook_row_follows_number_and_action_witness :
  let env := {| SUPABASE_URL := Some "https://project.supabase.co";
                SUPABASE_SERVICE_ROLE_KEY := Some "service-key";
                createClient := λ url _, if String.prefix "https://" url then Client
                                         else ClientThrows "Invalid URL";
                JSON_parse := λ _, None;
                timestamp := "2025-01-01T00:00:00.000Z";
                insert := Inserted |} in
  let payload := JObj [("number", JNum 1); ("action", JStr "welcome")] in
  let row := eventRow env payload None in
  ∃ payload,
    prop "originalPayload" (event_data row) = Some payload
    ∧ prop "source" (event_data row) = Some (JStr "spline-webhook")
    ∧ let goals := isNumber 1 (prop "number" payload) || isString "goals" (prop "action" payload) in
      let welcome := isNumber 2 (prop "number" payload) || isString "welcome" (prop "action" payload) in
      prop "modalType" (event_data row)
      = Some (JStr (if negb goals && welcome then "welcome" else "goals"))
      ∧ event_name row
        = (if goals then "show_goals_modal"
           else if welcome then "show_welcome_modal" else "show_modal_default").
Proof.
  intros env payload row.
  apply (X5_webhook_row_follows_number_and_action env
           {| method := "POST"; body := BodyJson payload |} row).
  vm_compute. apply list_elem_of_here.
Defined.

(** With a project URL that has no scheme, [createClient] throws before the
    body is read: the answer is 500 with its message, and nothing is
    inserted, whatever the body. *)
Example webhook_url_without_scheme (b : Body) :
  handler {| SUPABASE_URL := Some "project.supabase.co";
             SUPABASE_SERVICE_ROLE_KEY := Some "service-key";
             createClient := λ url _, if String.prefix "https://" url then Client
                                      else ClientThrows "Invalid URL";
             JSON_parse := λ _, None;
             timestamp := "2025-01-01T00:00:00.000Z";
             insert := Inserted |}
          {| method := "POST"; body := b |}
  = (internalError "Invalid URL", []).
Proof. reflexivity. Qed.

End WebhookProperties.
